(** * 3dsnake: the authoritative server core, embedded in Rocq

    A shallow embedding of the backend of the cube-surface snake game:
    - [Geometry]  : backend/app/game/geometry.py
    - [Sim]       : backend/app/game/sim.py
    - [Rooms]     : backend/app/rooms.py (join, the tick driver's locked step)
    - [Net]       : backend/app/main.py (join handshake, the [input] message)

    Python integers are unbounded, so they are [Z]; [//] and [%] are floor
    division and its remainder, which is what [Z.div] and [Z.modulo] compute.
    Python exceptions are values of [exn]; a function that can raise returns a
    [result]. *)

From Stdlib Require Import ZArith List Bool String Ascii Lia Relations RelationClasses Sorted.

Import ListNotations.
Local Open Scope Z_scope.
Local Open Scope bool_scope.

(** ** Exceptions *)

Inductive exn : Type :=
| TypeError
| IndexError
| KeyError
| ZeroDivisionError
| ValueError
| AttributeError (message : string)
| RuntimeError (message : string)
| OutOfFuel.  (* no Python exception: the embedding's bound on a [while] loop *)

Inductive result (A : Type) : Type :=
| Ok (a : A)
| Raise (e : exn).
Arguments Ok {A} a.
Arguments Raise {A} e.

(** ** geometry.py *)

Module Geometry.

Record Vec3 : Type := mkVec3 { vx : Z; vy : Z; vz : Z }.

(** [Vec3.__add__], [Vec3.__sub__], [Vec3.scale] *)
Definition vadd (a b : Vec3) : Vec3 :=
  mkVec3 (vx a + vx b) (vy a + vy b) (vz a + vz b).
Definition vsub (a b : Vec3) : Vec3 :=
  mkVec3 (vx a - vx b) (vy a - vy b) (vz a - vz b).
Definition scale (a : Vec3) (k : Z) : Vec3 :=
  mkVec3 (vx a * k) (vy a * k) (vz a * k).

(** The dataclass equality [a == b]. *)
Definition vec3_eqb (a b : Vec3) : bool :=
  (vx a =? vx b) && (vy a =? vy b) && (vz a =? vz b).

(** The constants [X], [Y], [Z] of the source ([Z] is taken by the integers). *)
Definition vX : Vec3 := mkVec3 1 0 0.
Definition vY : Vec3 := mkVec3 0 1 0.
Definition vZ : Vec3 := mkVec3 0 0 1.

Definition dot (a b : Vec3) : Z := vx a * vx b + vy a * vy b + vz a * vz b.
Definition neg (v : Vec3) : Vec3 := mkVec3 (- vx v) (- vy v) (- vz v).

Record FaceBasis : Type := mkBasis { bn : Vec3; br : Vec3; bu : Vec3 }.

(** The dict [FACE_BASIS]; [None] is a missing key. *)
Definition FACE_BASIS (face : Z) : option FaceBasis :=
  match face with
  | 0 => Some (mkBasis vX (neg vZ) vY)
  | 1 => Some (mkBasis (neg vX) vZ vY)
  | 2 => Some (mkBasis vY vX (neg vZ))
  | 3 => Some (mkBasis (neg vY) vX vZ)
  | 4 => Some (mkBasis vZ vX vY)
  | 5 => Some (mkBasis (neg vZ) (neg vX) vY)
  | _ => None
  end.

Definition encode_cell (face u v n : Z) : Z := face * (n * n) + v * n + u.

(** Python raises [ZeroDivisionError] on [//] and [%] by zero. *)
Definition decode_cell (cell n : Z) : result (Z * Z * Z) :=
  if n * n =? 0 then Raise ZeroDivisionError
  else
    let face := cell / (n * n) in
    let rem := cell mod (n * n) in
    if n =? 0 then Raise ZeroDivisionError
    else
      let v := rem / n in
      let u := rem mod n in
      Ok (face, u, v).

Definition _dir_vec (basis : FaceBasis) (direction : Z) : Vec3 :=
  if direction =? 0 then bu basis
  else if direction =? 1 then br basis
  else if direction =? 2 then neg (bu basis)
  else neg (br basis).

Definition _dir_from_vec (basis : FaceBasis) (v : Vec3) : result Z :=
  if vec3_eqb v (bu basis) then Ok 0
  else if vec3_eqb v (br basis) then Ok 1
  else if vec3_eqb v (neg (bu basis)) then Ok 2
  else if vec3_eqb v (neg (br basis)) then Ok 3
  else Raise ValueError.

Definition turn (direction turn_value : Z) : result Z :=
  if negb ((turn_value =? -1) || (turn_value =? 0) || (turn_value =? 1))
  then Raise ValueError
  else Ok ((direction + turn_value) mod 4).

(** The body of [step_cell] once the cell is decoded to [(face, u, v)]. *)
Definition step_coords (face u v direction n : Z) : result (Z * Z) :=
  match FACE_BASIS face with
  | None => Raise KeyError
  | Some basis =>
    let x_num := 2 * u + 1 - n in
    let y_num := n - (2 * v + 1) in
    let pos := vadd (vadd (scale (bn basis) n) (scale (br basis) x_num))
                    (scale (bu basis) y_num) in
    let move := scale (_dir_vec basis direction) 2 in
    let pos2 := vadd pos move in
    let ax := Z.abs (vx pos2) in
    let ay := Z.abs (vy pos2) in
    let az := Z.abs (vz pos2) in
    let '(max_abs, new_n) :=
      if (ax >=? ay) && (ax >=? az)
      then (ax, if vx pos2 >=? 0 then vX else neg vX)
      else if (ay >=? ax) && (ay >=? az)
      then (ay, if vy pos2 >=? 0 then vY else neg vY)
      else (az, if vz pos2 >=? 0 then vZ else neg vZ) in
    let new_face :=
      if vec3_eqb new_n vX then 0
      else if vec3_eqb new_n (neg vX) then 1
      else if vec3_eqb new_n vY then 2
      else if vec3_eqb new_n (neg vY) then 3
      else if vec3_eqb new_n vZ then 4
      else 5 in
    match FACE_BASIS new_face with
    | None => Raise KeyError
    | Some new_basis =>
      let dot_r := dot pos2 (br new_basis) in
      let dot_u := dot pos2 (bu new_basis) in
      if 2 * max_abs =? 0 then Raise ZeroDivisionError
      else
        let new_u := ((dot_r + max_abs) * n) / (2 * max_abs) in
        let new_v := ((max_abs - dot_u) * n) / (2 * max_abs) in
        let new_u := if new_u <? 0 then 0
                     else if new_u >=? n then n - 1 else new_u in
        let new_v := if new_v <? 0 then 0
                     else if new_v >=? n then n - 1 else new_v in
        let new_cell := encode_cell new_face new_u new_v n in
        if new_face =? face then Ok (new_cell, direction)
        else
          let transported := neg (bn basis) in
          match _dir_from_vec new_basis transported with
          | Raise e => Raise e
          | Ok new_dir => Ok (new_cell, new_dir)
          end
    end
  end.

Definition step_cell (cell direction n : Z) : result (Z * Z) :=
  match decode_cell cell n with
  | Raise e => Raise e
  | Ok (face, u, v) => step_coords face u v direction n
  end.

End Geometry.

(** A triple [(face, u, v)] that names a cell of the cube of side [n]. *)
Definition valid_coords (face u v n : Z) : Prop :=
  0 <= face <= 5 /\ 0 <= u < n /\ 0 <= v < n.

Local Open Scope Z_scope.
Local Open Scope bool_scope.

(** ** Python containers

    A [dict] keeps its keys in insertion order and the simulation iterates
    over several of them, so a dict is an association list with unique keys:
    assignment to a present key replaces the value in place, assignment to an
    absent key appends. *)

Section Dict.
Context {K V : Type} (eqb : K -> K -> bool).

Fixpoint dict_get (k : K) (d : list (K * V)) : option V :=
    match d with
    | [] => None
    | (k', v) :: d' => if eqb k k' then Some v else dict_get k d'
    end.

Fixpoint dict_set (k : K) (v : V) (d : list (K * V)) : list (K * V) :=
    match d with
    | [] => [(k, v)]
    | (k', v') :: d' =>
        if eqb k k' then (k', v) :: d' else (k', v') :: dict_set k v d'
    end.

Fixpoint dict_remove (k : K) (d : list (K * V)) : list (K * V) :=
    match d with
    | [] => []
    | (k', v') :: d' =>
        if eqb k k' then d' else (k', v') :: dict_remove k d'
    end.

  (** Mutation of the object stored under [k]. *)
Fixpoint dict_update (k : K) (f : V -> V) (d : list (K * V)) : list (K * V) :=
    match d with
    | [] => []
    | (k', v') :: d' =>
        if eqb k k' then (k', f v') :: d' else (k', v') :: dict_update k f d'
    end.

  (** [d.get(k, default)] *)
Definition get_or (k : K) (d : list (K * V)) (default : V) : V :=
    match dict_get k d with
    | Some v => v
    | None => default
    end.

Definition keys (d : list (K * V)) : list K := map fst d.
Definition values (d : list (K * V)) : list V := map snd d.

  (** Membership in a set or a list. *)
Definition mem (k : K) (l : list K) : bool := existsb (eqb k) l.

  (** [set.add]; the order of a list that stands for a set is the order of
      insertion. *)
Definition set_add (k : K) (l : list K) : list K :=
    if mem k l then l else l ++ [k].
End Dict.

(** [d[k].append(x)] on a [defaultdict(list)]. *)
Definition dd_append {K X : Type} (eqb : K -> K -> bool) (k : K) (x : X)
    (d : list (K * list X)) : list (K * list X) :=
  dict_set eqb k (get_or eqb k d [] ++ [x]) d.

(** [enumerate(l)], counting from [i]. *)
Fixpoint enumerate_from {A : Type} (i : Z) (l : list A) : list (Z * A) :=
  match l with
  | [] => []
  | a :: l' => (i, a) :: enumerate_from (i + 1) l'
  end.
Definition enumerate {A : Type} (l : list A) : list (Z * A) := enumerate_from 0 l.

(** [sorted(l)]: a stable insertion sort. *)
Section Sorted.
Context {A : Type} (leb : A -> A -> bool).

Fixpoint insert_sorted (x : A) (l : list A) : list A :=
    match l with
    | [] => [x]
    | y :: l' => if leb x y then x :: y :: l' else y :: insert_sorted x l'
    end.

Definition sorted (l : list A) : list A := fold_right insert_sorted [] l.
End Sorted.

Definition len {A : Type} (l : list A) : Z := Z.of_nat (List.length l).

(** ** State and exceptions

    The simulation mutates its [GameState] in place and can raise in the
    middle, so a computation takes the state and returns the state it leaves
    behind together with its value or the exception. *)

Definition M (St A : Type) : Type := St -> St * result A.

Definition ret {St A : Type} (a : A) : M St A := fun s => (s, Ok a).
Definition raise {St A : Type} (e : exn) : M St A := fun s => (s, Raise e).
Definition bind {St A B : Type} (m : M St A) (f : A -> M St B) : M St B :=
  fun s => match m s with
           | (s', Ok a) => f a s'
           | (s', Raise e) => (s', Raise e)
           end.
Definition get {St : Type} : M St St := fun s => (s, Ok s).
Definition modify {St : Type} (f : St -> St) : M St unit := fun s => (f s, Ok tt).
Definition lift {St A : Type} (r : result A) : M St A := fun s => (s, r).

Notation "x <- m ;; k" := (bind m (fun x => k))
  (at level 61, m at next level, right associativity).
Notation "' pat <- m ;; k" := (bind m (fun x => match x with pat => k end))
  (at level 61, pat pattern, m at next level, right associativity).
Notation "m ;;; k" := (bind m (fun _ => k))
  (at level 61, right associativity).

(** [for x in xs: body], threading an accumulator of local variables. *)
Fixpoint for_each {St A B : Type} (xs : list A) (body : A -> B -> M St B)
    (acc : B) : M St B :=
  match xs with
  | [] => ret acc
  | x :: xs' => acc' <- body x acc ;; for_each xs' body acc'
  end.

(** [for _ in range(attempts)] around a body that either returns from the
    function ([Some]) or continues ([None]). *)
Fixpoint attempt {St A : Type} (attempts : nat) (body : M St (option A))
    : M St (option A) :=
  match attempts with
  | O => ret None
  | S k =>
      r <- body ;;
      match r with
      | Some a => ret (Some a)
      | None => attempt k body
      end
  end.

(** A fold whose body can raise: the loops that only read the state. *)
Fixpoint fold_res {A B : Type} (f : B -> A -> result B) (xs : list A) (acc : B)
    : result B :=
  match xs with
  | [] => Ok acc
  | x :: xs' =>
      match f acc x with
      | Ok acc' => fold_res f xs' acc'
      | Raise e => Raise e
      end
  end.

(** ** sim.py *)

Module Sim.
Import Geometry.

Inductive FruitKind : Type := berry | apple | banana | watermelon.

Definition FruitKind_eqb (a b : FruitKind) : bool :=
  match a, b with
  | berry, berry | apple, apple | banana, banana | watermelon, watermelon => true
  | _, _ => false
  end.

(** [Fruit.id] and [Fruit.cell] are [fruit_id] and [fruit_cell] here. *)
Record Fruit : Type := mkFruit {
  fruit_id : string;
  fruit_cell : Z;
  kind : FruitKind;
  value : Z
}.

Record Snake : Type := mkSnake {
  player_id : string;
  alive : bool;
  dir : Z;
  cells : list Z;
  pending_growth : Z;
  score : Z;
  respawn_at_ms : option Z
}.

Definition set_alive (b : bool) (s : Snake) : Snake :=
  mkSnake (player_id s) b (dir s) (cells s) (pending_growth s) (score s)
          (respawn_at_ms s).
Definition set_dir (d : Z) (s : Snake) : Snake :=
  mkSnake (player_id s) (alive s) d (cells s) (pending_growth s) (score s)
          (respawn_at_ms s).
Definition set_cells (c : list Z) (s : Snake) : Snake :=
  mkSnake (player_id s) (alive s) (dir s) c (pending_growth s) (score s)
          (respawn_at_ms s).
Definition set_pending_growth (g : Z) (s : Snake) : Snake :=
  mkSnake (player_id s) (alive s) (dir s) (cells s) g (score s)
          (respawn_at_ms s).
Definition set_score (x : Z) (s : Snake) : Snake :=
  mkSnake (player_id s) (alive s) (dir s) (cells s) (pending_growth s) x
          (respawn_at_ms s).
Definition set_respawn_at_ms (t : option Z) (s : Snake) : Snake :=
  mkSnake (player_id s) (alive s) (dir s) (cells s) (pending_growth s)
          (score s) t.

Record GameSettings : Type := mkSettings {
  cube_n : Z;
  round_seconds : Z;
  tick_rate : Z;
  fruit_target : Z
}.

(** [random.Random] is not part of the repository.  Its stream is an arbitrary
    infinite sequence of raw draws and a position in it; every sequence of
    results that the library can produce is the image of some stream. *)
Record Rng : Type := mkRng { draws : nat -> Z; pos : nat }.

(** [GameState.tick] is [tick_no] here, [tick] being the function. *)
Record GameState : Type := mkState {
  seed : Z;
  rng : Rng;
  settings : GameSettings;
  tick_no : Z;
  start_server_time_ms : Z;
  ends_at_ms : Z;
  snakes : list (string * Snake);
  fruits : list (string * Fruit)
}.

Definition set_rng (r : Rng) (g : GameState) : GameState :=
  mkState (seed g) r (settings g) (tick_no g) (start_server_time_ms g)
          (ends_at_ms g) (snakes g) (fruits g).
Definition set_tick_no (t : Z) (g : GameState) : GameState :=
  mkState (seed g) (rng g) (settings g) t (start_server_time_ms g)
          (ends_at_ms g) (snakes g) (fruits g).
Definition set_snakes (sn : list (string * Snake)) (g : GameState) : GameState :=
  mkState (seed g) (rng g) (settings g) (tick_no g) (start_server_time_ms g)
          (ends_at_ms g) sn (fruits g).
Definition set_fruits (fr : list (string * Fruit)) (g : GameState) : GameState :=
  mkState (seed g) (rng g) (settings g) (tick_no g) (start_server_time_ms g)
          (ends_at_ms g) (snakes g) fr.

(** What a call of [tick] can touch: the game state and the operating
    system's entropy behind [secrets.token_hex], given as the sequence of
    tokens it will hand out. *)
Record World : Type := mkWorld {
  game : GameState;
  token_hex : nat -> string;
  tokens_drawn : nat
}.

Definition set_game (g : GameState) (w : World) : World :=
  mkWorld g (token_hex w) (tokens_drawn w).

Definition FRUITS : list (FruitKind * Z * Z) :=
  [(berry, 2, 5); (apple, 3, 4); (banana, 5, 2); (watermelon, 10, 1)].

(** *** The random source *)

Definition next_draw : M Rng Z :=
  fun r => (mkRng (draws r) (S (pos r)), Ok (draws r (pos r))).

(** [rng.randrange(k)] raises [ValueError] on an empty range. *)
Definition randrange (k : Z) : M Rng Z :=
  if k <=? 0 then raise ValueError
  else x <- next_draw ;; ret (x mod k).

Fixpoint accumulate_from (acc : Z) (l : list Z) : list Z :=
  match l with
  | [] => []
  | x :: l' => (acc + x) :: accumulate_from (acc + x) l'
  end.

(** [rng.choices(items, weights=weights, k=1)[0]] as an index into [items]:
    the library bisects the cumulative weights at [random() * total].  The
    weights are the exact fractions [(numerator, denominator)] where the
    source has floats, and [random()] is [x / 2^53] for the next draw [x]. *)
Definition choices_index (weights : list (Z * Z)) : M Rng nat :=
  let common := fold_right Z.mul 1 (map snd weights) in
  let scaled := map (fun w => fst w * (common / snd w)) weights in
  let cum_weights := accumulate_from 0 scaled in
  let total := last cum_weights 0 in
  if total <=? 0 then raise ValueError
  else
    x <- next_draw ;;
    let below := filter (fun c => c * 2 ^ 53 <=? (x mod 2 ^ 53) * total)
                        (removelast cum_weights) in
    ret (List.length below).

Definition with_rng {A : Type} (m : M Rng A) : M World A :=
  fun w => let (r, a) := m (rng (game w)) in (set_game (set_rng r (game w)) w, a).

(** [new_fruit_id()] of util/ids.py: [secrets.token_hex(8)]. *)
Definition new_fruit_id : M World string :=
  fun w => (mkWorld (game w) (token_hex w) (S (tokens_drawn w)),
            Ok (token_hex w (tokens_drawn w))).

(** *** Occupancy and placement *)

Definition _occupied_cells (snakes : list (string * Snake))
    : list (Z * list (string * Z)) :=
  fold_left
    (fun occ ps =>
       let '(pid, s) := ps in
       if negb (alive s) then occ
       else fold_left (fun occ ic => dd_append Z.eqb (snd ic) (pid, fst ic) occ)
                      (enumerate (cells s)) occ)
    snakes [].

Fixpoint _is_forward_clear (head direction n : Z) (steps : nat)
    (occupied : list Z) : result bool :=
  match steps with
  | O => Ok true
  | S k =>
      match step_cell head direction n with
      | Raise e => Raise e
      | Ok (cell, dir_now) =>
          if mem Z.eqb cell occupied then Ok false
          else _is_forward_clear cell dir_now n k occupied
      end
  end.

(** The three backward steps of [_try_place_snake]; [None] is [ok = False]. *)
Fixpoint walk_back (steps : nat) (cell back_dir n : Z) (occupied : list Z)
    (body : list Z) : result (option (list Z)) :=
  match steps with
  | O => Ok (Some body)
  | S k =>
      match step_cell cell back_dir n with
      | Raise e => Raise e
      | Ok (cell', back_dir') =>
          if mem Z.eqb cell' occupied then Ok None
          else walk_back k cell' back_dir' n occupied (body ++ [cell'])
      end
  end.

(** One round of the placement loop: [None] is [continue]. *)
Definition place_attempt (player_id : string) (n : Z) (occupied : list Z)
    : M Rng (option (Snake * list Z)) :=
  face <- randrange 6 ;;
  u <- randrange n ;;
  v <- randrange n ;;
  direction <- randrange 4 ;;
  let head := encode_cell face u v n in
  if mem Z.eqb head occupied then ret None
  else
    clear <- lift (_is_forward_clear head direction n 3 occupied) ;;
    if negb clear then ret None
    else
      let dir_back := (direction + 2) mod 4 in
      walked <- lift (walk_back 3 head dir_back n occupied [head]) ;;
      match walked with
      | None => ret None
      | Some body =>
          ret (Some (mkSnake player_id true direction body 0 0 None,
                     occupied ++ body))
      end.

(** Returns the snake and the [occupied] set as the call leaves it. *)
Definition _try_place_snake (player_id : string) (n : Z) (occupied : list Z)
    (attempts : nat) : M Rng (option (Snake * list Z)) :=
  attempt attempts (place_attempt player_id n occupied).

Definition count_kind (k : FruitKind) (fruits_on_board : list (string * Fruit)) : Z :=
  len (filter (fun f => FruitKind_eqb (kind f) k) (values fruits_on_board)).

Definition _pick_fruit_kind (fruits_on_board : list (string * Fruit))
    : M Rng (FruitKind * Z) :=
  let weights := map (fun kvw => let '(kind, _, base_w) := kvw in
                                 (base_w, 1 + count_kind kind fruits_on_board))
                     FRUITS in
  let items := map (fun kvw => let '(kind, value, _) := kvw in (kind, value))
                   FRUITS in
  i <- choices_index weights ;;
  ret (nth i items (berry, 2)).

Definition spawn_attempt (n : Z) (occupied : list Z) : M World (option Fruit) :=
  face <- with_rng (randrange 6) ;;
  u <- with_rng (randrange n) ;;
  v <- with_rng (randrange n) ;;
  let cell := encode_cell face u v n in
  if mem Z.eqb cell occupied then ret None
  else
    w <- get ;;
    kv <- with_rng (_pick_fruit_kind (fruits (game w))) ;;
    fid <- new_fruit_id ;;
    let fruit := mkFruit fid cell (fst kv) (snd kv) in
    modify (fun w => set_game (set_fruits (dict_set String.eqb fid fruit
                                                   (fruits (game w))) (game w)) w) ;;;
    ret (Some fruit).

Definition _spawn_fruit (n : Z) (occupied : list Z) (attempts : nat)
    : M World (option Fruit) :=
  attempt attempts (spawn_attempt n occupied).

(** [set(_occupied_cells(snakes).keys())] with every fruit cell added. *)
Definition occupied_now (g : GameState) : list Z :=
  keys (_occupied_cells (snakes g)) ++ map fruit_cell (values (fruits g)).

(** The [while] loop of [ensure_fruit_target].  A fruit id that repeats
    overwrites a fruit without growing the dict, so the loop has no bound of
    its own: [fuel] bounds its rounds and [OutOfFuel] reports the bound. *)
Fixpoint ensure_loop (fuel : nat) (n : Z) (occupied : list Z) : M World unit :=
  w <- get ;;
  if negb (len (fruits (game w)) <? fruit_target (settings (game w))) then ret tt
  else
    match fuel with
    | O => raise OutOfFuel
    | S k =>
        fruit <- _spawn_fruit n occupied 2000 ;;
        match fruit with
        | None => ret tt
        | Some f => ensure_loop k n (occupied ++ [fruit_cell f])
        end
    end.

Definition ensure_fruit_target (fuel : nat) : M World unit :=
  w <- get ;;
  ensure_loop fuel (cube_n (settings (game w))) (occupied_now (game w)).

(** *** tick *)

(** A command as the tick driver hands it over: the annotation of [inputs] is
    [dict[str, dict[str, int]]], and the driver also passes plain integers. *)
Inductive PyVal : Type :=
| PyInt (z : Z)
| PyDict (items : list (string * Z)).

Definition truthy (v : PyVal) : bool :=
  match v with
  | PyInt z => negb (z =? 0)
  | PyDict [] => false
  | PyDict _ => true
  end.

(** [inputs.get(pid) or {}] *)
Definition command_of (inputs : list (string * PyVal)) (pid : string) : PyVal :=
  match dict_get String.eqb pid inputs with
  | Some v => if truthy v then v else PyDict []
  | None => PyDict []
  end.

(** Lines 216-226: the direction after the command is applied.  ["dir" in cmd]
    raises [TypeError] when [cmd] is an integer. *)
Definition apply_command (cmd : PyVal) (s_dir : Z) : result Z :=
  match cmd with
  | PyInt _ => Raise TypeError
  | PyDict c =>
      match dict_get String.eqb "dir"%string c with
      | Some d =>
          if mem Z.eqb d [0; 1; 2; 3]
          then if negb ((d + 2) mod 4 =? s_dir) then Ok d else Ok s_dir
          else Ok s_dir
      | None =>
          match dict_get String.eqb "turn"%string c with
          | Some t =>
              if mem Z.eqb t [-1; 0; 1] then turn s_dir t else Ok s_dir
          | None => Ok s_dir
          end
      end
  end.

Definition snake_of (pid : string) (w : World) : option Snake :=
  dict_get String.eqb pid (snakes (game w)).

(** An attribute assignment on the snake object stored under [pid]. *)
Definition update_snake (pid : string) (f : Snake -> Snake) : M World unit :=
  modify (fun w => set_game (set_snakes (dict_update String.eqb pid f
                                           (snakes (game w))) (game w)) w).

(** [state.snakes[pid] = s] *)
Definition assign_snake (pid : string) (s : Snake) : M World unit :=
  modify (fun w => set_game (set_snakes (dict_set String.eqb pid s
                                           (snakes (game w))) (game w)) w).

(** [for pid, s in state.snakes.items()]: the keys do not change during any
    of the loops, and [s] is the object stored under [pid] when the iteration
    reaches it. *)
Definition for_snakes {B : Type} (body : string -> Snake -> B -> M World B)
    (acc : B) : M World B :=
  w <- get ;;
  for_each (keys (snakes (game w)))
    (fun pid acc =>
       w <- get ;;
       match snake_of pid w with
       | Some s => body pid s acc
       | None => ret acc
       end)
    acc.

(** Lines 192-207: the respawn pass. *)
Definition respawn_pass (n now_ms : Z) : M World unit :=
  for_snakes
    (fun pid s _ =>
       if alive s then ret tt
       else
         match respawn_at_ms s with
         | None => ret tt
         | Some t =>
             if now_ms <? t then ret tt
             else
               w <- get ;;
               let occupied := occupied_now (game w) in
               placed <- with_rng (_try_place_snake pid n occupied 4000) ;;
               match placed with
               | Some (p, _) => assign_snake pid (set_score (score s) p)
               | None => update_snake pid (set_respawn_at_ms (Some (now_ms + 250)))
               end
         end)
    tt.

(** Line 209: [{f.cell: f for f in state.fruits.values()}] *)
Definition fruit_by_cell_of (fruits : list (string * Fruit)) : list (Z * Fruit) :=
  fold_left (fun d f => dict_set Z.eqb (fruit_cell f) f d) (values fruits) [].

(** Lines 211-236: input application and head projection. *)
Definition plan_moves (n : Z) (inputs : list (string * PyVal))
    (fruit_by_cell : list (Z * Fruit)) : M World (list (string * (Z * Z * Z))) :=
  for_snakes
    (fun pid s planned =>
       if negb (alive s) then ret planned
       else
         let cmd := command_of inputs pid in
         d <- lift (apply_command cmd (dir s)) ;;
         update_snake pid (set_dir d) ;;;
         match cells s with
         | [] => raise IndexError
         | head :: _ =>
             step <- lift (step_cell head d n) ;;
             let '(next_head, new_dir) := step in
             update_snake pid (set_dir new_dir) ;;;
             let eat_value :=
               match dict_get Z.eqb next_head fruit_by_cell with
               | Some fruit => value fruit
               | None => 0
               end in
             ret (dict_set String.eqb pid (next_head, new_dir, eat_value) planned)
         end)
    [].

(** [state.fruits.pop(fid, None)] *)
Definition pop_fruit (fid : string) : M World (option Fruit) :=
  w <- get ;;
  match dict_get String.eqb fid (fruits (game w)) with
  | None => ret None
  | Some f =>
      modify (fun w => set_game (set_fruits (dict_remove String.eqb fid
                                               (fruits (game w))) (game w)) w) ;;;
      ret (Some f)
  end.

(** Lines 238-261: move and eat. *)
Definition move_and_eat (planned : list (string * (Z * Z * Z)))
    (fruit_by_cell : list (Z * Fruit)) : M World unit :=
  new_cells_by_player <-
    for_snakes
      (fun pid s new_cells_by_player =>
         if negb (alive s) then ret new_cells_by_player
         else
           match dict_get String.eqb pid planned with
           | None => raise KeyError
           | Some (next_head, _dir, eat_value) =>
               let new_body := next_head :: cells s in
               new_body <-
                 (if pending_growth s >? 0
                  then update_snake pid
                         (fun s => set_pending_growth (pending_growth s - 1) s) ;;;
                       ret new_body
                  else ret (removelast new_body)) ;;
               (if eat_value >? 0
                then
                  match dict_get Z.eqb next_head fruit_by_cell with
                  | None => raise KeyError
                  | Some f =>
                      fruit <- pop_fruit (fruit_id f) ;;
                      match fruit with
                      | None => ret tt
                      | Some _ =>
                          update_snake pid
                            (fun s => set_score (score s + eat_value)
                                        (set_pending_growth
                                           (pending_growth s + eat_value) s))
                      end
                  end
                else ret tt) ;;;
               ret (dict_set String.eqb pid new_body new_cells_by_player)
           end)
      [] ;;
  for_each new_cells_by_player
    (fun pb _ => update_snake (fst pb) (set_cells (snd pb))) tt.

(** Lines 264-267: the heads of the alive snakes, by cell. *)
Definition head_cells_of (snakes : list (string * Snake))
    : result (list (Z * list string)) :=
  fold_res
    (fun head_cells ps =>
       let '(pid, s) := ps in
       if alive s
       then match cells s with
            | [] => Raise IndexError
            | head :: _ => Ok (dd_append Z.eqb head pid head_cells)
            end
       else Ok head_cells)
    snakes [].

(** Lines 269-272.  A Python [set] has no order of its own; the list keeps the
    order of insertion, and nothing below depends on it beyond membership and
    the order in which independent snakes are finalized. *)
Definition head_on_dead (head_cells : list (Z * list string)) : list string :=
  fold_left
    (fun dead ch =>
       if len (snd ch) >=? 2
       then fold_left (fun dead h => set_add String.eqb h dead) (snd ch) dead
       else dead)
    head_cells [].

(** [bites_by_victim[victim_id][seg_idx].append(attacker_id)] *)
Definition record_bite (victim_id : string) (seg_idx : Z) (attacker_id : string)
    (bites : list (string * list (Z * list string)))
    : list (string * list (Z * list string)) :=
  let bites_at := get_or String.eqb victim_id bites [] in
  dict_set String.eqb victim_id (dd_append Z.eqb seg_idx attacker_id bites_at) bites.

(** Lines 274-282. *)
Definition bites_by_victim_of (snakes : list (string * Snake))
    (dead : list string) (occ : list (Z * list (string * Z)))
    : result (list (string * list (Z * list string))) :=
  fold_res
    (fun bites ps =>
       let '(attacker_id, s) := ps in
       if negb (alive s) || mem String.eqb attacker_id dead then Ok bites
       else
         match cells s with
         | [] => Raise IndexError
         | head :: _ =>
             Ok (fold_left
                   (fun bites vs =>
                      let '(victim_id, seg_idx) := vs in
                      if seg_idx <=? 0 then bites
                      else record_bite victim_id seg_idx attacker_id bites)
                   (get_or Z.eqb head occ [])
                   bites)
         end)
    snakes [].

(** [l[:k]] *)
Definition slice_to {A : Type} (k : Z) (l : list A) : list A :=
  if k <? 0 then firstn (List.length l - Z.to_nat (- k)) l
  else firstn (Z.to_nat k) l.

(** [state.snakes[a].score += x] *)
Definition add_score (a : string) (x : Z) : M World unit :=
  w <- get ;;
  match snake_of a w with
  | None => raise KeyError
  | Some _ => update_snake a (fun s => set_score (score s + x) s)
  end.

(** Lines 294-306: the award for the portion that starts at bite point [k]. *)
Definition award_portion (bite_points : list Z)
    (bites_at : list (Z * list string)) (old_len : Z) (ik : Z * Z)
    : M World unit :=
  let '(i, k) := ik in
  let next_k := if i + 1 <? len bite_points
                then nth (Z.to_nat (i + 1)) bite_points 0
                else old_len in
  let portion_len := Z.max 0 (next_k - k) in
  let attackers := sorted String.leb (get_or Z.eqb k bites_at []) in
  match attackers with
  | [] => ret tt
  | first :: _ =>
      if portion_len <=? 0 then ret tt
      else
        let share := portion_len / len attackers in
        let rem := portion_len mod len attackers in
        for_each attackers (fun a _ => add_score a share) tt ;;;
        if negb (rem =? 0) then add_score first rem else ret tt
  end.

(** Lines 284-309: one victim of the bite pass; returns the [dead] set. *)
Definition resolve_victim (vb : string * list (Z * list string))
    (dead : list string) : M World (list string) :=
  let '(victim_id, bites_at) := vb in
  w <- get ;;
  match snake_of victim_id w with
  | None => ret dead
  | Some victim =>
      if negb (alive victim) || mem String.eqb victim_id dead then ret dead
      else
        let bite_points := sorted Z.leb (keys bites_at) in
        match bite_points with
        | [] => raise IndexError
        | cut_at :: _ =>
            let old_len := len (cells victim) in
            update_snake victim_id (set_cells (slice_to cut_at (cells victim))) ;;;
            for_each (enumerate bite_points)
              (fun ik _ => award_portion bite_points bites_at old_len ik) tt ;;;
            w' <- get ;;
            match snake_of victim_id w' with
            | None => ret dead
            | Some victim' =>
                if len (cells victim') <? 4
                then ret (set_add String.eqb victim_id dead)
                else ret dead
            end
        end
  end.

(** Lines 263-309: head-on collisions, then bites.  Returns the [dead] set. *)
Definition collide : M World (list string) :=
  w <- get ;;
  let occ := _occupied_cells (snakes (game w)) in
  head_cells <- lift (head_cells_of (snakes (game w))) ;;
  let dead := head_on_dead head_cells in
  bites_by_victim <- lift (bites_by_victim_of (snakes (game w)) dead occ) ;;
  for_each bites_by_victim resolve_victim dead.

Definition kill (now_ms : Z) (s : Snake) : Snake :=
  set_respawn_at_ms (Some (now_ms + 3000))
    (set_pending_growth 0 (set_cells [] (set_alive false s))).

(** Lines 311-318: death finalization. *)
Definition finalize_deaths (now_ms : Z) (dead : list string) : M World unit :=
  for_each dead
    (fun pid _ =>
       w <- get ;;
       match snake_of pid w with
       | None => ret tt
       | Some s => if negb (alive s) then ret tt else update_snake pid (kill now_ms)
       end)
    tt.

(** Lines 190-261: respawn, input application and head projection, move and
    eat. *)
Definition tick_to_move (inputs : list (string * PyVal)) (now_ms : Z)
    : M World unit :=
  w <- get ;;
  let n := cube_n (settings (game w)) in
  respawn_pass n now_ms ;;;
  w <- get ;;
  let fruit_by_cell := fruit_by_cell_of (fruits (game w)) in
  planned <- plan_moves n inputs fruit_by_cell ;;
  move_and_eat planned fruit_by_cell.

(** Lines 190-309: everything of [tick] before death finalization; returns
    the [dead] set. *)
Definition tick_to_collisions (inputs : list (string * PyVal)) (now_ms : Z)
    : M World (list string) :=
  tick_to_move inputs now_ms ;;; collide.

Definition tick (fuel : nat) (inputs : list (string * PyVal)) (now_ms : Z)
    : M World unit :=
  dead <- tick_to_collisions inputs now_ms ;;
  finalize_deaths now_ms dead ;;;
  ensure_fruit_target fuel ;;;
  modify (fun w => set_game (set_tick_no (tick_no (game w) + 1) (game w)) w).

End Sim.

(** ** Concrete worlds used to exercise the theorems *)

Module Demo.
Import Geometry Sim.
Local Open Scope string_scope.

Definition rng0 : Rng := mkRng (fun i => Z.of_nat i * 7 + 3) 0.
Definition tokens (i : nat) : string := String (ascii_of_nat (97 + i)) EmptyString.

(** N = 8, one snake on face 4 heading North, an apple right ahead. *)
Definition snakeA : Snake := mkSnake "A" true 0 [283; 291; 299; 307] 0 0 None.
Definition game0 : GameState :=
  mkState 42 rng0 (mkSettings 8 180 12 1) 0 1000 181000
          [("A", snakeA)] [("f0", mkFruit "f0" 275 apple 3)].
Definition world0 : World := mkWorld game0 tokens 0.

(** Two snakes whose next heads meet on cell 275. *)
Definition snakeB : Snake := mkSnake "B" true 2 [267; 266; 265; 264] 0 0 None.
Definition game_head_on : GameState :=
  mkState 42 rng0 (mkSettings 8 180 12 0) 7 1000 181000
          [("A", snakeA); ("B", snakeB)] [].
Definition world_head_on : World := mkWorld game_head_on tokens 0.

(** After a move: the head of A lies on segment 3 of B, which has 10 cells. *)
Definition biterA : Snake := mkSnake "A" true 0 [259; 267; 275; 283] 0 5 None.
Definition bittenB : Snake :=
  mkSnake "B" true 1 [256; 257; 258; 259; 260; 261; 262; 263; 271; 279] 0 2 None.
Definition game_bite : GameState :=
  mkState 42 rng0 (mkSettings 8 180 12 0) 7 1000 181000
          [("A", biterA); ("B", bittenB)] [].
Definition world_bite : World := mkWorld game_bite tokens 0.

End Demo.

Local Open Scope Z_scope.
Local Open Scope bool_scope.

(** ** JSON values

    What [ws.receive_json] delivers and [ws.send_json] takes.  Numbers with
    a fraction are left out: no message of the protocol carries one. *)

Inductive Json : Type :=
| JNull
| JBool (b : bool)
| JInt (z : Z)
| JStr (s : string)
| JList (items : list Json)
| JObj (fields : list (string * Json)).

(** Python's truth value of a decoded JSON value. *)
Definition json_truthy (v : Json) : bool :=
  match v with
  | JNull => false
  | JBool b => b
  | JInt z => negb (z =? 0)
  | JStr EmptyString => false
  | JStr _ => true
  | JList [] => false
  | JList _ => true
  | JObj [] => false
  | JObj _ => true
  end.





(** ** protocol.py *)

Module Protocol.



End Protocol.

(** ** rooms.py *)

Module Rooms.
Import Sim.
Local Open Scope string_scope.

(** [ws] names the connection.  [input_by_tick] holds what [ws_endpoint]
    stores in it: the integer turn value. *)
Record PlayerConn : Type := mkPlayerConn {
  player_id : string;
  name : string;
  ws : nat;
  ready : bool;
  color : Z;
  input_by_tick : list (Z * Z);
  last_ack_tick : Z
}.

Definition set_ready (b : bool) (p : PlayerConn) : PlayerConn :=
  mkPlayerConn (player_id p) (name p) (ws p) b (color p)
               (input_by_tick p) (last_ack_tick p).
Definition set_input_by_tick (i : list (Z * Z)) (p : PlayerConn) : PlayerConn :=
  mkPlayerConn (player_id p) (name p) (ws p) (ready p) (color p)
               i (last_ack_tick p).
Definition set_last_ack_tick (t : Z) (p : PlayerConn) : PlayerConn :=
  mkPlayerConn (player_id p) (name p) (ws p) (ready p) (color p)
               (input_by_tick p) t.

Record RoomSettings : Type := mkRoomSettings {
  cube_n : Z;
  round_seconds : Z;
  tick_rate : Z
}.

(** [Room.task] is kept as whether a task is set. *)
Record Room : Type := mkRoom {
  room_id : string;
  host_id : option string;
  settings : RoomSettings;
  players : list (string * PlayerConn);
  phase : string;
  game : option GameState;
  task : bool
}.

Definition set_host_id (h : option string) (r : Room) : Room :=
  mkRoom (room_id r) h (settings r) (players r) (phase r) (game r) (task r).
Definition set_settings (s : RoomSettings) (r : Room) : Room :=
  mkRoom (room_id r) (host_id r) s (players r) (phase r) (game r) (task r).
Definition set_players (p : list (string * PlayerConn)) (r : Room) : Room :=
  mkRoom (room_id r) (host_id r) (settings r) p (phase r) (game r) (task r).
Definition set_phase (ph : string) (r : Room) : Room :=
  mkRoom (room_id r) (host_id r) (settings r) (players r) ph (game r) (task r).
Definition set_game (g : option GameState) (r : Room) : Room :=
  mkRoom (room_id r) (host_id r) (settings r) (players r) (phase r) g (task r).
Definition set_task (t : bool) (r : Room) : Room :=
  mkRoom (room_id r) (host_id r) (settings r) (players r) (phase r) (game r) t.

(** [Room.__init__] *)
Definition new_room (rid : string) : Room :=
  mkRoom rid None (mkRoomSettings 24 180 12) [] "lobby" None false.




(** [next(iter(room.players.keys()), None)] *)
Definition first_key (ps : list (string * PlayerConn)) : option string :=
  match ps with
  | [] => None
  | (pid, _) :: _ => Some pid
  end.

Definition opt_eqb (o : option string) (s : string) : bool :=
  match o with
  | Some t => String.eqb t s
  | None => false
  end.

(** [room.players.pop(pid, None)] followed by the hand-over of the host. *)
Definition drop_player (pid : string) (r : Room) : Room :=
  let r1 := set_players (dict_remove String.eqb pid (players r)) r in
  if opt_eqb (host_id r1) pid then set_host_id (first_key (players r1)) r1
  else r1.

(** [Room.broadcast], lines 60-77: [send_ok] tells for a connection whether
    [send_json] returns; the players whose send raised are dropped.  Returns
    the connections that received the message. *)
Definition broadcast (send_ok : nat -> bool) (r : Room) : Room * list nat :=
  let conns := map (fun pp => (fst pp, ws (snd pp))) (players r) in
  let stale := map fst (filter (fun c => negb (send_ok (snd c))) conns) in
  let reached := map snd (filter (fun c => send_ok (snd c)) conns) in
  (fold_left (fun r pid => drop_player pid r) stale r, reached).

(** [RoomManager._palette] *)
Definition _palette : list Z :=
  [0xDB2777; 0xEF4444; 0xF97316; 0xFACC15; 0x22C55E; 0x06B6D4; 0x3B82F6; 0x8B5CF6].

Fixpoint first_not_in (taken : list Z) (cs : list Z) : option Z :=
  match cs with
  | [] => None
  | c :: rest => if mem Z.eqb c taken then first_not_in taken rest else Some c
  end.

(** [RoomManager._first_free_color] *)
Definition _first_free_color (r : Room) : Z :=
  let taken := map (fun pp => color (snd pp)) (players r) in
  match first_not_in taken _palette with
  | Some c => c
  | None => hd 0 _palette
  end.

(** The manager and the two sources of fresh ids ([new_room_id] draws from
    [secrets], [new_player_id] from [uuid4]): arbitrary streams and the
    positions in them. *)
Record Manager : Type := mkManager {
  rooms : list (string * Room);
  room_ids : nat -> string;
  room_ids_drawn : nat;
  player_ids : nat -> string;
  player_ids_drawn : nat
}.

Definition set_rooms (rs : list (string * Room)) (m : Manager) : Manager :=
  mkManager rs (room_ids m) (room_ids_drawn m) (player_ids m) (player_ids_drawn m).

Definition new_room_id : M Manager string :=
  fun m => (mkManager (rooms m) (room_ids m) (S (room_ids_drawn m))
                      (player_ids m) (player_ids_drawn m),
            Ok (room_ids m (room_ids_drawn m))).

Definition new_player_id : M Manager string :=
  fun m => (mkManager (rooms m) (room_ids m) (room_ids_drawn m)
                      (player_ids m) (S (player_ids_drawn m)),
            Ok (player_ids m (player_ids_drawn m))).

Definition str_truthy (s : string) : bool :=
  match s with
  | EmptyString => false
  | _ => true
  end.

(** [RoomManager.join], lines 288-308.  Returns the room as it is after the
    join, the new player and whether it is the host. *)
Definition join (room_id : option string) (name : string) (ws : nat)
    : M Manager (Room * PlayerConn * bool) :=
  rid <- match room_id with
         | Some r => if str_truthy r then ret r else new_room_id
         | None => new_room_id
         end ;;
  m <- get ;;
  room <- match dict_get String.eqb rid (rooms m) with
          | Some room => ret room
          | None =>
              modify (set_rooms (dict_set String.eqb rid (new_room rid) (rooms m))) ;;;
              ret (new_room rid)
          end ;;
  if negb (String.eqb (phase room) "lobby") then raise (RuntimeError "room_in_progress")
  else if (len (players room) >=? 8)%Z then raise (RuntimeError "room_full")
  else
    pid <- new_player_id ;;
    let color := _first_free_color room in
    let player := mkPlayerConn pid name ws false color [] (-1) in
    let room1 := set_players (dict_set String.eqb pid player (players room)) room in
    let room2 := match host_id room1 with
                 | None => set_host_id (Some pid) room1
                 | Some _ => room1
                 end in
    modify (fun m => set_rooms (dict_set String.eqb rid room2 (rooms m)) m) ;;;
    ret (room2, player, opt_eqb (host_id room2) pid).

(** [RoomManager.leave], lines 310-319, for the room registered as [rid]. *)
Definition leave (rid : string) (pid : string) (m : Manager) : Manager :=
  match dict_get String.eqb rid (rooms m) with
  | None => m
  | Some room =>
      let room1 := drop_player pid room in
      match players room1 with
      | [] => set_rooms (dict_remove String.eqb (room_id room1) (rooms m)) m
      | _ => set_rooms (dict_set String.eqb rid room1 (rooms m)) m
      end
  end.

(** [p.input_by_tick.pop(g.tick, {})] *)
Definition pop_input (t : Z) (p : PlayerConn) : PyVal * PlayerConn :=
  match dict_get Z.eqb t (input_by_tick p) with
  | Some turn_value =>
      (PyInt turn_value,
       set_input_by_tick (dict_remove Z.eqb t (input_by_tick p)) p)
  | None => (PyDict [], p)
  end.

(** Lines 191-195: the inputs of the tick, and the players after the pop. *)
Definition take_inputs (t : Z) (ps : list (string * PlayerConn))
    : list (string * PyVal) * list (string * PlayerConn) :=
  (map (fun pp => (fst pp, fst (pop_input t (snd pp)))) ps,
   map (fun pp => (fst pp, set_last_ack_tick t (snd (pop_input t (snd pp))))) ps).

Definition kind_name (k : FruitKind) : string :=
  match k with
  | berry => "berry"
  | apple => "apple"
  | banana => "banana"
  | watermelon => "watermelon"
  end.

(** Lines 199-217 *)
Definition snake_payload (now : Z) (ps : string * Snake) : Json :=
  let (pid, s) := ps in
  if alive s
  then JObj [("playerId", JStr pid); ("alive", JBool true);
             ("dir", JInt (dir s)); ("cells", JList (map JInt (cells s)))]
  else JObj [("playerId", JStr pid); ("alive", JBool false);
             ("dir", JInt (dir s)); ("cells", JList []);
             ("respawnInMs",
              match respawn_at_ms s with
              | Some t => JInt (Z.max 0 (t - now))
              | None => JNull
              end)].

Definition by_fruit_id (f g : Fruit) : bool := String.leb (fruit_id f) (fruit_id g).

Definition scores_of (g : GameState) : Json :=
  JObj (map (fun ps => (fst ps, JInt (score (snd ps)))) (snakes g)).

(** Lines 219-239: the [state] message. *)
Definition state_msg (now timer_left : Z) (g : GameState)
    (ps : list (string * PlayerConn)) : Json :=
  JObj [("v", JInt 1); ("type", JStr "state");
        ("payload",
         JObj [("tick", JInt (tick_no g));
               ("serverTimeMs", JInt now);
               ("timerMsLeft", JInt timer_left);
               ("snakes", JList (map (snake_payload now) (snakes g)));
               ("fruits",
                JList (map (fun f => JObj [("id", JStr (fruit_id f));
                                           ("cell", JInt (fruit_cell f));
                                           ("kind", JStr (kind_name (kind f)));
                                           ("value", JInt (value f))])
                           (sorted by_fruit_id (values (fruits g)))));
               ("scores", scores_of g);
               ("inputAck",
                JObj (map (fun pp => (fst pp, JInt (last_ack_tick (snd pp)))) ps))])].

Definition end_msg (g : GameState) : Json :=
  JObj [("v", JInt 1); ("type", JStr "end");
        ("payload", JObj [("finalScores", scores_of g)])].

(** The sources of fresh fruit ids travel with the room's driver. *)
Record Driver : Type := mkDriver {
  room : Room;
  token_hex : nat -> string;
  tokens_drawn : nat
}.

(** Lines 179-239 of [Room._run_loop]: what one pass does under the lock.
    [Ok None] is the [return] that ends the loop; [Ok (Some m)] is the
    message to broadcast; an exception of [tick] leaves the loop with the
    players and the game as they are at that point. *)
Definition locked_step (fuel : nat) (now : Z) (d : Driver) : Driver * result (option Json) :=
  let r := room d in
  match game r with
  | None => (d, Ok None)
  | Some g =>
      if negb (String.eqb (phase r) "running") then (d, Ok None)
      else
        let timer_left := ends_at_ms g - now in
        if (timer_left <=? 0)%Z
        then (mkDriver (set_phase "ended" r) (token_hex d) (tokens_drawn d),
              Ok (Some (end_msg g)))
        else
          let (inputs_for_tick, ps) := take_inputs (tick_no g) (players r) in
          let (w, res) := tick fuel inputs_for_tick now
                            (mkWorld g (token_hex d) (tokens_drawn d)) in
          let r' := set_game (Some (Sim.game w)) (set_players ps r) in
          let d' := mkDriver r' (token_hex d) (Sim.tokens_drawn w) in
          match res with
          | Raise e => (d', Raise e)
          | Ok _ => (d', Ok (Some (state_msg now timer_left (Sim.game w) ps)))
          end
  end.

(** Lines 245-252: back to the lobby after the [end] message. *)
Definition back_to_lobby (r : Room) : Room :=
  set_players
    (map (fun pp => (fst pp,
                     set_last_ack_tick (-1)
                       (set_input_by_tick [] (set_ready false (snd pp)))))
         (players r))
    (set_task false (set_game None (set_phase "lobby" r))).

End Rooms.

(** ** main.py *)

Module Net.
Import Rooms Protocol.
Local Open Scope string_scope.

Section Conversions.

(** [int(s)] and [str(v)] for values that are not integers or strings are
    Python's own; the handlers are modelled for any behaviour of them. *)
Variable int_of_str : string -> option Z.
Variable repr : Json -> string.

(** [_as_int] *)
Definition _as_int (v : Json) : option Z :=
  match v with
  | JInt z => Some z
  | JBool b => Some (if b then 1 else 0)
  | JStr s => int_of_str s
  | JNull | JList _ | JObj _ => None
  end.


Definition clamp (lo hi x : Z) : Z := Z.max lo (Z.min hi x).

Definition field (key : string) (payload : list (string * Json)) : Json :=
  match dict_get String.eqb key payload with
  | Some x => x
  | None => JNull
  end.

(** The [set_settings] branch, lines 162-176, on the room under its lock. *)
Definition on_set_settings (payload : list (string * Json)) (pid : string)
    (r : Room) : Room :=
  if negb (String.eqb (phase r) "lobby") then r
  else if negb (opt_eqb (host_id r) pid) then r
  else
    let s0 := settings r in
    let s1 := match _as_int (field "cubeN" payload) with
              | Some n => mkRoomSettings (clamp 8 80 n) (round_seconds s0) (tick_rate s0)
              | None => s0
              end in
    let s2 := match _as_int (field "roundSeconds" payload) with
              | Some n => mkRoomSettings (Rooms.cube_n s1) (clamp 30 (60 * 30) n) (tick_rate s1)
              | None => s1
              end in
    let s3 := match _as_int (field "tickRate" payload) with
              | Some n => mkRoomSettings (Rooms.cube_n s2) (round_seconds s2) (clamp 5 30 n)
              | None => s2
              end in
    Rooms.set_settings s3 r.

(** The [ready] branch, lines 180-185, on the room under its lock. *)
Definition on_ready (payload : list (string * Json)) (pid : string) (r : Room)
    : result Room :=
  let ready := json_truthy (field "ready" payload) in
  if negb (String.eqb (phase r) "lobby") then Ok r
  else match dict_get String.eqb pid (players r) with
       | None => Raise KeyError
       | Some _ =>
           Ok (set_players (dict_update String.eqb pid (set_ready ready) (players r)) r)
       end.

(** One item of an [input] message, lines 196-202. *)
Definition store_input (pid : string) (r : Room) (item : Json) : result Room :=
  match item with
  | JObj fields =>
      match _as_int (field "tick" fields), _as_int (field "turn" fields) with
      | Some tick, Some turn_value =>
          if negb (mem Z.eqb turn_value [-1; 0; 1]) then Ok r
          else match dict_get String.eqb pid (players r) with
               | None => Raise KeyError
               | Some p =>
                   Ok (set_players
                         (dict_update String.eqb pid
                            (fun p => set_input_by_tick
                                        (dict_set Z.eqb tick turn_value (input_by_tick p)) p)
                            (players r)) r)
               end
      | _, _ => Ok r
      end
  | _ => Ok r
  end.

(** The [input] branch, lines 190-203. *)
Definition on_input (payload : list (string * Json)) (pid : string) (r : Room)
    : Room * result unit :=
  match field "inputs" payload with
  | JList items =>
      for_each items
        (fun item _ => r <- get ;; r' <- lift (store_input pid r item) ;;
                       modify (fun _ => r'))
        tt r
  | _ => (r, Ok tt)
  end.




End Conversions.

End Net.

Local Open Scope Z_scope.
Local Open Scope bool_scope.
Import Geometry Sim.

(** * Vocabulary of the specification *)

Definition preserves {St A : Type} (R : St -> St -> Prop) (m : M St A) : Prop :=
  forall s, R s (fst (m s)).

Definition admits_update (ok : (Snake -> Snake) -> Prop) : Prop :=
  (forall d, ok (set_dir d))
  /\ (forall c, ok (set_cells c))
  /\ (forall t, ok (set_respawn_at_ms t))
  /\ ok (fun s => set_pending_growth (pending_growth s - 1) s)
  /\ (forall v, 0 < v ->
        ok (fun s => set_score (score s + v)
                       (set_pending_growth (pending_growth s + v) s)))
  /\ (forall x, 0 <= x -> ok (fun s => set_score (score s + x) s))
  /\ (forall now_ms, ok (kill now_ms)).

Definition put_snakes (sn : list (string * Snake)) (w : World) : World :=
  set_game (set_snakes sn (game w)) w.

Definition same_frame (w w' : World) : Prop :=
  seed (game w') = seed (game w)
  /\ settings (game w') = settings (game w)
  /\ start_server_time_ms (game w') = start_server_time_ms (game w)
  /\ ends_at_ms (game w') = ends_at_ms (game w).

Definition score_le (w w' : World) : Prop :=
  forall pid s, snake_of pid w = Some s ->
    exists s', snake_of pid w' = Some s' /\ score s <= score s'.

Definition same_snakes (w w' : World) : Prop :=
  snakes (game w') = snakes (game w).

Definition group_step {K X : Type} (eqb : K -> K -> bool)
    (d : list (K * list X)) (e : K * X) : list (K * list X) :=
  dd_append eqb (fst e) (snd e) d.

Definition picked {K X : Type} (eqb : K -> K -> bool) (k : K)
    (es : list (K * X)) : list X :=
  map snd (filter (fun e => eqb k (fst e)) es).

Definition occ_entries (snakes : list (string * Snake)) : list (Z * (string * Z)) :=
  flat_map
    (fun ps => if negb (alive (snd ps)) then []
               else map (fun ic => (snd ic, (fst ps, fst ic)))
                        (enumerate (cells (snd ps))))
    snakes.

Definition occ_at (snakes : list (string * Snake)) (c : Z) : list (string * Z) :=
  picked Z.eqb c (occ_entries snakes).

Definition bite_step (bites : list (string * list (Z * list string)))
    (e : string * (Z * string)) : list (string * list (Z * list string)) :=
  record_bite (fst e) (fst (snd e)) (snd (snd e)) bites.

(** The bites of one attacker, as [(victim, (segment, attacker))]. *)
Definition attacker_entries (dead : list string) (occ : list (Z * list (string * Z)))
    (ps : string * Snake) : list (string * (Z * string)) :=
  if negb (alive (snd ps)) || mem String.eqb (fst ps) dead then []
  else match cells (snd ps) with
       | [] => []
       | head :: _ =>
           flat_map (fun vs => if snd vs <=? 0 then []
                               else [(fst vs, (snd vs, fst ps))])
                    (get_or Z.eqb head occ [])
       end.

Definition bite_entries (snakes : list (string * Snake)) (dead : list string)
    : list (string * (Z * string)) :=
  flat_map (attacker_entries dead (_occupied_cells snakes)) snakes.

Definition bump (x : Z) (s : Snake) : Snake := set_score (score s + x) s.

(** The scores after the awards [(attacker, amount)] are paid out in order. *)
Definition credit (awards : list (string * Z)) (sn : list (string * Snake))
    : list (string * Snake) :=
  fold_left (fun sn ax => dict_update String.eqb (fst ax) (bump (snd ax)) sn)
            awards sn.

(** What [a] receives from a list of awards. *)
Definition total_for (a : string) (awards : list (string * Z)) : Z :=
  fold_right Z.add 0
    (map snd (filter (fun ax => String.eqb a (fst ax)) awards)).

Definition total (awards : list (string * Z)) : Z :=
  fold_right Z.add 0 (map snd awards).

(** The awards of one portion, in the order the code pays them. *)
Definition portion_entries (attackers : list string) (portion_len : Z)
    : list (string * Z) :=
  match attackers with
  | [] => []
  | first :: _ =>
      if portion_len <=? 0 then []
      else map (fun a => (a, portion_len / len attackers)) attackers
           ++ (if negb (portion_len mod len attackers =? 0)
               then [(first, portion_len mod len attackers)] else [])
  end.

Definition next_point (bite_points : list Z) (old_len i : Z) : Z :=
  if i + 1 <? len bite_points then nth (Z.to_nat (i + 1)) bite_points 0
  else old_len.

Definition portion_of (bite_points : list Z) (bites_at : list (Z * list string))
    (old_len : Z) (ik : Z * Z) : list (string * Z) :=
  portion_entries (sorted String.leb (get_or Z.eqb (snd ik) bites_at []))
                  (Z.max 0 (next_point bite_points old_len (fst ik) - snd ik)).

Definition attackers_known (bites_at : list (Z * list string))
    (sn : list (string * Snake)) : Prop :=
  forall k a, In a (get_or Z.eqb k bites_at []) -> In a (keys sn).

(** The awards for one victim, in the order the code pays them. *)
Definition victim_entries (bites_at : list (Z * list string)) (old_len : Z)
    : list (string * Z) :=
  let bite_points := sorted Z.leb (keys bites_at) in
  flat_map (portion_of bite_points bites_at old_len) (enumerate bite_points).

(** The first cut on a victim: the smallest bite index. *)
Definition cut_of (bites_at : list (Z * list string)) : Z :=
  hd 0 (sorted Z.leb (keys bites_at)).

(** A victim of the bite pass is resolved when it is alive and not in the
    [dead] set. *)
Definition processed (sn : list (string * Snake)) (dead : list string)
    (v : string) : bool :=
  match dict_get String.eqb v sn with
  | Some s => alive s && negb (mem String.eqb v dead)
  | None => false
  end.

Definition victim_awards (sn : list (string * Snake))
    (vb : string * list (Z * list string)) : list (string * Z) :=
  match dict_get String.eqb (fst vb) sn with
  | Some s => victim_entries (snd vb) (len (cells s))
  | None => []
  end.

(** Every award of a bite pass over [bites], in the order it is paid. *)
Definition pass_awards (sn : list (string * Snake)) (dead : list string)
    (bites : list (string * list (Z * list string))) : list (string * Z) :=
  flat_map (fun vb => if processed sn dead (fst vb) then victim_awards sn vb else [])
           bites.

(** The body of [pid] after the bite pass. *)
Definition truncated (sn : list (string * Snake)) (dead : list string)
    (bites : list (string * list (Z * list string))) (pid : string) (s : Snake)
    : Snake :=
  match dict_get String.eqb pid bites with
  | Some b => if processed sn dead pid
              then set_cells (slice_to (cut_of b) (cells s)) s else s
  | None => s
  end.

(** A resolved victim left with fewer than 4 cells. *)
Definition starved (sn : list (string * Snake)) (dead : list string)
    (vb : string * list (Z * list string)) : bool :=
  processed sn dead (fst vb)
  && match dict_get String.eqb (fst vb) sn with
     | Some s => len (slice_to (cut_of (snd vb)) (cells s)) <? 4
     | None => false
     end.

(** The [dead] set after the bite pass. *)
Definition pass_dead (sn : list (string * Snake)) (dead : list string)
    (bites : list (string * list (Z * list string))) (acc : list string)
    : list string :=
  fold_left (fun d vb => if starved sn dead vb then set_add String.eqb (fst vb) d else d)
            bites acc.

(** The bite awards as the specification words them: the sorted cuts
    [k_0 < k_1 < ...] split the removed part of the victim into the segments
    [[k_i, k_{i+1})], the last one ending at the original length. *)
Fixpoint spec_segments (cuts : list Z) (old_len : Z) : list (Z * Z) :=
  match cuts with
  | [] => []
  | k :: rest => (k, hd old_len rest) :: spec_segments rest old_len
  end.



(** Bite indices as the recording of bites produces them. *)
Definition bites_in_body (bites_at : list (Z * list string)) (old_len : Z) : Prop :=
  forall k, In k (keys bites_at) ->
    0 < k < old_len /\ get_or Z.eqb k bites_at [] <> [].


(** After the move phase every alive snake has a head. *)
Definition heads_present (w : World) : Prop :=
  forall pid s, snake_of pid w = Some s -> alive s = true -> cells s <> [].


(** [a] bites [v] at segment [k]: both are alive, [a] is not in the [dead]
    set, and the head of [a] lies on cell [k >= 1] of the body of [v]. *)
Definition bites_segment (w : World) (dead : list string) (a v : string) (k : Z)
    : Prop :=
  exists sa sv h rest,
    snake_of a w = Some sa /\ alive sa = true /\ ~ In a dead
    /\ cells sa = h :: rest
    /\ snake_of v w = Some sv /\ alive sv = true
    /\ 1 <= k /\ nth_error (cells sv) (Z.to_nat k) = Some h.

(** The body of a snake after it moves onto [next_head]. *)
Definition moved_body (next_head : Z) (s : Snake) : list Z :=
  if pending_growth s >? 0 then next_head :: cells s
  else removelast (next_head :: cells s).

(** What the move phase does to an alive snake [s]: it stays alive, takes
    the planned step, spends one unit of pending growth if it has any, and
    gains [eaten] (0, or the value of the fruit it ate) in score and in
    pending growth. *)
Definition moved (planned : list (string * (Z * Z * Z))) (pid : string)
    (s s' : Snake) : Prop :=
  alive s' = true
  /\ exists next_head d eat_value eaten,
       dict_get String.eqb pid planned = Some (next_head, d, eat_value)
       /\ cells s' = moved_body next_head s
       /\ (eaten = 0 \/ (eaten = eat_value /\ 0 < eat_value))
       /\ pending_growth s'
          = (if pending_growth s >? 0 then pending_growth s - 1
             else pending_growth s) + eaten
       /\ score s' = score s + eaten.

Local Open Scope Z_scope.
Local Open Scope bool_scope.
Import Geometry Sim.

Definition same_keys (w w' : World) : Prop :=
  keys (snakes (game w')) = keys (snakes (game w)).

(** What the phases of a tick up to the move do to a snake [s] that is alive
    when it moves: it takes one step, spends one unit of pending growth if it
    has any, and gains [eaten >= 0] in score and in pending growth. *)
Definition stepped (s s' : Snake) : Prop :=
  alive s' = true
  /\ cells s <> []
  /\ exists next_head eaten,
       0 <= eaten
       /\ cells s' = moved_body next_head s
       /\ pending_growth s'
          = (if pending_growth s >? 0 then pending_growth s - 1
             else pending_growth s) + eaten
       /\ score s' = score s + eaten.

(** A snake [s] as the respawn pass leaves it: the living are untouched, a
    dead one keeps its score and, if it is placed, starts without pending
    growth. *)
Definition respawned (s s' : Snake) : Prop :=
  score s' = score s
  /\ (alive s = true -> s' = s)
  /\ (alive s = false -> alive s' = true -> pending_growth s' = 0).

(** [pid] is bitten in the tick that starts in [w]: after the move some
    snake's head lies on its body. *)
Definition bitten_in_tick (pid : string) (inputs : list (string * PyVal))
    (now_ms : Z) (w : World) : Prop :=
  exists w3 head_cells a k,
    tick_to_move inputs now_ms w = (w3, Ok tt)
    /\ head_cells_of (snakes (game w3)) = Ok head_cells
    /\ bites_segment w3 (head_on_dead head_cells) a pid k.

(** [pid] eats a fruit of value [k] in the tick that starts in [w]: eating is
    the only way to score before the collisions. *)
Definition eats_in_tick (pid : string) (k : Z) (inputs : list (string * PyVal))
    (now_ms : Z) (w : World) : Prop :=
  0 < k
  /\ exists w3 s s3,
       tick_to_move inputs now_ms w = (w3, Ok tt)
       /\ snake_of pid w = Some s
       /\ snake_of pid w3 = Some s3
       /\ score s3 = score s + k.

(** [n] consecutive ticks, each of which returns, leaves [pid] alive and
    does not bite it. *)
Inductive quiet_ticks (pid : string) : nat -> World -> World -> Prop :=
| quiet_done w : quiet_ticks pid O w w
| quiet_step n fuel inputs now_ms w w1 w2 s1 :
    tick fuel inputs now_ms w = (w1, Ok tt) ->
    ~ bitten_in_tick pid inputs now_ms w ->
    snake_of pid w1 = Some s1 -> alive s1 = true ->
    quiet_ticks pid n w1 w2 ->
    quiet_ticks pid (S n) w w2.

Local Open Scope Z_scope.
Local Open Scope bool_scope.
Import Geometry Sim.

Definition same_tick_no (w w' : World) : Prop :=
  tick_no (game w') = tick_no (game w).

(** What the respawn pass does to a snake [s]: the living and the dead that
    are not due are left as they are; a dead snake that is due is either
    replaced by a placed one that keeps its score, or has its respawn time
    set to [now_ms + 250]. *)
Definition respawn_outcome (now_ms : Z) (s s' : Snake) : Prop :=
  if alive s then s' = s
  else match respawn_at_ms s with
       | None => s' = s
       | Some t =>
           if now_ms <? t then s' = s
           else s' = set_respawn_at_ms (Some (now_ms + 250)) s
                \/ (alive s' = true /\ len (cells s') = 4
                    /\ pending_growth s' = 0 /\ score s' = score s
                    /\ respawn_at_ms s' = None /\ 0 <= dir s' <= 3)
       end.

(** The heads of the alive snakes, as [(cell, pid)]. *)
Definition head_entries (sn : list (string * Snake)) : list (Z * string) :=
  flat_map (fun ps => if alive (snd ps)
                      then match cells (snd ps) with
                           | head :: _ => [(head, fst ps)]
                           | [] => []
                           end
                      else [])
           sn.

(** A dead snake whose respawn time has not come. *)
Definition waiting (now_ms : Z) (s : Snake) : Prop :=
  alive s = false
  /\ match respawn_at_ms s with
     | None => True
     | Some t => now_ms < t
     end.

Local Open Scope Z_scope.
Local Open Scope bool_scope.

(** ** Vocabulary for rooms *)

(** The host is one of the players; a room has no host exactly when it has
    no players. *)
Definition host_ok (r : Rooms.Room) : Prop :=
  match Rooms.host_id r with
  | None => Rooms.players r = []
  | Some h => In h (keys (Rooms.players r))
  end.

Definition colors_of (r : Rooms.Room) : list Z :=
  map (fun pp => Rooms.color (snd pp)) (Rooms.players r).

Definition settings_ok (s : Rooms.RoomSettings) : Prop :=
  8 <= Rooms.cube_n s <= 80
  /\ 30 <= Rooms.round_seconds s <= 1800
  /\ 5 <= Rooms.tick_rate s <= 30.

(** Every stored input is a turn of -1, 0 or 1. *)
Definition turns_ok (r : Rooms.Room) : Prop :=
  forall pid p t v,
    In (pid, p) (Rooms.players r) -> In (t, v) (Rooms.input_by_tick p) ->
    -1 <= v <= 1.

(** A room as [RoomManager] keeps it: the keys of [players] are distinct (it
    is a dict), the host is one of the players, no two players have the same
    colour, and there are at most 8 players. *)
Definition room_ok (r : Rooms.Room) : Prop :=
  NoDup (keys (Rooms.players r))
  /\ host_ok r
  /\ NoDup (colors_of r)
  /\ len (Rooms.players r) <= 8.

(** The rooms of a manager: a dict of well-formed rooms, each under its own
    id. *)
Definition rooms_ok (m : Rooms.Manager) : Prop :=
  NoDup (keys (Rooms.rooms m))
  /\ forall rid r, dict_get String.eqb rid (Rooms.rooms m) = Some r ->
       Rooms.room_id r = rid /\ room_ok r.

(** What the [input] branch may do to a room on behalf of [pid]: it keeps
    the stored turns within -1..1, leaves every other player as it is, and
    changes of [pid] only the stored inputs. *)
Definition input_step (pid : string) (r r' : Rooms.Room) : Prop :=
  (turns_ok r -> turns_ok r')
  /\ keys (Rooms.players r') = keys (Rooms.players r)
  /\ (forall q, q <> pid ->
        dict_get String.eqb q (Rooms.players r')
        = dict_get String.eqb q (Rooms.players r))
  /\ (forall p, dict_get String.eqb pid (Rooms.players r) = Some p ->
        exists i, dict_get String.eqb pid (Rooms.players r')
                  = Some (Rooms.set_input_by_tick i p))
  /\ Rooms.phase r' = Rooms.phase r /\ Rooms.game r' = Rooms.game r
  /\ Rooms.host_id r' = Rooms.host_id r /\ Rooms.settings r' = Rooms.settings r.

Local Open Scope Z_scope.
Local Open Scope bool_scope.
Import Geometry Sim.

(** * Scenarios *)

Module Scenes.
Local Open Scope string_scope.

(** The world after a tick that returns. *)
Definition after (fuel : nat) (inputs : list (string * PyVal)) (now_ms : Z)
    (w : World) : World :=
  fst (tick fuel inputs now_ms w).

(** What a state message shows of a snake: alive, score, length. *)
Definition shown (pid : string) (w : World) : option (bool * Z * Z) :=
  option_map (fun s => (alive s, score s, len (cells s))) (snake_of pid w).

(** [n] ticks without input, 83 ms apart. *)
Fixpoint idle (n : nat) (now_ms : Z) (w : World) : World :=
  match n with
  | O => w
  | S n' => idle n' (now_ms + 83) (after 4 [] now_ms w)
  end.

(** Every one of these [n] ticks returns. *)
Fixpoint runs (n : nat) (now_ms : Z) (w : World) : bool :=
  match n with
  | O => true
  | S n' => match snd (tick 4 [] now_ms w) with
            | Ok _ => runs n' (now_ms + 83) (after 4 [] now_ms w)
            | Raise _ => false
            end
  end.

(** A check that in each of these [n] ticks [pid] is not bitten and ends the
    tick alive: no recorded bite names it as the victim. *)
Fixpoint calm (pid : string) (n : nat) (now_ms : Z) (w : World) : bool :=
  match n with
  | O => true
  | S n' =>
      match tick_to_move [] now_ms w with
      | (w3, Ok _) =>
          match head_cells_of (snakes (game w3)) with
          | Ok head_cells =>
              negb (existsb (fun e => String.eqb pid (fst e))
                      (bite_entries (snakes (game w3)) (head_on_dead head_cells)))
              && match snd (tick 4 [] now_ms w) with
                 | Ok _ =>
                     match snake_of pid (after 4 [] now_ms w) with
                     | Some s => alive s && calm pid n' (now_ms + 83)
                                                 (after 4 [] now_ms w)
                     | None => false
                     end
                 | Raise _ => false
                 end
          | Raise _ => false
          end
      | (_, Raise _) => false
      end
  end.

(** [Demo.snakeA] after the tick in which it eats the apple. *)
Definition fedA : Snake := mkSnake "A" true 0 [275; 283; 291; 299] 3 3 None.

(** N = 8.  A long snake A heads North to an apple; B crosses its trail one
    tick after A has eaten. *)
Definition longA : Snake :=
  mkSnake "A" true 0 [283; 291; 299; 307; 315; 316; 317; 318] 0 0 None.
Definition crossB : Snake := mkSnake "B" true 1 [305; 304; 312; 313] 0 0 None.
Definition game_cross : GameState :=
  mkState 42 Demo.rng0 (mkSettings 8 180 12 1) 0 1000 181000
          [("A", longA); ("B", crossB)] [("f0", mkFruit "f0" 275 apple 3)].
Definition world_cross : World := mkWorld game_cross Demo.tokens 0.

(** A turns South into its own body at segment 4 while B runs into
    segment 2 of A. *)
Definition coilA : Snake :=
  mkSnake "A" true 2 [283; 282; 290; 291; 292; 293; 294] 0 0 None.
Definition sideB : Snake := mkSnake "B" true 1 [281; 280; 272; 264] 0 0 None.
Definition game_coil : GameState :=
  mkState 42 Demo.rng0 (mkSettings 8 180 12 0) 0 1000 181000
          [("A", coilA); ("B", sideB)] [].
Definition world_coil : World := mkWorld game_coil Demo.tokens 0.

(** The same turn of A with nobody else on the cube. *)
Definition game_coil_alone : GameState :=
  mkState 42 Demo.rng0 (mkSettings 8 180 12 0) 0 1000 181000
          [("A", coilA)] [].
Definition world_coil_alone : World := mkWorld game_coil_alone Demo.tokens 0.

(** After that move: the head of A lies on its own segment 4. *)
Definition coiledA : Snake :=
  mkSnake "A" true 2 [291; 283; 282; 290; 291; 292; 293] 0 0 None.
Definition game_coiled : GameState :=
  mkState 42 Demo.rng0 (mkSettings 8 180 12 0) 0 1000 181000
          [("A", coiledA)] [].
Definition world_coiled : World := mkWorld game_coiled Demo.tokens 0.

(** The snake that the stream of [Demo.rng0] places on an empty cube. *)
Definition placedA : Snake := mkSnake "A" true 0 [202; 210; 218; 226] 0 0 None.

(** A cube without fruits that wants three. *)
Definition game_hungry : GameState :=
  mkState 42 Demo.rng0 (mkSettings 8 180 12 3) 0 1000 181000
          [("A", Demo.snakeA)] [].
Definition world_hungry : World := mkWorld game_hungry Demo.tokens 0.

End Scenes.

Local Open Scope Z_scope.
Local Open Scope bool_scope.

(** ** Rooms for the scenarios *)

Module RoomScenes.
Import Rooms.
Local Open Scope string_scope.

Definition no_int (s : string) : option Z := None.

Definition uuids (i : nat) : string := String (ascii_of_nat (112 + i)) "-uuid".
Definition room_names (i : nat) : string := String (ascii_of_nat (65 + i)) "BCDEF".

Definition playerA : PlayerConn := mkPlayerConn "A" "Ann" 1 true 0xDB2777 [] (-1).

(** A room whose round is running on [Demo.game0], at tick 0. *)
Definition running_room : Room :=
  mkRoom "ROOM42" (Some "A") (mkRoomSettings 8 180 12) [("A", playerA)]
         "running" (Some Demo.game0) true.


Definition guest (i : nat) : string * PlayerConn :=
  (uuids i, mkPlayerConn (uuids i) "Guest" i false (nth i _palette 0) [] (-1)).

(** A lobby with eight players. *)
Definition full_room : Room :=
  mkRoom "ROOM43" (Some (uuids 0)) (mkRoomSettings 24 180 12)
         (map guest [0; 1; 2; 3; 4; 5; 6; 7]%nat) "lobby" None false.



(** The item [{tick: 0, turn: 1}] of an [input] message. *)
Definition turn_right_now : Json := JObj [("tick", JInt 0); ("turn", JInt 1)].

(** A manager without rooms, and what the join of Bob makes of it. *)
Definition manager_empty : Manager := mkManager [] room_names 0 uuids 0.
Definition bob : PlayerConn := mkPlayerConn (uuids 0) "Bob" 7 false 0xDB2777 [] (-1).
Definition room_bob : Room :=
  mkRoom (room_names 0) (Some (uuids 0)) (mkRoomSettings 24 180 12)
         [(uuids 0, bob)] "lobby" None false.
Definition manager_bob : Manager :=
  mkManager [(room_names 0, room_bob)] room_names 1 uuids 1.

(** Connections 0 to 3 are closed. *)
Definition send_ok_from_4 (ws : nat) : bool := Nat.leb 4 ws.

End RoomScenes.

Local Open Scope Z_scope.
Local Open Scope bool_scope.
Import Geometry.

(** ** Cell ids *)

Lemma encode_cell_bounds face u v n :
  valid_coords face u v n -> 0 <= encode_cell face u v n < 6 * n * n.
Proof.
  unfold valid_coords, encode_cell. intros (Hf & Hu & Hv). nia.
Qed.

Lemma decode_encode face u v n :
  0 <= u < n -> 0 <= v < n ->
  decode_cell (encode_cell face u v n) n = Ok (face, u, v).
Proof.
  intros Hu Hv. unfold decode_cell, encode_cell.
  assert (Hn : 0 < n) by lia.
  assert (Hnn : 0 < n * n) by nia.
  assert (Hrem : 0 <= v * n + u < n * n) by nia.
  destruct (Z.eqb_spec (n * n) 0) as [E | _]; [lia |].
  destruct (Z.eqb_spec n 0) as [E | _]; [lia |].
  replace (face * (n * n) + v * n + u) with ((v * n + u) + face * (n * n)) by ring.
  rewrite Z.div_add, Z.mod_add by lia.
  rewrite (Z.div_small (v * n + u) (n * n)), (Z.mod_small (v * n + u) (n * n)) by lia.
  replace (v * n + u) with (u + v * n) by ring.
  rewrite Z.div_add, Z.mod_add by lia.
  rewrite (Z.div_small u n), (Z.mod_small u n) by lia.
  repeat f_equal; lia.
Qed.

(** C7. For every face in 0..5, [u] and [v] in [0, N-1] and [N >= 1]:
    decoding the encoded cell gives back [(face, u, v)], and the encoded
    cell is below [6 * N * N]. *)
Theorem encode_decode_roundtrip face u v n :
  1 <= n -> 0 <= face <= 5 -> 0 <= u <= n - 1 -> 0 <= v <= n - 1 ->
  decode_cell (encode_cell face u v n) n = Ok (face, u, v)
  /\ encode_cell face u v n < 6 * n * n.
Proof.
  intros Hn Hf Hu Hv. split.
  - apply decode_encode; lia.
  - apply encode_cell_bounds. unfold valid_coords. lia.
Qed.

Lemma decode_cell_inv cell n face u v :
  decode_cell cell n = Ok (face, u, v) ->
  cell = encode_cell face u v n.
Proof.
  unfold decode_cell, encode_cell.
  destruct (Z.eqb_spec (n * n) 0) as [E | Hnn]; [discriminate |].
  destruct (Z.eqb_spec n 0) as [E | Hn]; [discriminate |].
  intros H. injection H as Hf Hu Hv. subst face u v.
  rewrite (Z.div_mod cell (n * n)) at 1 by assumption.
  rewrite (Z.div_mod (cell mod (n * n)) n) at 1 by assumption.
  ring.
Qed.

Lemma step_cell_encode face u v d n :
  0 <= u < n -> 0 <= v < n ->
  step_cell (encode_cell face u v n) d n = step_coords face u v d n.
Proof.
  intros Hu Hv. unfold step_cell. now rewrite decode_encode.
Qed.

(** ** The projection onto the new face

    [step_cell] computes [((dot + max_abs) * n) // (2 * max_abs)].  While the
    head stays on its face [max_abs = n]; when it crosses an edge
    [max_abs = n + 1]. *)

Ltac zlia := Z.to_euclidean_division_equations; lia.

Lemma proj_same a M n k :
  0 < n -> M = n -> a = 2 * k + 1 -> (a * n) / (2 * M) = k.
Proof.
  intros Hn -> ->. rewrite Z.div_mul_cancel_r by lia.
  symmetry. apply Z.div_unique with (r := 1); lia.
Qed.

Lemma proj_cross a M n k :
  0 < n -> M = n + 1 -> a = 2 * k + 2 -> 0 <= k < n ->
  (a * n) / (2 * M) = k.
Proof.
  intros Hn -> -> Hk. symmetry.
  apply Z.div_unique with (r := 2 * (n - k)); [lia | ring].
Qed.

Lemma proj_near a M n :
  0 < n -> M = n + 1 -> a = 1 -> (a * n) / (2 * M) = 0.
Proof.
  intros Hn -> ->. apply Z.div_small. lia.
Qed.

Lemma proj_far a M n :
  0 < n -> M = n + 1 -> a = 2 * n + 1 -> (a * n) / (2 * M) = n - 1.
Proof.
  intros Hn -> ->. symmetry.
  apply Z.div_unique with (r := n + 2); [lia | ring].
Qed.

(** ** Symbolic execution of [step_coords] on a fixed face and direction *)

Ltac eval_closed :=
  match goal with
  | |- context [Z.eqb ?a ?b] =>
      let r := eval vm_compute in (Z.eqb a b) in
      match r with
      | true => change (Z.eqb a b) with true
      | false => change (Z.eqb a b) with false
      end
  end.

Ltac case_cond :=
  match goal with
  | |- context [Z.geb ?a ?b] =>
      rewrite (Z.geb_leb a b);
      destruct (Z.leb_spec b a); try (exfalso; lia)
  | |- context [Z.ltb ?a ?b] =>
      destruct (Z.ltb_spec a b); try (exfalso; lia)
  | |- context [Z.eqb ?a ?b] =>
      destruct (Z.eqb_spec a b); try (exfalso; lia)
  end.

Ltac project_to a M n k :=
  first [ rewrite (proj_same a M n k) by lia
        | rewrite (proj_cross a M n k) by lia ].

Ltac project n u v :=
  match goal with
  | |- context [(?a * n) / (2 * ?M)] =>
      first [ rewrite (proj_near a M n) by lia
            | rewrite (proj_far a M n) by lia
            | project_to a M n u | project_to a M n v
            | project_to a M n (u + 1) | project_to a M n (u - 1)
            | project_to a M n (v + 1) | project_to a M n (v - 1)
            | project_to a M n (n - 1 - u) | project_to a M n (n - 1 - v) ]
  end.

Ltac expose :=
  cbv beta iota zeta
      delta [step_coords FACE_BASIS _dir_vec _dir_from_vec vec3_eqb scale vadd
             neg dot vX vY vZ vx vy vz bn br bu andb].

Ltac arith_norm :=
  rewrite ?Z.opp_0, ?Z.opp_involutive, ?Z.mul_0_l, ?Z.mul_0_r, ?Z.mul_1_l,
    ?Z.mul_1_r, ?Z.add_0_l, ?Z.add_0_r, ?Z.sub_0_r.

Ltac run_step n u v :=
  repeat (expose;
          first [ eval_closed | progress arith_norm | project n u v | case_cond ]).

Local Open Scope Z_scope.
Local Open Scope bool_scope.
Import Geometry.

Lemma step_coords_reverse face u v d n :
  2 <= n -> valid_coords face u v n -> 0 <= d <= 3 ->
  match step_coords face u v d n with
  | Ok (c', d') =>
      step_cell c' ((d' + 2) mod 4) n
      = Ok (encode_cell face u v n, (d + 2) mod 4)
  | Raise _ => False
  end.
Proof.
  intros Hn (Hf & Hu & Hv) Hd.
  assert (Ef : face = 0 \/ face = 1 \/ face = 2 \/ face = 3 \/ face = 4 \/ face = 5) by lia.
  assert (Ed : d = 0 \/ d = 1 \/ d = 2 \/ d = 3) by lia.
  clear Hf Hd.
  destruct Ef as [-> | [-> | [-> | [-> | [-> | ->]]]]];
    destruct Ed as [-> | [-> | [-> | ->]]];
    run_step n u v;
    (rewrite step_cell_encode by lia);
    run_step n u v;
    repeat f_equal; lia.
Qed.

Local Open Scope Z_scope.
Local Open Scope bool_scope.
Import Geometry.

Lemma step_cell_total cell d n face u v :
  2 <= n -> decode_cell cell n = Ok (face, u, v) ->
  valid_coords face u v n -> 0 <= d <= 3 ->
  exists c' d', step_cell cell d n = Ok (c', d').
Proof.
  intros Hn Hdec Hval Hd. unfold step_cell. rewrite Hdec.
  pose proof (step_coords_reverse face u v d n Hn Hval Hd) as H.
  destruct (step_coords face u v d n) as [[c' d'] | e]; [eauto | contradiction].
Qed.

(** C3. For every valid cell id (one that decodes to a face in 0..5 and to
    u, v in [0, N-1]), every direction in {0,1,2,3} and every N >= 2: if
    [step_cell cell dir N] returns [(c', d')], then stepping from [c'] in the
    opposite direction [(d' + 2) mod 4] returns [(cell, (dir + 2) mod 4)]. *)
Theorem step_cell_reversible cell dir n face u v c' d' :
  2 <= n ->
  decode_cell cell n = Ok (face, u, v) ->
  0 <= face <= 5 -> 0 <= u <= n - 1 -> 0 <= v <= n - 1 ->
  0 <= dir <= 3 ->
  step_cell cell dir n = Ok (c', d') ->
  step_cell c' ((d' + 2) mod 4) n = Ok (cell, (dir + 2) mod 4).
Proof.
  intros Hn Hdec Hf Hu Hv Hd Hstep.
  assert (Hval : valid_coords face u v n) by (unfold valid_coords; lia).
  pose proof (step_coords_reverse face u v dir n Hn Hval Hd) as H.
  unfold step_cell in Hstep. rewrite Hdec in Hstep. rewrite Hstep in H.
  now rewrite (decode_cell_inv _ _ _ _ _ Hdec).
Qed.

Lemma step_cell_reversible_witness :
  step_cell 167 ((3 + 2) mod 4) 8 = Ok (3, (0 + 2) mod 4).
Proof.
  apply (step_cell_reversible 3 0 8 0 3 0 167 3); try lia; reflexivity.
Defined.

Lemma encode_decode_roundtrip_witness :
  decode_cell (encode_cell 4 3 2 8) 8 = Ok (4, 3, 2)
  /\ encode_cell 4 3 2 8 < 6 * 8 * 8.
Proof. apply (encode_decode_roundtrip 4 3 2 8); lia. Defined.

Local Open Scope Z_scope.
Local Open Scope bool_scope.
Import Geometry.

(** * More of the geometry *)

(** ** Decoding *)

Lemma decode_cell_in_range cell n :
  1 <= n -> 0 <= cell < 6 * n * n ->
  exists face u v,
    decode_cell cell n = Ok (face, u, v)
    /\ valid_coords face u v n
    /\ encode_cell face u v n = cell.
Proof.
  intros Hn Hc. unfold decode_cell.
  assert (Hnn : 0 < n * n) by nia.
  destruct (Z.eqb_spec (n * n) 0) as [E | _]; [lia |].
  destruct (Z.eqb_spec n 0) as [E | _]; [lia |].
  exists (cell / (n * n)), ((cell mod (n * n)) mod n), ((cell mod (n * n)) / n).
  split; [reflexivity |].
  pose proof (Z.div_mod cell (n * n) ltac:(lia)) as Hdm.
  pose proof (Z.mod_pos_bound cell (n * n) Hnn) as Hrem.
  pose proof (Z.div_mod (cell mod (n * n)) n ltac:(lia)) as Hdm'.
  pose proof (Z.mod_pos_bound (cell mod (n * n)) n ltac:(lia)) as Hu.
  assert (Hface : 0 <= cell / (n * n) <= 5).
  { split.
    - apply Z.div_pos; lia.
    - assert (cell / (n * n) < 6); [| lia].
      apply Z.div_lt_upper_bound; lia. }
  assert (Hv : 0 <= (cell mod (n * n)) / n < n).
  { split.
    - apply Z.div_pos; lia.
    - apply Z.div_lt_upper_bound; lia. }
  split.
  - unfold valid_coords. lia.
  - unfold encode_cell. lia.
Qed.

(** X1. Every cell id below [6 * N * N] decodes to a face in 0..5 and to
    coordinates in [0, N-1], and encoding them gives the id back. *)
Theorem decode_cell_valid cell n :
  1 <= n -> 0 <= cell < 6 * n * n ->
  exists face u v,
    decode_cell cell n = Ok (face, u, v)
    /\ valid_coords face u v n
    /\ encode_cell face u v n = cell.
Proof. apply decode_cell_in_range. Qed.

Lemma decode_cell_valid_witness :
  exists face u v,
    decode_cell 283 8 = Ok (face, u, v)
    /\ valid_coords face u v 8
    /\ encode_cell face u v 8 = 283.
Proof. apply (decode_cell_valid 283 8); lia. Defined.

(** ** Turning *)

(** X2. A turn of -1, 0 or 1 keeps a direction in 0..3 and is undone by the
    opposite turn; any other turn value raises [ValueError]. *)
Theorem turn_round_trip d t :
  0 <= d <= 3 ->
  (-1 <= t <= 1 ->
     exists d', turn d t = Ok d' /\ 0 <= d' <= 3 /\ turn d' (- t) = Ok d)
  /\ (t < -1 \/ 1 < t -> turn d t = Raise ValueError).
Proof.
  intros Hd. split.
  - intros Ht.
    assert (Ed : d = 0 \/ d = 1 \/ d = 2 \/ d = 3) by lia.
    assert (Et : t = -1 \/ t = 0 \/ t = 1) by lia.
    destruct Ed as [-> | [-> | [-> | ->]]]; destruct Et as [-> | [-> | ->]];
      eexists; (split; [reflexivity |]); (split; [zlia | reflexivity]).
  - intros Ht. unfold turn.
    destruct (Z.eqb_spec t (-1)); [lia |].
    destruct (Z.eqb_spec t 0); [lia |].
    destruct (Z.eqb_spec t 1); [lia |]. reflexivity.
Qed.

Lemma turn_round_trip_witness :
  (-1 <= 1 <= 1 ->
     exists d', turn 3 1 = Ok d' /\ 0 <= d' <= 3 /\ turn d' (- (1)) = Ok 3)
  /\ (1 < -1 \/ 1 < 1 -> turn 3 1 = Raise ValueError).
Proof. apply (turn_round_trip 3 1); lia. Defined.

(** ** Directions as vectors *)

(** X3. On each of the six faces the four directions are four different
    vectors: reading the direction back off its vector gives the direction. *)
Theorem dir_vec_round_trip face basis d :
  FACE_BASIS face = Some basis -> 0 <= d <= 3 ->
  _dir_from_vec basis (_dir_vec basis d) = Ok d.
Proof.
  intros Hb Hd.
  assert (Ed : d = 0 \/ d = 1 \/ d = 2 \/ d = 3) by lia.
  unfold FACE_BASIS in Hb.
  destruct face as [| [[[| |] | [| |] |] | [[| |] | [| |] |] |] |]; try discriminate;
    injection Hb as <-;
    destruct Ed as [-> | [-> | [-> | ->]]]; reflexivity.
Qed.

Lemma dir_vec_round_trip_witness :
  _dir_from_vec (mkBasis vZ vX vY) (_dir_vec (mkBasis vZ vX vY) 3) = Ok 3.
Proof. apply (dir_vec_round_trip 4 (mkBasis vZ vX vY) 3); [reflexivity | lia]. Defined.

(** The normal of a face is none of its directions. *)
Lemma dir_from_vec_range basis v d :
  _dir_from_vec basis v = Ok d -> 0 <= d <= 3.
Proof.
  unfold _dir_from_vec.
  destruct (vec3_eqb v (bu basis)); [intros [= <-]; lia |].
  destruct (vec3_eqb v (br basis)); [intros [= <-]; lia |].
  destruct (vec3_eqb v (neg (bu basis))); [intros [= <-]; lia |].
  destruct (vec3_eqb v (neg (br basis))); [intros [= <-]; lia | discriminate].
Qed.

(** ** Steps stay on the cube *)

Lemma step_coords_dir face u v d n c' d' :
  0 <= d <= 3 -> step_coords face u v d n = Ok (c', d') -> 0 <= d' <= 3.
Proof.
  intros Hd. unfold step_coords.
  destruct (FACE_BASIS face) as [basis |]; [| discriminate].
  cbv zeta.
  match goal with
  | |- context [let '(a, b) := ?e in _] => destruct e as [max_abs new_n]
  end.
  match goal with
  | |- context [FACE_BASIS ?f] => destruct (FACE_BASIS f) as [new_basis |]
  end; [| discriminate].
  match goal with
  | |- context [if ?c then Raise ZeroDivisionError else _] => destruct c
  end; [discriminate |].
  match goal with
  | |- context [if ?c then Ok (_, d) else _] => destruct c
  end; [intros [= _ <-]; exact Hd |].
  destruct (_dir_from_vec new_basis (neg (bn basis))) as [nd | e] eqn:Hnd;
    [| discriminate].
  intros [= _ <-]. exact (dir_from_vec_range _ _ _ Hnd).
Qed.

Lemma step_cell_source_valid cell d n r :
  1 <= n -> step_cell cell d n = Ok r -> 0 <= cell < 6 * n * n.
Proof.
  intros Hn. unfold step_cell, decode_cell.
  assert (Hnn : 0 < n * n) by nia.
  destruct (Z.eqb_spec (n * n) 0) as [E | _]; [lia |].
  destruct (Z.eqb_spec n 0) as [E | _]; [lia |].
  unfold step_coords.
  destruct (FACE_BASIS (cell / (n * n))) as [basis |] eqn:Hb; [| discriminate].
  intros _.
  assert (Hface : 0 <= cell / (n * n) <= 5).
  { unfold FACE_BASIS in Hb.
    destruct (cell / (n * n)) as [| [[[| |] | [| |] |] | [[| |] | [| |] |] |] |];
      try discriminate; lia. }
  pose proof (Z.div_mod cell (n * n) ltac:(lia)) as Hdm.
  pose proof (Z.mod_pos_bound cell (n * n) Hnn) as Hrem.
  nia.
Qed.

(** X4. A step from a cell of the cube in one of the four directions returns,
    and it returns a cell of the cube and one of the four directions. *)
Theorem step_cell_closed cell d n :
  2 <= n -> 0 <= cell < 6 * n * n -> 0 <= d <= 3 ->
  exists c' d',
    step_cell cell d n = Ok (c', d')
    /\ 0 <= c' < 6 * n * n /\ 0 <= d' <= 3.
Proof.
  intros Hn Hc Hd.
  assert (Hn1 : 1 <= n) by lia.
  destruct (decode_cell_in_range cell n Hn1 Hc) as (face & u & v & Hdec & Hval & Henc).
  pose proof (step_coords_reverse face u v d n Hn Hval Hd) as Hrev.
  unfold step_cell at 1. rewrite Hdec.
  destruct (step_coords face u v d n) as [[c' d'] | e] eqn:Hstep; [| contradiction].
  exists c', d'. split; [reflexivity |]. split.
  - apply (step_cell_source_valid c' ((d' + 2) mod 4) n
             (encode_cell face u v n, (d + 2) mod 4)); [lia | exact Hrev].
  - exact (step_coords_dir _ _ _ _ _ _ _ Hd Hstep).
Qed.

Lemma step_cell_closed_witness :
  exists c' d',
    step_cell 3 0 8 = Ok (c', d')
    /\ 0 <= c' < 6 * 8 * 8 /\ 0 <= d' <= 3.
Proof. apply (step_cell_closed 3 0 8); lia. Defined.

Local Open Scope Z_scope.
Local Open Scope bool_scope.
Import Geometry.

(** ** Steps inside a face *)

Lemma step_coords_inside face u v d n :
  2 <= n -> valid_coords face u v n -> 0 <= d <= 3 ->
  0 <= u + (if d =? 1 then 1 else if d =? 3 then -1 else 0) < n ->
  0 <= v + (if d =? 2 then 1 else if d =? 0 then -1 else 0) < n ->
  step_coords face u v d n
  = Ok (encode_cell face (u + (if d =? 1 then 1 else if d =? 3 then -1 else 0))
                         (v + (if d =? 2 then 1 else if d =? 0 then -1 else 0)) n,
        d).
Proof.
  intros Hn (Hf & Hu & Hv) Hd.
  assert (Ef : face = 0 \/ face = 1 \/ face = 2 \/ face = 3 \/ face = 4 \/ face = 5) by lia.
  assert (Ed : d = 0 \/ d = 1 \/ d = 2 \/ d = 3) by lia.
  clear Hf Hd.
  destruct Ef as [-> | [-> | [-> | [-> | [-> | ->]]]]];
    destruct Ed as [-> | [-> | [-> | ->]]];
    cbn [Z.eqb Pos.eqb]; intros Hu' Hv';
    run_step n u v;
    repeat f_equal; lia.
Qed.

(** X5. Inside a face a step moves the head by one cell and keeps the
    direction: North (0) is [v - 1], East (1) is [u + 1], South (2) is
    [v + 1], West (3) is [u - 1]. *)
Theorem step_cell_inside face u v d n :
  2 <= n -> valid_coords face u v n -> 0 <= d <= 3 ->
  0 <= u + (if d =? 1 then 1 else if d =? 3 then -1 else 0) < n ->
  0 <= v + (if d =? 2 then 1 else if d =? 0 then -1 else 0) < n ->
  step_cell (encode_cell face u v n) d n
  = Ok (encode_cell face (u + (if d =? 1 then 1 else if d =? 3 then -1 else 0))
                         (v + (if d =? 2 then 1 else if d =? 0 then -1 else 0)) n,
        d).
Proof.
  intros Hn Hval Hd Hu' Hv'.
  rewrite step_cell_encode by (unfold valid_coords in Hval; lia).
  now apply step_coords_inside.
Qed.

Lemma step_cell_inside_witness :
  step_cell (encode_cell 4 3 3 8) 0 8
  = Ok (encode_cell 4 (3 + (if 0 =? 1 then 1 else if 0 =? 3 then -1 else 0))
                      (3 + (if 0 =? 2 then 1 else if 0 =? 0 then -1 else 0)) 8,
        0).
Proof.
  apply (step_cell_inside 4 3 3 0 8); unfold valid_coords; simpl; lia.
Defined.

Local Open Scope Z_scope.
Local Open Scope bool_scope.
Import Geometry Sim.

(** ** Facts about dicts *)

Section DictFacts.
Context {K V : Type} (eqb : K -> K -> bool).
Hypothesis eqb_spec : forall a b, reflect (a = b) (eqb a b).

Lemma eqb_refl' k : eqb k k = true.
  Proof. destruct (eqb_spec k k); congruence. Qed.

Lemma dict_get_update k k' (f : V -> V) d :
    dict_get eqb k' (dict_update eqb k f d)
    = if eqb k' k then option_map f (dict_get eqb k d) else dict_get eqb k' d.
  Proof.
    induction d as [| [k0 v0] d IH]; simpl.
    - now destruct (eqb k' k).
    - destruct (eqb_spec k k0) as [-> | Hne]; simpl.
      + destruct (eqb_spec k' k0) as [-> | Hne']; [reflexivity |].
        reflexivity.
      + destruct (eqb_spec k' k0) as [-> | Hne'].
        * destruct (eqb_spec k0 k); [congruence | reflexivity].
        * exact IH.
  Qed.

Lemma dict_get_update_same k (f : V -> V) d :
    dict_get eqb k (dict_update eqb k f d) = option_map f (dict_get eqb k d).
  Proof. now rewrite dict_get_update, eqb_refl'. Qed.

Lemma dict_get_update_other k k' (f : V -> V) d :
    k' <> k -> dict_get eqb k' (dict_update eqb k f d) = dict_get eqb k' d.
  Proof.
    intros Hne. rewrite dict_get_update.
    destruct (eqb_spec k' k); [contradiction | reflexivity].
  Qed.

Lemma dict_get_set k k' (v : V) d :
    dict_get eqb k' (dict_set eqb k v d)
    = if eqb k' k then Some v else dict_get eqb k' d.
  Proof.
    induction d as [| [k0 v0] d IH]; simpl.
    - reflexivity.
    - destruct (eqb_spec k k0) as [-> | Hne]; simpl.
      + now destruct (eqb_spec k' k0).
      + destruct (eqb_spec k' k0) as [-> | Hne'].
        * destruct (eqb_spec k0 k); [congruence | reflexivity].
        * exact IH.
  Qed.

Lemma keys_update k (f : V -> V) d :
    keys (dict_update eqb k f d) = keys d.
  Proof.
    unfold keys. induction d as [| [k0 v0] d IH]; simpl; [reflexivity |].
    destruct (eqb k k0); simpl; congruence.
  Qed.

Lemma dict_get_some_in k (v : V) d :
    dict_get eqb k d = Some v -> In (k, v) d.
  Proof.
    induction d as [| [k0 v0] d IH]; simpl; [discriminate |].
    destruct (eqb_spec k k0) as [-> | Hne].
    - intros [= ->]. now left.
    - intros H. right. auto.
  Qed.

Lemma dict_get_in_keys k d :
    In k (keys d) -> exists v : V, dict_get eqb k d = Some v.
  Proof.
    unfold keys. induction d as [| [k0 v0] d IH]; simpl; [contradiction |].
    intros [-> | Hin].
    - rewrite eqb_refl'. eauto.
    - destruct (eqb k k0); eauto.
  Qed.

Lemma dict_get_none_keys k (d : list (K * V)) :
    dict_get eqb k d = None -> ~ In k (keys d).
  Proof.
    intros Hnone Hin. apply dict_get_in_keys in Hin as [v Hv]. congruence.
  Qed.

Lemma mem_spec k l : mem eqb k l = true <-> In k l.
  Proof.
    unfold mem. rewrite existsb_exists. split.
    - intros (x & Hin & Heq). destruct (eqb_spec k x); congruence.
    - intros Hin. exists k. split; [assumption | apply eqb_refl'].
  Qed.

Lemma set_add_spec k k' l : In k' (set_add eqb k l) <-> k' = k \/ In k' l.
  Proof.
    unfold set_add. destruct (mem eqb k l) eqn:Hm.
    - apply mem_spec in Hm. split; [auto | intros [-> | H]; assumption].
    - rewrite in_app_iff. simpl. intuition.
  Qed.
End DictFacts.

(** ** A program logic for the state-and-exception monad

    [preserves R m]: the state that [m] leaves behind is [R]-related to the
    one it found, whether [m] returns or raises. *)

Section Preserves.
Context {St : Type} {R : St -> St -> Prop} `{!PreOrder R}.

Lemma preserves_ret {A} (a : A) : preserves R (ret a).
  Proof. intros s. simpl. reflexivity. Qed.

Lemma preserves_raise {A} e : preserves R (@raise St A e).
  Proof. intros s. simpl. reflexivity. Qed.

Lemma preserves_lift {A} (r : result A) : preserves R (lift r).
  Proof. intros s. simpl. reflexivity. Qed.

Lemma preserves_get : preserves R get.
  Proof. intros s. simpl. reflexivity. Qed.

Lemma preserves_modify (f : St -> St) :
    (forall s, R s (f s)) -> preserves R (modify f).
  Proof. intros H s. simpl. apply H. Qed.

Lemma preserves_bind {A B} (m : M St A) (f : A -> M St B) :
    preserves R m -> (forall a, preserves R (f a)) -> preserves R (bind m f).
  Proof.
    intros Hm Hf s. unfold bind. specialize (Hm s).
    destruct (m s) as [s1 [a | e]]; simpl in *.
    - etransitivity; [exact Hm | apply Hf].
    - exact Hm.
  Qed.

  (** The state read by [get] is the current one. *)
Lemma preserves_get_bind {A} (f : St -> M St A) :
    (forall s, R s (fst (f s s))) -> preserves R (bind get f).
  Proof. intros H s. unfold bind, get. apply H. Qed.

Lemma preserves_for_each {A B} (xs : list A) (body : A -> B -> M St B) acc :
    (forall x acc, preserves R (body x acc)) ->
    preserves R (for_each xs body acc).
  Proof.
    intros Hbody. revert acc.
    induction xs as [| x xs IH]; intros acc; simpl.
    - apply preserves_ret.
    - apply preserves_bind; [apply Hbody | intros acc'; apply IH].
  Qed.

Lemma preserves_attempt {A} (k : nat) (body : M St (option A)) :
    preserves R body -> preserves R (attempt k body).
  Proof.
    intros Hbody. induction k as [| k IH]; simpl.
    - apply preserves_ret.
    - apply preserves_bind; [exact Hbody |].
      intros [a |]; [apply preserves_ret | exact IH].
  Qed.
End Preserves.

Local Open Scope Z_scope.
Local Open Scope bool_scope.
Import Geometry Sim.

(** ** What a tick can do to the world

    Every write of [tick] is one of six: a draw from the random source, a
    token from the operating system, a write to [fruits], a write to the tick
    counter, an attribute assignment on a snake, and the replacement of a
    dead snake by a placed one that inherits its score.  A preorder that
    admits these six admits [tick]. *)

Section TickPreserves.
Variable R : World -> World -> Prop.
Context `{!PreOrder R}.
Variable ok : (Snake -> Snake) -> Prop.
Hypothesis ok_admits : admits_update ok.
Hypothesis R_rng : forall w r, R w (set_game (set_rng r (game w)) w).
Hypothesis R_token :
    forall w, R w (mkWorld (game w) (token_hex w) (S (tokens_drawn w))).
Hypothesis R_fruits : forall w fr, R w (set_game (set_fruits fr (game w)) w).
Hypothesis R_tick_no : forall w t, R w (set_game (set_tick_no t (game w)) w).
Hypothesis R_update :
    forall w pid f, ok f ->
      R w (put_snakes (dict_update String.eqb pid f (snakes (game w))) w).
Hypothesis R_respawn :
    forall w pid s p, snake_of pid w = Some s ->
      R w (put_snakes (dict_set String.eqb pid (set_score (score s) p)
                         (snakes (game w))) w).

Lemma update_snake_preserves pid f : ok f -> preserves R (update_snake pid f).
  Proof. intros Hok w. apply R_update, Hok. Qed.

Lemma with_rng_preserves {A} (m : M Rng A) : preserves R (with_rng m).
  Proof.
    intros w. unfold with_rng. destruct (m (rng (game w))) as [r a]. apply R_rng.
  Qed.

Lemma new_fruit_id_preserves : preserves R new_fruit_id.
  Proof. intros w. apply R_token. Qed.

Ltac pres :=
    repeat match goal with
      | |- preserves _ (ret _) => apply preserves_ret
      | |- preserves _ (raise _) => apply preserves_raise
      | |- preserves _ (lift _) => apply preserves_lift
      | |- preserves _ get => apply preserves_get
      | |- preserves _ (with_rng _) => apply with_rng_preserves
      | |- preserves _ new_fruit_id => apply new_fruit_id_preserves
      | |- preserves _ (attempt _ _) => apply preserves_attempt
      | |- preserves _ (for_each _ _ _) => apply preserves_for_each; intros ? ?
      | |- preserves _ (bind _ _) => apply preserves_bind; [| intros ?]
      | |- preserves _ (modify _) => apply preserves_modify; intros ?
      | |- preserves _ (match ?x with _ => _ end) => destruct x
      end.

Lemma for_snakes_preserves {B} (body : string -> Snake -> B -> M World B) acc :
    (forall pid s acc w, snake_of pid w = Some s -> R w (fst (body pid s acc w))) ->
    preserves R (for_snakes body acc).
  Proof.
    intros Hbody. unfold for_snakes.
    apply preserves_bind; [apply preserves_get | intros w0].
    apply preserves_for_each. intros pid acc'.
    apply preserves_get_bind. intros w.
    destruct (snake_of pid w) as [s |] eqn:Hs.
    - now apply Hbody.
    - simpl. reflexivity.
  Qed.

Lemma respawn_pass_preserves n now_ms : preserves R (respawn_pass n now_ms).
  Proof.
    unfold respawn_pass. apply for_snakes_preserves.
    intros pid s [] w Hs.
    destruct (alive s); [simpl; reflexivity |].
    destruct (respawn_at_ms s) as [t |]; [| simpl; reflexivity].
    destruct (now_ms <? t); [simpl; reflexivity |].
    unfold bind at 1. unfold get at 1.
    unfold bind, with_rng.
    destruct (_try_place_snake pid n (occupied_now (game w)) 4000 (rng (game w)))
      as [r [[[p occ] |] | e]]; simpl.
    - etransitivity; [apply (R_rng w r) |].
      exact (R_respawn (set_game (set_rng r (game w)) w) pid s p Hs).
    - etransitivity; [apply (R_rng w r) |].
      refine (R_update (set_game (set_rng r (game w)) w) pid _ _).
      apply ok_admits.
    - apply R_rng.
  Qed.

Lemma for_snakes_preserves' {B} (body : string -> Snake -> B -> M World B) acc :
    (forall pid s acc, preserves R (body pid s acc)) ->
    preserves R (for_snakes body acc).
  Proof. intros Hbody. apply for_snakes_preserves. intros. apply Hbody. Qed.

Lemma plan_moves_preserves n inputs fbc : preserves R (plan_moves n inputs fbc).
  Proof.
    unfold plan_moves. apply for_snakes_preserves'. intros pid s planned.
    pres; apply update_snake_preserves, ok_admits.
  Qed.

Lemma pop_fruit_preserves fid : preserves R (pop_fruit fid).
  Proof. unfold pop_fruit. pres. apply R_fruits. Qed.

Lemma move_and_eat_preserves planned fbc : preserves R (move_and_eat planned fbc).
  Proof.
    unfold move_and_eat. apply preserves_bind.
    - apply for_snakes_preserves'. intros pid s acc.
      destruct (negb (alive s)); [apply preserves_ret |].
      destruct (dict_get String.eqb pid planned) as [[[next_head d] eat_value] |];
        [| apply preserves_raise].
      apply preserves_bind.
      + destruct (pending_growth s >? 0); pres.
        apply update_snake_preserves, ok_admits.
      + intros new_body. apply preserves_bind; [| intros ?; apply preserves_ret].
        destruct (Z.gtb_spec eat_value 0) as [Hpos | _]; [| apply preserves_ret].
        destruct (dict_get Z.eqb next_head fbc) as [f |]; [| apply preserves_raise].
        apply preserves_bind; [apply pop_fruit_preserves |].
        intros [fr |]; [| apply preserves_ret].
        apply update_snake_preserves, ok_admits. lia.
    - intros new_cells. apply preserves_for_each. intros [pid body] [].
      apply update_snake_preserves, ok_admits.
  Qed.

Lemma add_score_preserves a x : 0 <= x -> preserves R (add_score a x).
  Proof.
    intros Hx. unfold add_score. pres. apply update_snake_preserves, ok_admits, Hx.
  Qed.

Lemma award_portion_preserves bite_points bites_at old_len ik :
    preserves R (award_portion bite_points bites_at old_len ik).
  Proof.
    unfold award_portion. destruct ik as [i k].
    set (next_k := if i + 1 <? len bite_points then _ else _).
    set (portion_len := Z.max 0 (next_k - k)).
    set (attackers := sorted String.leb _).
    destruct attackers as [| first rest] eqn:Hatt; [apply preserves_ret |].
    destruct (Z.leb_spec portion_len 0) as [_ | Hpos]; [apply preserves_ret |].
    assert (Hlen : 0 < len (first :: rest)) by (unfold len; simpl; lia).
    apply preserves_bind.
    - apply preserves_for_each. intros a []. apply add_score_preserves.
      apply Z.div_pos; lia.
    - intros _. destruct (negb _); [| apply preserves_ret].
      apply add_score_preserves. apply Z.mod_pos_bound. exact Hlen.
  Qed.

Lemma resolve_victim_preserves vb dead : preserves R (resolve_victim vb dead).
  Proof.
    unfold resolve_victim. destruct vb as [victim_id bites_at].
    pres.
    - apply update_snake_preserves, ok_admits.
    - apply award_portion_preserves.
  Qed.

Lemma collide_preserves : preserves R collide.
  Proof.
    unfold collide. pres. apply resolve_victim_preserves.
  Qed.

Lemma finalize_deaths_preserves now_ms dead :
    preserves R (finalize_deaths now_ms dead).
  Proof.
    unfold finalize_deaths. pres. apply update_snake_preserves, ok_admits.
  Qed.

Lemma spawn_attempt_preserves n occupied : preserves R (spawn_attempt n occupied).
  Proof. unfold spawn_attempt. pres. apply R_fruits. Qed.

Lemma ensure_loop_preserves fuel n occupied :
    preserves R (ensure_loop fuel n occupied).
  Proof.
    revert occupied. induction fuel as [| fuel IH]; intros occupied; simpl.
    - pres.
    - apply preserves_bind; [apply preserves_get | intros w].
      destruct (negb _); [apply preserves_ret |].
      apply preserves_bind.
      + apply preserves_attempt, spawn_attempt_preserves.
      + intros [f |]; [apply IH | apply preserves_ret].
  Qed.

Lemma ensure_fruit_target_preserves fuel : preserves R (ensure_fruit_target fuel).
  Proof.
    unfold ensure_fruit_target. pres. apply ensure_loop_preserves.
  Qed.

Lemma tick_to_move_preserves inputs now_ms :
    preserves R (tick_to_move inputs now_ms).
  Proof.
    unfold tick_to_move.
    apply preserves_bind; [apply preserves_get | intros w].
    apply preserves_bind; [apply respawn_pass_preserves | intros _].
    apply preserves_bind; [apply preserves_get | intros w1].
    apply preserves_bind; [apply plan_moves_preserves | intros planned].
    apply move_and_eat_preserves.
  Qed.

Lemma tick_to_collisions_preserves inputs now_ms :
    preserves R (tick_to_collisions inputs now_ms).
  Proof.
    unfold tick_to_collisions.
    apply preserves_bind; [apply tick_to_move_preserves | intros _].
    apply collide_preserves.
  Qed.

Theorem tick_preserves fuel inputs now_ms : preserves R (tick fuel inputs now_ms).
  Proof.
    unfold tick.
    apply preserves_bind; [apply tick_to_collisions_preserves | intros dead].
    apply preserves_bind; [apply finalize_deaths_preserves | intros _].
    apply preserves_bind; [apply ensure_fruit_target_preserves | intros _].
    apply preserves_modify. intros w. apply R_tick_no.
  Qed.
End TickPreserves.

Local Open Scope Z_scope.
Local Open Scope bool_scope.
Import Geometry Sim.

(** ** The frame of a tick *)

#[local] Instance same_frame_preorder : PreOrder same_frame.
Proof.
  split.
  - intros w. unfold same_frame. auto.
  - intros a b c (H1 & H2 & H3 & H4) (H1' & H2' & H3' & H4').
    unfold same_frame. repeat split; congruence.
Qed.

(** C10. A call of [tick] leaves [seed], [settings] (cube_n, round_seconds,
    tick_rate, fruit_target), [start_server_time_ms] and [ends_at_ms] as they
    were, whether it returns or raises; what it can change is the tick
    counter, the snakes, the fruits and the position of the random stream. *)
Theorem tick_frame fuel inputs now_ms w :
  let w' := fst (tick fuel inputs now_ms w) in
  seed (game w') = seed (game w)
  /\ settings (game w') = settings (game w)
  /\ start_server_time_ms (game w') = start_server_time_ms (game w)
  /\ ends_at_ms (game w') = ends_at_ms (game w).
Proof.
  apply (tick_preserves same_frame (fun _ => True));
    try easy; unfold admits_update; repeat split.
Qed.

(** ** Scores never go down *)

#[local] Instance score_le_preorder : PreOrder score_le.
Proof.
  split.
  - intros w pid s Hs. exists s. split; [assumption | lia].
  - intros a b c Hab Hbc pid s Hs.
    destruct (Hab pid s Hs) as (s1 & Hs1 & Hle1).
    destruct (Hbc pid s1 Hs1) as (s2 & Hs2 & Hle2).
    exists s2. split; [assumption | lia].
Qed.

Lemma score_le_same_snakes w w' :
  snakes (game w') = snakes (game w) -> score_le w w'.
Proof.
  intros Heq pid s Hs. exists s. unfold snake_of in *. rewrite Heq.
  split; [assumption | lia].
Qed.

Lemma score_le_update w pid f :
  (forall s, score s <= score (f s)) ->
  score_le w (put_snakes (dict_update String.eqb pid f (snakes (game w))) w).
Proof.
  intros Hf pid' s Hs. unfold snake_of in *. simpl.
  rewrite (dict_get_update String.eqb String.eqb_spec).
  destruct (String.eqb_spec pid' pid) as [-> | Hne].
  - rewrite Hs. simpl. eauto.
  - exists s. split; [assumption | lia].
Qed.

Lemma score_le_respawn w pid s p :
  snake_of pid w = Some s ->
  score_le w (put_snakes (dict_set String.eqb pid (set_score (score s) p)
                            (snakes (game w))) w).
Proof.
  intros Hs pid' s0 Hs0. unfold snake_of in *. simpl.
  rewrite (dict_get_set String.eqb String.eqb_spec).
  destruct (String.eqb_spec pid' pid) as [-> | Hne].
  - eexists. split; [reflexivity |]. simpl.
    rewrite Hs in Hs0. injection Hs0 as ->. lia.
  - exists s0. split; [assumption | lia].
Qed.

(** C5. For every snake and every call of [tick] (also one in which the
    snake dies or respawns, and also one that raises), the snake is still in
    the game afterwards and its score is at least what it was. *)
Theorem tick_score_monotone fuel inputs now_ms w pid s :
  snake_of pid w = Some s ->
  exists s', snake_of pid (fst (tick fuel inputs now_ms w)) = Some s'
             /\ score s <= score s'.
Proof.
  revert pid s.
  apply (tick_preserves score_le (fun f => forall s, score s <= score (f s))).
  - unfold admits_update. repeat split; intros; simpl; lia.
  - intros. now apply score_le_same_snakes.
  - intros. now apply score_le_same_snakes.
  - intros. now apply score_le_same_snakes.
  - intros. now apply score_le_same_snakes.
  - intros. now apply score_le_update.
  - intros. now apply score_le_respawn.
Qed.

Lemma tick_score_monotone_witness :
  exists s', snake_of "A" (fst (tick 5 [] 2000 Demo.world0)) = Some s'
             /\ score Demo.snakeA <= score s'.
Proof.
  apply (tick_score_monotone 5 [] 2000 Demo.world0 "A" Demo.snakeA).
  reflexivity.
Defined.

Local Open Scope Z_scope.
Local Open Scope bool_scope.
Import Geometry Sim.

(** ** Death finalization *)

#[local] Instance same_snakes_preorder : PreOrder same_snakes.
Proof.
  split.
  - intros w. reflexivity.
  - intros a b c Hab Hbc. unfold same_snakes in *. congruence.
Qed.

Lemma ensure_fruit_target_snakes fuel w :
  snakes (game (fst (ensure_fruit_target fuel w))) = snakes (game w).
Proof.
  now apply (ensure_fruit_target_preserves same_snakes).
Qed.

Lemma snake_of_update pid pid' f w :
  snake_of pid' (put_snakes (dict_update String.eqb pid f (snakes (game w))) w)
  = if String.eqb pid' pid then option_map f (snake_of pid w) else snake_of pid' w.
Proof.
  unfold snake_of. simpl.
  apply (dict_get_update String.eqb String.eqb_spec).
Qed.

Lemma finalize_deaths_spec now_ms dead w pid :
  snake_of pid (fst (finalize_deaths now_ms dead w))
  = match snake_of pid w with
    | Some s => if alive s && mem String.eqb pid dead
                then Some (kill now_ms s) else Some s
    | None => None
    end.
Proof.
  unfold finalize_deaths. revert w.
  induction dead as [| pid0 dead IH]; intros w; simpl.
  - destruct (snake_of pid w) as [s |]; [| reflexivity].
    now rewrite andb_false_r.
  - unfold bind at 1. unfold bind at 1. unfold get at 1.
    destruct (snake_of pid0 w) as [s0 |] eqn:Hs0.
    + destruct (alive s0) eqn:Ha0; simpl.
      * rewrite IH. fold (put_snakes (dict_update String.eqb pid0 (kill now_ms)
                                          (snakes (game w))) w).
        rewrite snake_of_update.
        destruct (String.eqb_spec pid pid0) as [-> | Hne].
        -- rewrite Hs0, Ha0. simpl. reflexivity.
        -- destruct (snake_of pid w); reflexivity.
      * rewrite IH.
        destruct (String.eqb_spec pid pid0) as [-> | Hne]; [| reflexivity].
        rewrite Hs0, Ha0. reflexivity.
    + simpl. rewrite IH.
      destruct (String.eqb_spec pid pid0) as [-> | Hne]; [| reflexivity].
      rewrite Hs0. reflexivity.
Qed.

Lemma finalize_deaths_returns now_ms dead w :
  snd (finalize_deaths now_ms dead w) = Ok tt.
Proof.
  unfold finalize_deaths. revert w.
  induction dead as [| pid0 dead IH]; intros w; simpl; [reflexivity |].
  unfold bind at 1. unfold bind at 1. unfold get at 1.
  destruct (snake_of pid0 w) as [s0 |]; simpl; [| apply IH].
  destruct (alive s0); simpl; apply IH.
Qed.

(** C8. For every player in the [dead] set of a tick that was alive when
    death finalization began: after the call of [tick] the snake is not
    alive, its cells are empty, its pending growth is 0 and its respawn time
    is [now_ms + 3000]. *)
Theorem tick_death_finalization fuel inputs now_ms w w5 dead pid s :
  tick_to_collisions inputs now_ms w = (w5, Ok dead) ->
  In pid dead ->
  snake_of pid w5 = Some s ->
  alive s = true ->
  exists s',
    snake_of pid (fst (tick fuel inputs now_ms w)) = Some s'
    /\ alive s' = false
    /\ cells s' = []
    /\ pending_growth s' = 0
    /\ respawn_at_ms s' = Some (now_ms + 3000).
Proof.
  intros Hrun Hin Hs Halive.
  exists (kill now_ms s). split; [| now repeat split].
  unfold tick. unfold bind at 1. rewrite Hrun.
  unfold bind at 1.
  pose proof (finalize_deaths_spec now_ms dead w5 pid) as Hfin.
  pose proof (finalize_deaths_returns now_ms dead w5) as Hret.
  destruct (finalize_deaths now_ms dead w5) as [w6 r6]. simpl in Hfin, Hret.
  subst r6.
  unfold bind at 1.
  pose proof (ensure_fruit_target_snakes fuel w6) as Hens.
  destruct (ensure_fruit_target fuel w6) as [w7 [[] | e]]; simpl in Hens |- *.
  - unfold snake_of in *. simpl. rewrite Hens, Hfin, Hs, Halive.
    apply (mem_spec String.eqb String.eqb_spec) in Hin. now rewrite Hin.
  - unfold snake_of in *. rewrite Hens, Hfin, Hs, Halive.
    apply (mem_spec String.eqb String.eqb_spec) in Hin. now rewrite Hin.
Qed.

Lemma tick_death_finalization_witness :
  exists s',
    snake_of "A" (fst (tick 5 [] 2000 Demo.world_head_on)) = Some s'
    /\ alive s' = false
    /\ cells s' = []
    /\ pending_growth s' = 0
    /\ respawn_at_ms s' = Some (2000 + 3000).
Proof.
  apply (tick_death_finalization 5 [] 2000 Demo.world_head_on
           (fst (tick_to_collisions [] 2000 Demo.world_head_on))
           ["A"; "B"]%string "A"
           (mkSnake "A" true 0 [275; 283; 291; 299] 0 0 None)).
  - vm_compute. reflexivity.
  - simpl. auto.
  - vm_compute. reflexivity.
  - reflexivity.
Defined.

Local Open Scope Z_scope.
Local Open Scope bool_scope.
Import Geometry Sim.

(** ** Grouping with [defaultdict(list)]

    Appending the entries [(k, x)] of a list one by one groups them by key;
    the list under [k] holds the [x] of the entries with that key, in the
    order of the list. *)

Section Grouping.
Context {K X : Type} (eqb : K -> K -> bool).
Hypothesis eqb_spec : forall a b, reflect (a = b) (eqb a b).

Lemma get_or_set {V} k k' (v dflt : V) d :
    get_or eqb k' (dict_set eqb k v d) dflt
    = if eqb k' k then v else get_or eqb k' d dflt.
  Proof.
    unfold get_or. rewrite (dict_get_set eqb eqb_spec).
    now destruct (eqb k' k).
  Qed.

Lemma get_or_dd_append k k' x (d : list (K * list X)) :
    get_or eqb k' (dd_append eqb k x d) []
    = get_or eqb k' d [] ++ (if eqb k' k then [x] else []).
  Proof.
    unfold dd_append. rewrite get_or_set.
    destruct (eqb_spec k' k) as [-> | Hne]; [reflexivity |].
    now rewrite app_nil_r.
  Qed.

Lemma get_or_group k (es : list (K * X)) d :
    get_or eqb k (fold_left (group_step eqb) es d) []
    = get_or eqb k d [] ++ picked eqb k es.
  Proof.
    revert d. induction es as [| [k0 x0] es IH]; intros d; simpl.
    - unfold picked. simpl. now rewrite app_nil_r.
    - rewrite IH. unfold group_step. simpl. rewrite get_or_dd_append.
      rewrite <- app_assoc. f_equal. unfold picked. simpl.
      destruct (eqb k k0); reflexivity.
  Qed.

Lemma keys_set_in {V} k k' (v : V) d :
    In k' (keys (dict_set eqb k v d)) <-> k' = k \/ In k' (keys d).
  Proof.
    unfold keys. induction d as [| [k0 v0] d IH]; simpl.
    - intuition.
    - destruct (eqb_spec k k0) as [-> | Hne]; simpl.
      + intuition.
      + rewrite IH. intuition.
  Qed.

Lemma keys_set_nodup {V} k (v : V) d :
    NoDup (keys d) -> NoDup (keys (dict_set eqb k v d)).
  Proof.
    unfold keys. induction d as [| [k0 v0] d IH]; simpl; intros Hnd.
    - constructor; [intros [] | constructor].
    - inversion Hnd as [| ? ? Hnotin Hnd']; subst.
      destruct (eqb_spec k k0) as [-> | Hne]; simpl.
      + now constructor.
      + constructor; [| auto].
        intros Hin. apply (keys_set_in k k0 v d) in Hin.
        destruct Hin as [-> | Hin]; [congruence | contradiction].
  Qed.

Lemma keys_group_in k (es : list (K * X)) d :
    In k (keys (fold_left (group_step eqb) es d))
    <-> In k (keys d) \/ In k (map fst es).
  Proof.
    revert d. induction es as [| [k0 x0] es IH]; intros d; simpl.
    - intuition.
    - rewrite IH. unfold group_step, dd_append. simpl.
      rewrite keys_set_in. intuition.
  Qed.

Lemma keys_group_nodup (es : list (K * X)) d :
    NoDup (keys d) -> NoDup (keys (fold_left (group_step eqb) es d)).
  Proof.
    revert d. induction es as [| e es IH]; intros d Hnd; simpl; [assumption |].
    apply IH. unfold group_step, dd_append. now apply keys_set_nodup.
  Qed.

Lemma in_picked (x : X) k es : In x (picked eqb k es) <-> In (k, x) es.
  Proof.
    unfold picked. rewrite in_map_iff. split.
    - intros ([k0 x0] & Hx & Hin). simpl in Hx. subst x0.
      apply filter_In in Hin as [Hin Hk]. simpl in Hk.
      destruct (eqb_spec k k0); [now subst | discriminate].
    - intros Hin. exists (k, x). split; [reflexivity |].
      apply filter_In. split; [assumption |]. simpl.
      destruct (eqb_spec k k); congruence.
  Qed.

Lemma dict_get_nodup_in {V} k (v : V) d :
    NoDup (keys d) -> In (k, v) d -> dict_get eqb k d = Some v.
  Proof.
    unfold keys. induction d as [| [k0 v0] d IH]; simpl; intros Hnd Hin.
    - contradiction.
    - inversion Hnd as [| ? ? Hnotin Hnd']; subst.
      destruct Hin as [[= -> ->] | Hin].
      + destruct (eqb_spec k k); congruence.
      + destruct (eqb_spec k k0) as [-> | Hne]; [| auto].
        exfalso. apply Hnotin. apply in_map_iff. now exists (k0, v).
  Qed.

Lemma get_or_of_get {V} k (v dflt : V) d :
    dict_get eqb k d = Some v -> get_or eqb k d dflt = v.
  Proof. unfold get_or. now intros ->. Qed.
End Grouping.

(** ** Folds *)

Lemma fold_left_map {A B C} (f : A -> C -> A) (g : B -> C) l a :
  fold_left f (map g l) a = fold_left (fun a b => f a (g b)) l a.
Proof.
  revert a. induction l as [| b l IH]; intros a; simpl; [reflexivity | apply IH].
Qed.

Lemma fold_left_flat_map {A B C} (f : A -> C -> A) (g : B -> list C) l a :
  fold_left f (flat_map g l) a = fold_left (fun a b => fold_left f (g b) a) l a.
Proof.
  revert a. induction l as [| b l IH]; intros a; simpl; [reflexivity |].
  now rewrite fold_left_app, IH.
Qed.

Lemma fold_left_ext_in {A B} (f g : A -> B -> A) l a :
  (forall a b, In b l -> f a b = g a b) -> fold_left f l a = fold_left g l a.
Proof.
  revert a. induction l as [| b l IH]; intros a H; simpl; [reflexivity |].
  rewrite H by now left. apply IH. intros. apply H. now right.
Qed.

Lemma in_enumerate_from {A} (l : list A) i0 i a :
  In (i, a) (enumerate_from i0 l)
  <-> i0 <= i /\ nth_error l (Z.to_nat (i - i0)) = Some a.
Proof.
  revert i0. induction l as [| b l IH]; intros i0; simpl.
  - split; [contradiction |]. intros [_ H]. now destruct (Z.to_nat (i - i0)).
  - rewrite IH. split.
    + intros [[= <- <-] | [Hle Hnth]].
      * rewrite Z.sub_diag. simpl. split; [lia | reflexivity].
      * split; [lia |].
        replace (Z.to_nat (i - i0)) with (S (Z.to_nat (i - (i0 + 1)))) by lia.
        exact Hnth.
    + intros [Hle Hnth].
      destruct (Z.eq_dec i i0) as [-> | Hne].
      * rewrite Z.sub_diag in Hnth. simpl in Hnth. injection Hnth as ->. now left.
      * right. split; [lia |].
        replace (Z.to_nat (i - i0)) with (S (Z.to_nat (i - (i0 + 1)))) in Hnth by lia.
        exact Hnth.
Qed.

Lemma in_enumerate {A} (l : list A) i a :
  In (i, a) (enumerate l) <-> 0 <= i /\ nth_error l (Z.to_nat i) = Some a.
Proof.
  unfold enumerate. rewrite in_enumerate_from. now rewrite Z.sub_0_r.
Qed.

Local Open Scope Z_scope.
Local Open Scope bool_scope.
Import Geometry Sim.

(** ** Who lies where: [_occupied_cells] *)

Lemma occupied_cells_group snakes :
  _occupied_cells snakes = fold_left (group_step Z.eqb) (occ_entries snakes) [].
Proof.
  unfold _occupied_cells, occ_entries. rewrite fold_left_flat_map.
  apply fold_left_ext_in. intros occ [pid s] _. simpl.
  destruct (negb (alive s)); [reflexivity |].
  now rewrite fold_left_map.
Qed.

Lemma occ_get snakes c :
  get_or Z.eqb c (_occupied_cells snakes) [] = occ_at snakes c.
Proof.
  rewrite occupied_cells_group, (get_or_group Z.eqb Z.eqb_spec). reflexivity.
Qed.

Lemma in_occ_at snakes c v k :
  In (v, k) (occ_at snakes c)
  <-> exists s, In (v, s) snakes /\ alive s = true /\ 0 <= k
                /\ nth_error (cells s) (Z.to_nat k) = Some c.
Proof.
  unfold occ_at. rewrite (in_picked Z.eqb Z.eqb_spec).
  unfold occ_entries. rewrite in_flat_map. split.
  - intros ([pid s] & Hin & He). simpl in He.
    destruct (alive s) eqn:Ha; simpl in He; [| contradiction].
    apply in_map_iff in He as ([i c'] & [= -> -> ->] & Hic).
    apply in_enumerate in Hic. exists s. tauto.
  - intros (s & Hin & Ha & Hk & Hnth). exists (v, s). split; [assumption |].
    simpl. rewrite Ha. simpl. apply in_map_iff. exists (k, c).
    split; [reflexivity |]. apply in_enumerate. tauto.
Qed.

(** ** Who bites whom: [bites_by_victim] *)

Lemma bites_fold_entries dead occ snakes acc bites :
  fold_res
    (fun bites ps =>
       let '(attacker_id, s) := ps in
       if negb (alive s) || mem String.eqb attacker_id dead then Ok bites
       else
         match cells s with
         | [] => Raise IndexError
         | head :: _ =>
             Ok (fold_left
                   (fun bites vs =>
                      let '(victim_id, seg_idx) := vs in
                      if seg_idx <=? 0 then bites
                      else record_bite victim_id seg_idx attacker_id bites)
                   (get_or Z.eqb head occ []) bites)
         end) snakes acc = Ok bites ->
  bites = fold_left bite_step (flat_map (attacker_entries dead occ) snakes) acc.
Proof.
  revert acc. induction snakes as [| [a s] snakes IH]; intros acc; simpl.
  - now intros [= ->].
  - rewrite fold_left_app.
    assert (Hent : attacker_entries dead occ (a, s)
                   = if negb (alive s) || mem String.eqb a dead then []
                     else match cells s with
                          | [] => []
                          | head :: _ =>
                              flat_map (fun vs => if snd vs <=? 0 then []
                                                  else [(fst vs, (snd vs, a))])
                                       (get_or Z.eqb head occ [])
                          end) by reflexivity.
    rewrite Hent. clear Hent.
    destruct (negb (alive s) || mem String.eqb a dead); [apply IH |].
    destruct (cells s) as [| head rest]; [discriminate |].
    intros H. apply IH in H. rewrite H. f_equal.
    rewrite fold_left_flat_map. apply fold_left_ext_in.
    intros b [v k] _. simpl. destruct (k <=? 0); reflexivity.
Qed.

Lemma bites_by_victim_of_entries snakes dead bites :
  bites_by_victim_of snakes dead (_occupied_cells snakes) = Ok bites ->
  bites = fold_left bite_step (bite_entries snakes dead) [].
Proof. apply bites_fold_entries. Qed.

Lemma bites_by_victim_of_returns snakes dead occ :
  (forall a s, In (a, s) snakes -> alive s = true -> cells s <> []) ->
  exists bites, bites_by_victim_of snakes dead occ = Ok bites.
Proof.
  unfold bites_by_victim_of. generalize (@nil (string * list (Z * list string))).
  induction snakes as [| [a s] snakes IH]; intros acc Hne; simpl.
  - eauto.
  - destruct (negb (alive s) || mem String.eqb a dead) eqn:Hskip.
    + apply IH. intros. eapply Hne; [right |]; eassumption.
    + apply orb_false_iff in Hskip as [Ha _]. apply negb_false_iff in Ha.
      destruct (cells s) as [| head rest] eqn:Hc.
      * exfalso. eapply Hne; [left; reflexivity | |]; eassumption.
      * apply IH. intros. eapply Hne; [right |]; eassumption.
Qed.

Lemma get_or_record_bite v v' k a bites :
  get_or String.eqb v' (record_bite v k a bites) []
  = if String.eqb v' v then dd_append Z.eqb k a (get_or String.eqb v bites [])
    else get_or String.eqb v' bites [].
Proof.
  unfold record_bite. apply (get_or_set String.eqb String.eqb_spec).
Qed.

Lemma get_or_bites v es bites :
  get_or String.eqb v (fold_left bite_step es bites) []
  = fold_left (group_step Z.eqb) (picked String.eqb v es)
              (get_or String.eqb v bites []).
Proof.
  revert bites. induction es as [| [v0 [k0 a0]] es IH]; intros bites; simpl.
  - reflexivity.
  - rewrite IH. unfold bite_step. simpl. rewrite get_or_record_bite.
    unfold picked. simpl.
    destruct (String.eqb_spec v v0) as [-> | Hne]; reflexivity.
Qed.

Lemma keys_bites_in v es bites :
  In v (keys (fold_left bite_step es bites))
  <-> In v (keys bites) \/ In v (map fst es).
Proof.
  revert bites. induction es as [| [v0 [k0 a0]] es IH]; intros bites; simpl.
  - intuition.
  - rewrite IH. unfold bite_step, record_bite. simpl.
    rewrite (keys_set_in String.eqb String.eqb_spec). intuition.
Qed.

Lemma keys_bites_nodup es bites :
  NoDup (keys bites) -> NoDup (keys (fold_left bite_step es bites)).
Proof.
  revert bites. induction es as [| e es IH]; intros bites Hnd; simpl; [assumption |].
  apply IH. unfold bite_step, record_bite.
  now apply (keys_set_nodup String.eqb String.eqb_spec).
Qed.

Local Open Scope Z_scope.
Local Open Scope bool_scope.
Import Geometry Sim.

(** ** Sorting keeps the elements *)

Section SortedFacts.
Context {A : Type} (leb : A -> A -> bool).

Lemma in_insert_sorted x y l : In x (insert_sorted leb y l) <-> x = y \/ In x l.
  Proof.
    induction l as [| z l IH]; simpl.
    - intuition.
    - destruct (leb y z); simpl; [intuition |]. rewrite IH. intuition.
  Qed.

Lemma in_sorted x l : In x (sorted leb l) <-> In x l.
  Proof.
    unfold sorted. induction l as [| y l IH]; simpl; [reflexivity |].
    rewrite in_insert_sorted, IH. intuition.
  Qed.

Lemma length_insert_sorted y l :
    List.length (insert_sorted leb y l) = S (List.length l).
  Proof.
    induction l as [| z l IH]; simpl; [reflexivity |].
    destruct (leb y z); simpl; [reflexivity | now rewrite IH].
  Qed.

Lemma length_sorted l : List.length (sorted leb l) = List.length l.
  Proof.
    unfold sorted. induction l as [| y l IH]; simpl; [reflexivity |].
    now rewrite length_insert_sorted, IH.
  Qed.

Lemma sorted_nil_inv l : sorted leb l = [] -> l = [].
  Proof.
    intros H. apply (f_equal (@List.length A)) in H.
    rewrite length_sorted in H. now destruct l.
  Qed.
End SortedFacts.

(** ** Crediting scores *)

Lemma total_for_app a l1 l2 :
  total_for a (l1 ++ l2) = total_for a l1 + total_for a l2.
Proof.
  unfold total_for. rewrite filter_app, map_app.
  induction (map snd (filter _ l1)) as [| x l IH]; simpl; lia.
Qed.

Lemma total_app l1 l2 : total (l1 ++ l2) = total l1 + total l2.
Proof.
  unfold total. rewrite map_app.
  induction (map snd l1) as [| x l IH]; simpl; lia.
Qed.

Lemma bump_bump x y s : bump y (bump x s) = bump (x + y) s.
Proof. unfold bump, set_score. simpl. f_equal. lia. Qed.

Lemma bump_0 s : bump 0 s = s.
Proof. destruct s. unfold bump, set_score. simpl. f_equal. lia. Qed.

Lemma keys_credit awards sn : keys (credit awards sn) = keys sn.
Proof.
  unfold credit. revert sn.
  induction awards as [| [a x] awards IH]; intros sn; simpl; [reflexivity |].
  now rewrite IH, keys_update.
Qed.

Lemma credit_app l1 l2 sn : credit (l1 ++ l2) sn = credit l2 (credit l1 sn).
Proof. unfold credit. apply fold_left_app. Qed.

Lemma credit_get a awards sn :
  dict_get String.eqb a (credit awards sn)
  = option_map (bump (total_for a awards)) (dict_get String.eqb a sn).
Proof.
  revert sn. induction awards as [| [a0 x] awards IH]; intros sn.
  - simpl. destruct (dict_get String.eqb a sn) as [s |]; simpl; [| reflexivity].
    now rewrite bump_0.
  - change (credit ((a0, x) :: awards) sn)
      with (credit awards (dict_update String.eqb a0 (bump x) sn)).
    rewrite IH, (dict_get_update String.eqb String.eqb_spec).
    unfold total_for. simpl.
    destruct (String.eqb_spec a a0) as [-> | Hne]; [| reflexivity].
    destruct (dict_get String.eqb a0 sn) as [s |]; simpl; [| reflexivity].
    now rewrite bump_bump.
Qed.

(** ** Running the award loops *)

Lemma put_snakes_same w : put_snakes (snakes (game w)) w = w.
Proof. destruct w as [[] ? ?]. reflexivity. Qed.

Lemma snakes_put_snakes sn w : snakes (game (put_snakes sn w)) = sn.
Proof. reflexivity. Qed.

Lemma put_snakes_twice sn sn' w : put_snakes sn (put_snakes sn' w) = put_snakes sn w.
Proof. reflexivity. Qed.

Lemma add_score_run a x w :
  In a (keys (snakes (game w))) ->
  add_score a x w
  = (put_snakes (dict_update String.eqb a (bump x) (snakes (game w))) w, Ok tt).
Proof.
  intros Hin. unfold add_score, bind, get, snake_of.
  apply (dict_get_in_keys String.eqb String.eqb_spec) in Hin as [s Hs].
  now rewrite Hs.
Qed.

Lemma add_score_each_run attackers share w :
  (forall a, In a attackers -> In a (keys (snakes (game w)))) ->
  for_each attackers (fun a _ => add_score a share) tt w
  = (put_snakes (credit (map (fun a => (a, share)) attackers) (snakes (game w))) w,
     Ok tt).
Proof.
  revert w. induction attackers as [| a attackers IH]; intros w Hin; simpl.
  - now rewrite put_snakes_same.
  - unfold bind. rewrite add_score_run by (apply Hin; now left).
    rewrite IH.
    + reflexivity.
    + intros a' Ha'. rewrite snakes_put_snakes, keys_update. apply Hin. now right.
Qed.

Lemma award_portion_run bite_points bites_at old_len ik w :
  attackers_known bites_at (snakes (game w)) ->
  award_portion bite_points bites_at old_len ik w
  = (put_snakes (credit (portion_of bite_points bites_at old_len ik)
                        (snakes (game w))) w, Ok tt).
Proof.
  intros Hknown. destruct ik as [i k].
  unfold award_portion, portion_of, portion_entries, next_point. simpl.
  set (portion_len := Z.max 0 _).
  assert (Hin : forall a, In a (sorted String.leb (get_or Z.eqb k bites_at []))
                          -> In a (keys (snakes (game w)))).
  { intros a Ha. apply in_sorted in Ha. eapply Hknown, Ha. }
  destruct (sorted String.leb (get_or Z.eqb k bites_at [])) as [| first rest].
  - simpl. now rewrite put_snakes_same.
  - destruct (portion_len <=? 0).
    + simpl. now rewrite put_snakes_same.
    + unfold bind. rewrite add_score_each_run by assumption.
      rewrite credit_app.
      destruct (negb (portion_len mod len (first :: rest) =? 0)).
      * rewrite add_score_run.
        -- reflexivity.
        -- rewrite snakes_put_snakes, keys_credit. apply Hin. now left.
      * reflexivity.
Qed.

Lemma award_loop_run bite_points bites_at old_len iks w :
  attackers_known bites_at (snakes (game w)) ->
  for_each iks (fun ik _ => award_portion bite_points bites_at old_len ik) tt w
  = (put_snakes (credit (flat_map (portion_of bite_points bites_at old_len) iks)
                        (snakes (game w))) w, Ok tt).
Proof.
  revert w. induction iks as [| ik iks IH]; intros w Hknown; simpl.
  - now rewrite put_snakes_same.
  - unfold bind. rewrite award_portion_run by assumption.
    rewrite IH.
    + now rewrite snakes_put_snakes, put_snakes_twice, credit_app.
    + intros k a Ha. rewrite snakes_put_snakes, keys_credit. eapply Hknown, Ha.
Qed.

Local Open Scope Z_scope.
Local Open Scope bool_scope.
Import Geometry Sim.

(** ** One victim *)

Lemma resolve_victim_skip v bites_at dead w :
  processed (snakes (game w)) dead v = false ->
  resolve_victim (v, bites_at) dead w = (w, Ok dead).
Proof.
  unfold processed, resolve_victim, bind, get, snake_of.
  destruct (dict_get String.eqb v (snakes (game w))) as [s |]; [| reflexivity].
  intros H. simpl.
  destruct (alive s); simpl in *; [| reflexivity].
  apply negb_false_iff in H. now rewrite H.
Qed.

Lemma cells_bump x s : cells (bump x s) = cells s.
Proof. reflexivity. Qed.

Lemma resolve_victim_run v bites_at dead w sv :
  snake_of v w = Some sv ->
  processed (snakes (game w)) dead v = true ->
  keys bites_at <> [] ->
  attackers_known bites_at (snakes (game w)) ->
  resolve_victim (v, bites_at) dead w
  = (put_snakes
       (credit (victim_entries bites_at (len (cells sv)))
               (dict_update String.eqb v
                  (set_cells (slice_to (cut_of bites_at) (cells sv)))
                  (snakes (game w)))) w,
     Ok (if len (slice_to (cut_of bites_at) (cells sv)) <? 4
         then set_add String.eqb v dead else dead)).
Proof.
  intros Hs Hproc Hkeys Hknown.
  unfold processed in Hproc. unfold snake_of in Hs. rewrite Hs in Hproc.
  apply andb_true_iff in Hproc as [Halive Hdead].
  apply negb_true_iff in Hdead.
  unfold resolve_victim. unfold bind at 1. unfold get at 1.
  unfold snake_of at 1. rewrite Hs, Halive, Hdead.
  change (negb true || false) with false. cbv iota.
  unfold cut_of, victim_entries.
  destruct (sorted Z.leb (keys bites_at)) as [| cut_at points] eqn:Hsorted.
  { apply sorted_nil_inv in Hsorted. contradiction. }
  simpl hd.
  unfold bind at 1. unfold update_snake at 1, modify at 1.
  unfold bind at 1. cbv beta.
  fold (put_snakes (dict_update String.eqb v
                      (set_cells (slice_to cut_at (cells sv))) (snakes (game w))) w).
  rewrite award_loop_run.
  2:{ intros k a Ha. rewrite snakes_put_snakes, keys_update. eapply Hknown, Ha. }
  rewrite snakes_put_snakes, put_snakes_twice.
  unfold bind, get, snake_of. rewrite snakes_put_snakes.
  rewrite credit_get, (dict_get_update_same String.eqb String.eqb_spec), Hs.
  unfold option_map. cbv iota. rewrite cells_bump. cbn [cells set_cells].
  destruct (len (slice_to cut_at (cells sv)) <? 4); reflexivity.
Qed.

(** ** The whole pass

    Resolving a victim changes its own cells and the scores of its attackers;
    the victims still to come are found as the pass found them at its start. *)

Lemma mem_set_add_other v pid dead :
  pid <> v ->
  mem String.eqb pid (set_add String.eqb v dead) = mem String.eqb pid dead.
Proof.
  intros Hne.
  destruct (mem String.eqb pid dead) eqn:Hm.
  - apply (mem_spec String.eqb String.eqb_spec).
    apply (set_add_spec String.eqb String.eqb_spec). right.
    now apply (mem_spec String.eqb String.eqb_spec).
  - destruct (mem String.eqb pid (set_add String.eqb v dead)) eqn:Hm'; [| reflexivity].
    apply (mem_spec String.eqb String.eqb_spec) in Hm'.
    apply (set_add_spec String.eqb String.eqb_spec) in Hm' as [-> | Hin];
      [contradiction |].
    apply (mem_spec String.eqb String.eqb_spec) in Hin. congruence.
Qed.

Section AfterOneVictim.
Variables (v : string) (sn sn1 : list (string * Snake)) (dead dead1 : list string).
Hypothesis Hoff : forall pid, pid <> v ->
  exists t, dict_get String.eqb pid sn1
            = option_map (bump t) (dict_get String.eqb pid sn).
Hypothesis Hdead : forall pid, pid <> v ->
  mem String.eqb pid dead1 = mem String.eqb pid dead.

Lemma processed_after pid : pid <> v -> processed sn1 dead1 pid = processed sn dead pid.
Proof.
  intros Hne. unfold processed. destruct (Hoff pid Hne) as [t ->].
  rewrite (Hdead pid Hne).
  destruct (dict_get String.eqb pid sn); reflexivity.
Qed.

Lemma victim_awards_after pid b :
  pid <> v -> victim_awards sn1 (pid, b) = victim_awards sn (pid, b).
Proof.
  intros Hne. unfold victim_awards. simpl. destruct (Hoff pid Hne) as [t ->].
  destruct (dict_get String.eqb pid sn); reflexivity.
Qed.

Lemma starved_after pid b :
  pid <> v -> starved sn1 dead1 (pid, b) = starved sn dead (pid, b).
Proof.
  intros Hne. unfold starved. simpl. rewrite (processed_after pid Hne).
  destruct (Hoff pid Hne) as [t ->].
  destruct (dict_get String.eqb pid sn); reflexivity.
Qed.

Lemma pass_awards_after rest :
  ~ In v (keys rest) -> pass_awards sn1 dead1 rest = pass_awards sn dead rest.
Proof.
  unfold pass_awards, keys.
  induction rest as [| [v' b'] rest IH]; intros Hnin; simpl; [reflexivity |].
  simpl in Hnin. assert (Hne : v' <> v) by tauto.
  rewrite (processed_after v' Hne), (victim_awards_after v' b' Hne), IH by tauto.
  reflexivity.
Qed.

Lemma pass_dead_after rest acc :
  ~ In v (keys rest) -> pass_dead sn1 dead1 rest acc = pass_dead sn dead rest acc.
Proof.
  unfold pass_dead, keys. revert acc.
  induction rest as [| [v' b'] rest IH]; intros acc Hnin; simpl; [reflexivity |].
  simpl in Hnin. assert (Hne : v' <> v) by tauto.
  rewrite (starved_after v' b' Hne). apply IH. tauto.
Qed.

Lemma truncated_after rest pid s :
  ~ In v (keys rest) -> truncated sn1 dead1 rest pid s = truncated sn dead rest pid s.
Proof.
  intros Hnin. unfold truncated.
  destruct (dict_get String.eqb pid rest) as [b |] eqn:Hget; [| reflexivity].
  assert (Hne : pid <> v).
  { intros ->. apply Hnin.
    apply (dict_get_some_in String.eqb String.eqb_spec) in Hget.
    unfold keys. apply in_map_iff. now exists (v, b). }
  now rewrite (processed_after pid Hne).
Qed.
End AfterOneVictim.

Lemma truncated_bump sn dead bites pid x s :
  truncated sn dead bites pid (bump x s) = bump x (truncated sn dead bites pid s).
Proof.
  unfold truncated. destruct (dict_get String.eqb pid bites); [| reflexivity].
  destruct (processed sn dead pid); reflexivity.
Qed.

Lemma truncated_absent sn dead bites pid s :
  ~ In pid (keys bites) -> truncated sn dead bites pid s = s.
Proof.
  intros Hnin. unfold truncated.
  destruct (dict_get String.eqb pid bites) as [b |] eqn:Hget; [| reflexivity].
  exfalso. apply Hnin.
  apply (dict_get_some_in String.eqb String.eqb_spec) in Hget.
  unfold keys. apply in_map_iff. now exists (pid, b).
Qed.

Lemma pass_dead_cons sn dead vb rest acc :
  pass_dead sn dead (vb :: rest) acc
  = pass_dead sn dead rest
      (if starved sn dead vb then set_add String.eqb (fst vb) acc else acc).
Proof. reflexivity. Qed.

Lemma pass_awards_cons sn dead vb rest :
  pass_awards sn dead (vb :: rest)
  = (if processed sn dead (fst vb) then victim_awards sn vb else [])
    ++ pass_awards sn dead rest.
Proof. reflexivity. Qed.

Theorem bite_pass_run bites : forall w dead,
  NoDup (keys bites) ->
  (forall v b, In (v, b) bites ->
     keys b <> [] /\ attackers_known b (snakes (game w))) ->
  exists sn',
    for_each bites resolve_victim dead w
    = (put_snakes sn' w, Ok (pass_dead (snakes (game w)) dead bites dead))
    /\ keys sn' = keys (snakes (game w))
    /\ forall pid,
         dict_get String.eqb pid sn'
         = option_map
             (fun s => bump (total_for pid (pass_awards (snakes (game w)) dead bites))
                            (truncated (snakes (game w)) dead bites pid s))
             (dict_get String.eqb pid (snakes (game w))).
Proof.
  induction bites as [| [v b] rest IH]; intros w dead Hnd Hwf.
  - exists (snakes (game w)). simpl. rewrite put_snakes_same.
    split; [reflexivity |]. split; [reflexivity |].
    intros pid. destruct (dict_get String.eqb pid (snakes (game w))) as [s |];
      [| reflexivity].
    simpl. unfold truncated. simpl. now rewrite bump_0.
  - unfold keys in Hnd. simpl in Hnd.
    inversion Hnd as [| ? ? Hnin Hnd']; subst.
    change (map fst rest) with (keys rest) in Hnin, Hnd'.
    set (sn := snakes (game w)) in *.
    change (for_each ((v, b) :: rest) resolve_victim dead w)
      with (bind (resolve_victim (v, b) dead)
                 (fun acc' => for_each rest resolve_victim acc') w).
    unfold bind at 1.
    destruct (processed sn dead v) eqn:Hproc.
    + (* the victim is resolved *)
      assert (Hsv : exists sv, snake_of v w = Some sv).
      { unfold processed in Hproc. unfold snake_of. fold sn.
        destruct (dict_get String.eqb v sn) as [sv |]; [eauto | discriminate]. }
      destruct Hsv as [sv Hsv].
      destruct (Hwf v b (or_introl eq_refl)) as [Hkeys Hknown].
      rewrite (resolve_victim_run v b dead w sv Hsv Hproc Hkeys Hknown).
      fold sn.
      set (E := victim_entries b (len (cells sv))).
      set (cut := slice_to (cut_of b) (cells sv)).
      set (sn1 := credit E (dict_update String.eqb v (set_cells cut) sn)).
      set (dead1 := if len cut <? 4 then set_add String.eqb v dead else dead).
      assert (Hkeys1 : keys sn1 = keys sn).
      { unfold sn1. now rewrite keys_credit, keys_update. }
      destruct (IH (put_snakes sn1 w) dead1 Hnd') as (sn' & Hrun & Hk & Hget).
      { intros v' b' Hin'. destruct (Hwf v' b' (or_intror Hin')) as [Hk' Hknown'].
        split; [assumption |]. intros k a Ha.
        rewrite snakes_put_snakes, Hkeys1. eapply Hknown', Ha. }
      rewrite snakes_put_snakes in Hrun, Hk, Hget.
      rewrite put_snakes_twice in Hrun.
      assert (Hoff : forall pid, pid <> v ->
                exists t, dict_get String.eqb pid sn1
                          = option_map (bump t) (dict_get String.eqb pid sn)).
      { intros pid Hne. exists (total_for pid E). unfold sn1.
        now rewrite credit_get, (dict_get_update_other String.eqb String.eqb_spec). }
      assert (Hdead : forall pid, pid <> v ->
                mem String.eqb pid dead1 = mem String.eqb pid dead).
      { intros pid Hne. unfold dead1. destruct (len cut <? 4); [| reflexivity].
        now apply mem_set_add_other. }
      exists sn'. split; [| split].
      * rewrite Hrun. f_equal. f_equal.
        rewrite (pass_dead_after v sn sn1 dead dead1 Hoff Hdead rest dead1 Hnin).
        rewrite pass_dead_cons.
        assert (Hst : starved sn dead (v, b) = (len cut <? 4)).
        { unfold starved. simpl fst. simpl snd. rewrite Hproc.
          unfold snake_of in Hsv. fold sn in Hsv. now rewrite Hsv. }
        now rewrite Hst.
      * congruence.
      * intros pid. rewrite Hget.
        rewrite (pass_awards_after v sn sn1 dead dead1 Hoff Hdead rest Hnin).
        rewrite pass_awards_cons. simpl fst. rewrite Hproc.
        assert (Hva : victim_awards sn (v, b) = E).
        { unfold victim_awards. simpl. unfold snake_of in Hsv. fold sn in Hsv.
          now rewrite Hsv. }
        rewrite Hva, total_for_app.
        assert (Hg1 : dict_get String.eqb pid sn1
                      = option_map (bump (total_for pid E))
                          (if String.eqb pid v
                           then option_map (set_cells cut) (dict_get String.eqb v sn)
                           else dict_get String.eqb pid sn)).
        { unfold sn1.
          now rewrite credit_get, (dict_get_update String.eqb String.eqb_spec). }
        rewrite Hg1. clear Hg1.
        destruct (String.eqb_spec pid v) as [-> | Hne].
        -- unfold snake_of in Hsv. fold sn in Hsv. rewrite Hsv. simpl.
           rewrite (truncated_absent sn1 dead1 rest v) by assumption.
           rewrite bump_bump. unfold truncated. simpl.
           rewrite String.eqb_refl, Hproc. reflexivity.
        -- destruct (dict_get String.eqb pid sn) as [s |]; [| reflexivity].
           simpl.
           rewrite (truncated_after v sn sn1 dead dead1 Hoff Hdead rest pid _ Hnin).
           rewrite truncated_bump, bump_bump.
           unfold truncated. simpl.
           destruct (String.eqb_spec pid v) as [-> | _]; [contradiction |].
           reflexivity.
    + (* the victim is skipped *)
      rewrite (resolve_victim_skip v b dead w Hproc).
      destruct (IH w dead Hnd') as (sn' & Hrun & Hk & Hget).
      { intros v' b' Hin'. apply (Hwf v' b'). now right. }
      fold sn in Hrun, Hk, Hget.
      exists sn'. split; [| split].
      * rewrite Hrun. f_equal. f_equal.
        rewrite pass_dead_cons.
        assert (Hst : starved sn dead (v, b) = false).
        { unfold starved. simpl fst. now rewrite Hproc. }
        now rewrite Hst.
      * assumption.
      * intros pid. rewrite Hget.
        rewrite pass_awards_cons. simpl fst. rewrite Hproc. simpl app.
        destruct (dict_get String.eqb pid sn) as [s |]; [| reflexivity].
        simpl. f_equal. f_equal.
        unfold truncated at 2. simpl.
        destruct (String.eqb_spec pid v) as [-> | Hne].
        -- rewrite Hproc. now apply truncated_absent.
        -- reflexivity.
Qed.

Local Open Scope Z_scope.
Local Open Scope bool_scope.
Import Geometry Sim.

(** ** Sorted bite points *)

Lemma insert_sorted_sorted x l :
  Sorted Z.le l -> Sorted Z.le (insert_sorted Z.leb x l).
Proof.
  induction l as [| y l IH]; intros Hs; simpl.
  - repeat constructor.
  - destruct (Z.leb_spec x y) as [Hle | Hgt].
    + constructor; [assumption | now constructor].
    + inversion Hs as [| ? ? Hs' Hhd]; subst.
      constructor; [now apply IH |].
      destruct l as [| z l]; simpl.
      * constructor. lia.
      * destruct (Z.leb_spec x z); constructor; [lia |].
        now inversion Hhd.
Qed.

Lemma sorted_sorted l : Sorted Z.le (sorted Z.leb l).
Proof.
  unfold sorted. induction l as [| x l IH]; simpl; [constructor |].
  now apply insert_sorted_sorted.
Qed.

(** ** One portion pays out its length *)

Lemma total_shares (attackers : list string) share :
  total (map (fun a => (a, share)) attackers) = share * len attackers.
Proof.
  unfold total, len. induction attackers as [| a l IH]; simpl List.length.
  - simpl. lia.
  - simpl map. simpl fold_right. rewrite IH. lia.
Qed.

Lemma total_portion_entries attackers portion_len :
  attackers <> [] -> 0 <= portion_len ->
  total (portion_entries attackers portion_len) = portion_len.
Proof.
  intros Hne Hpos. unfold portion_entries.
  destruct attackers as [| first rest]; [contradiction |].
  destruct (Z.leb_spec portion_len 0) as [Hle | Hgt]; [unfold total; simpl; lia |].
  assert (Hlen : 0 < len (first :: rest)) by (unfold len; simpl; lia).
  rewrite total_app, total_shares.
  pose proof (Z.div_mod portion_len (len (first :: rest))) as Hdm.
  destruct (Z.eqb_spec (portion_len mod len (first :: rest)) 0) as [Hz | Hnz];
    unfold total; simpl; lia.
Qed.



(** ** The portions of a victim add up to what was cut off *)

Lemma nth_app_suffix {A} (pre : list A) x suf d :
  nth (List.length pre) (pre ++ x :: suf) d = x.
Proof. induction pre as [| y pre IH]; simpl; [reflexivity | exact IH]. Qed.

Lemma next_point_suffix pre k suf old_len :
  next_point (pre ++ k :: suf) old_len (len pre) = hd old_len suf.
Proof.
  unfold next_point, len.
  rewrite length_app. simpl List.length.
  destruct suf as [| k' suf']; simpl List.length; simpl hd.
  - destruct (Z.ltb_spec (Z.of_nat (List.length pre) + 1)
                         (Z.of_nat (List.length pre + 1))); [lia | reflexivity].
  - destruct (Z.ltb_spec (Z.of_nat (List.length pre) + 1)
                         (Z.of_nat (List.length pre + S (S (List.length suf')))));
      [| lia].
    replace (Z.to_nat (Z.of_nat (List.length pre) + 1))
      with (List.length (pre ++ [k])) by (rewrite length_app; simpl; lia).
    replace (pre ++ k :: k' :: suf') with ((pre ++ [k]) ++ k' :: suf')
      by (now rewrite <- app_assoc).
    apply nth_app_suffix.
Qed.

Section Portions.
Variables (bites_at : list (Z * list string)) (old_len : Z).

Lemma portions_suffix suf : forall pre,
  flat_map (portion_of (pre ++ suf) bites_at old_len) (enumerate_from (len pre) suf)
  = flat_map
      (fun seg => portion_entries
                    (sorted String.leb (get_or Z.eqb (fst seg) bites_at []))
                    (Z.max 0 (snd seg - fst seg)))
      (spec_segments suf old_len).
Proof.
  induction suf as [| k suf IH]; intros pre; simpl; [reflexivity |].
  f_equal.
  - unfold portion_of. simpl fst. simpl snd. now rewrite next_point_suffix.
  - replace (pre ++ k :: suf) with ((pre ++ [k]) ++ suf) by (now rewrite <- app_assoc).
    replace (len pre + 1) with (len (pre ++ [k]))
      by (unfold len; rewrite length_app; simpl; lia).
    apply IH.
Qed.

Lemma victim_entries_segments :
  victim_entries bites_at old_len
  = flat_map
      (fun seg => portion_entries
                    (sorted String.leb (get_or Z.eqb (fst seg) bites_at []))
                    (Z.max 0 (snd seg - fst seg)))
      (spec_segments (sorted Z.leb (keys bites_at)) old_len).
Proof.
  unfold victim_entries, enumerate.
  exact (portions_suffix (sorted Z.leb (keys bites_at)) []).
Qed.


Lemma total_segments cuts :
  Sorted Z.le cuts -> (forall k, In k cuts -> k <= old_len) ->
  (forall k, In k cuts -> get_or Z.eqb k bites_at [] <> []) ->
  total (flat_map
           (fun seg => portion_entries
                         (sorted String.leb (get_or Z.eqb (fst seg) bites_at []))
                         (Z.max 0 (snd seg - fst seg)))
           (spec_segments cuts old_len))
  = match cuts with
    | [] => 0
    | k :: _ => old_len - k
    end.
Proof.
  induction cuts as [| k rest IH]; intros Hs Hle Hne; simpl; [reflexivity |].
  inversion Hs as [| ? ? Hs' Hhd]; subst.
  rewrite total_app, IH; try assumption.
  2:{ intros x Hx. apply Hle. now right. }
  2:{ intros x Hx. apply Hne. now right. }
  rewrite total_portion_entries.
  - destruct rest as [| k' rest]; simpl hd.
    + assert (k <= old_len) by (apply Hle; now left). lia.
    + assert (k <= k') by now inversion Hhd.
      assert (k' <= old_len) by (apply Hle; right; now left). lia.
  - intros Hnil. apply sorted_nil_inv in Hnil. eapply Hne; [now left | exact Hnil].
  - lia.
Qed.
End Portions.

Lemma cut_of_in bites_at :
  keys bites_at <> [] -> In (cut_of bites_at) (keys bites_at).
Proof.
  intros Hne. unfold cut_of.
  destruct (sorted Z.leb (keys bites_at)) as [| k rest] eqn:Hs.
  - apply sorted_nil_inv in Hs. contradiction.
  - simpl. apply (in_sorted Z.leb). rewrite Hs. now left.
Qed.

(** The awards for a victim add up to the number of cells cut off. *)
Lemma total_victim_entries bites_at old_len :
  keys bites_at <> [] -> bites_in_body bites_at old_len ->
  total (victim_entries bites_at old_len) = old_len - cut_of bites_at.
Proof.
  intros Hne Hbody. rewrite victim_entries_segments, total_segments.
  - unfold cut_of. destruct (sorted Z.leb (keys bites_at)) as [| k rest] eqn:Hs.
    + apply sorted_nil_inv in Hs. contradiction.
    + reflexivity.
  - apply sorted_sorted.
  - intros k Hk. apply in_sorted in Hk. destruct (Hbody k Hk). lia.
  - intros k Hk. apply in_sorted in Hk. now destruct (Hbody k Hk).
Qed.


Lemma length_slice_to {A} (k : Z) (l : list A) :
  0 <= k <= len l -> len (slice_to k l) = k.
Proof.
  intros Hk. unfold slice_to, len in *.
  destruct (Z.ltb_spec k 0); [lia |].
  rewrite length_firstn. lia.
Qed.

Local Open Scope Z_scope.
Local Open Scope bool_scope.
Import Geometry Sim.

(** ** What the recorded bites are *)

Lemma in_bite_entries sn dead v k a :
  In (v, (k, a)) (bite_entries sn dead)
  <-> exists sa h rest,
        In (a, sa) sn /\ alive sa = true /\ mem String.eqb a dead = false
        /\ cells sa = h :: rest /\ 0 < k /\ In (v, k) (occ_at sn h).
Proof.
  unfold bite_entries. rewrite in_flat_map. split.
  - intros ([a' sa] & Hin & He). unfold attacker_entries in He. simpl in He.
    destruct (alive sa) eqn:Ha; simpl in He; [| contradiction].
    destruct (mem String.eqb a' dead) eqn:Hd; simpl in He; [contradiction |].
    destruct (cells sa) as [| h rest] eqn:Hc; [contradiction |].
    rewrite occ_get in He. apply in_flat_map in He as ([v' k'] & Hocc & Hvk).
    simpl in Hvk. destruct (Z.leb_spec k' 0) as [| Hpos]; [contradiction |].
    destruct Hvk as [[= -> -> ->] | []].
    exists sa, h, rest. tauto.
  - intros (sa & h & rest & Hin & Ha & Hd & Hc & Hk & Hocc).
    exists (a, sa). split; [assumption |].
    unfold attacker_entries. simpl. rewrite Ha, Hd, Hc. simpl.
    rewrite occ_get. apply in_flat_map. exists (v, k). split; [assumption |].
    simpl. destruct (Z.leb_spec k 0); [lia | now left].
Qed.

Section RecordedBites.
Variables (sn : list (string * Snake)) (dead : list string).
Variable bites : list (string * list (Z * list string)).
Hypothesis Hnodup : NoDup (keys sn).
Hypothesis Hbites : bites_by_victim_of sn dead (_occupied_cells sn) = Ok bites.

Lemma bites_nodup : NoDup (keys bites).
Proof.
  rewrite (bites_by_victim_of_entries sn dead bites Hbites).
  apply keys_bites_nodup. constructor.
Qed.

Lemma bites_at_group v b :
  In (v, b) bites ->
  b = fold_left (group_step Z.eqb) (picked String.eqb v (bite_entries sn dead)) [].
Proof.
  intros Hin.
  pose proof (dict_get_nodup_in String.eqb String.eqb_spec v b bites bites_nodup Hin)
    as Hget.
  apply (get_or_of_get String.eqb v b []) in Hget.
  rewrite <- Hget at 1.
  rewrite (bites_by_victim_of_entries sn dead bites Hbites) at 1.
  apply get_or_bites.
Qed.

Lemma in_bite_points v b k :
  In (v, b) bites ->
  (In k (keys b) <-> exists a, In (v, (k, a)) (bite_entries sn dead)).
Proof.
  intros Hin. rewrite (bites_at_group v b Hin).
  rewrite (keys_group_in Z.eqb Z.eqb_spec). simpl. split.
  - intros [[] | Hk]. apply in_map_iff in Hk as ([k' a] & Hk & Hka).
    simpl in Hk. subst k'. exists a.
    now apply (in_picked String.eqb String.eqb_spec) in Hka.
  - intros [a Ha]. right. apply in_map_iff. exists (k, a).
    split; [reflexivity |]. now apply (in_picked String.eqb String.eqb_spec).
Qed.

Lemma in_attackers_at v b k a :
  In (v, b) bites ->
  (In a (get_or Z.eqb k b []) <-> In (v, (k, a)) (bite_entries sn dead)).
Proof.
  intros Hin. rewrite (bites_at_group v b Hin).
  rewrite (get_or_group Z.eqb Z.eqb_spec). simpl.
  rewrite (in_picked Z.eqb Z.eqb_spec).
  apply (in_picked String.eqb String.eqb_spec).
Qed.

Lemma victim_has_bite v b : In (v, b) bites -> keys b <> [].
Proof.
  intros Hin.
  assert (Hv : In v (keys bites)).
  { unfold keys. apply in_map_iff. now exists (v, b). }
  rewrite (bites_by_victim_of_entries sn dead bites Hbites) in Hv.
  apply keys_bites_in in Hv as [[] | Hv].
  apply in_map_iff in Hv as ([v' [k a]] & Hv' & He). simpl in Hv'. subst v'.
  assert (Hk : In k (keys b)) by (apply (in_bite_points v b k Hin); eauto).
  intros Hnil. rewrite Hnil in Hk. contradiction.
Qed.

Lemma attackers_are_snakes v b : In (v, b) bites -> attackers_known b sn.
Proof.
  intros Hin k a Ha. apply (in_attackers_at v b k a Hin) in Ha.
  apply in_bite_entries in Ha as (sa & h & rest & Hsa & _).
  unfold keys. apply in_map_iff. now exists (a, sa).
Qed.


Lemma bites_lie_in_body v b s :
  In (v, b) bites -> dict_get String.eqb v sn = Some s ->
  bites_in_body b (len (cells s)).
Proof.
  intros Hin Hs k Hk.
  apply (in_bite_points v b k Hin) in Hk as [a Ha].
  split.
  - apply in_bite_entries in Ha as (sa & h & rest & _ & _ & _ & _ & Hpos & Hocc).
    apply in_occ_at in Hocc as (s' & Hs' & _ & _ & Hnth).
    apply (dict_get_nodup_in String.eqb String.eqb_spec v s' sn Hnodup) in Hs'.
    rewrite Hs in Hs'. injection Hs' as <-.
    assert (Hlt : (Z.to_nat k < List.length (cells s))%nat).
    { apply nth_error_Some. congruence. }
    unfold len. lia.
  - apply (in_attackers_at v b k a Hin) in Ha.
    intros Hnil. rewrite Hnil in Ha. contradiction.
Qed.
End RecordedBites.

Lemma head_cells_of_returns sn :
  (forall a s, In (a, s) sn -> alive s = true -> cells s <> []) ->
  exists head_cells, head_cells_of sn = Ok head_cells.
Proof.
  unfold head_cells_of. generalize (@nil (Z * list string)).
  induction sn as [| [a s] sn IH]; intros acc Hne; simpl.
  - eauto.
  - destruct (alive s) eqn:Ha.
    + destruct (cells s) as [| h rest] eqn:Hc.
      * exfalso. eapply Hne; [left; reflexivity | |]; eassumption.
      * apply IH. intros. eapply Hne; [right |]; eassumption.
    + apply IH. intros. eapply Hne; [right |]; eassumption.
Qed.

Lemma heads_present_in w :
  NoDup (keys (snakes (game w))) -> heads_present w ->
  forall a s, In (a, s) (snakes (game w)) -> alive s = true -> cells s <> [].
Proof.
  intros Hnd Hheads a s Hin. apply (Hheads a s). unfold snake_of.
  now apply (dict_get_nodup_in String.eqb String.eqb_spec).
Qed.

(** ** The collision phase, end to end *)

Theorem collide_run w :
  NoDup (keys (snakes (game w))) -> heads_present w ->
  exists head_cells bites sn',
    head_cells_of (snakes (game w)) = Ok head_cells
    /\ bites_by_victim_of (snakes (game w)) (head_on_dead head_cells)
                          (_occupied_cells (snakes (game w))) = Ok bites
    /\ collide w
       = (put_snakes sn' w,
          Ok (pass_dead (snakes (game w)) (head_on_dead head_cells) bites
                        (head_on_dead head_cells)))
    /\ keys sn' = keys (snakes (game w))
    /\ forall pid,
         dict_get String.eqb pid sn'
         = option_map
             (fun s => bump (total_for pid (pass_awards (snakes (game w))
                                              (head_on_dead head_cells) bites))
                            (truncated (snakes (game w)) (head_on_dead head_cells)
                                       bites pid s))
             (dict_get String.eqb pid (snakes (game w))).
Proof.
  intros Hnd Hheads.
  pose proof (heads_present_in w Hnd Hheads) as Hin.
  destruct (head_cells_of_returns _ Hin) as [head_cells Hhc].
  destruct (bites_by_victim_of_returns (snakes (game w)) (head_on_dead head_cells)
              (_occupied_cells (snakes (game w))) Hin) as [bites Hb].
  destruct (bite_pass_run bites w (head_on_dead head_cells)) as (sn' & Hrun & Hk & Hget).
  - exact (bites_nodup _ _ _ Hb).
  - intros v b Hvb. split.
    + exact (victim_has_bite _ _ _ Hb v b Hvb).
    + exact (attackers_are_snakes _ _ _ Hb v b Hvb).
  - exists head_cells, bites, sn'. repeat split; try assumption.
    unfold collide, bind, get, lift. rewrite Hhc, Hb. exact Hrun.
Qed.

Local Open Scope Z_scope.
Local Open Scope bool_scope.
Import Geometry Sim.

(** ** The specification's split pays out the segment *)









(** Scenario 3 of the specification: A bites B, 10 cells long, at segment 3;
    B keeps 3 cells, A's score grows by 7, and B joins the dead. *)
Example scenario_bite_at_3 :
  let r := collide Demo.world_bite in
  snd r = Ok ["B"]%string
  /\ option_map cells (snake_of "B" (fst r)) = Some [256; 257; 258]
  /\ option_map score (snake_of "A" (fst r)) = Some (5 + 7)
  /\ option_map score (snake_of "B" (fst r)) = Some 2.
Proof. vm_compute. repeat split. Qed.

Local Open Scope Z_scope.
Local Open Scope bool_scope.
Import Geometry Sim.

(** ** Who is paid by the awards of a victim *)

Lemma in_portion_entries a x attackers portion_len :
  In (a, x) (portion_entries attackers portion_len) -> In a attackers.
Proof.
  unfold portion_entries. destruct attackers as [| first rest]; [contradiction |].
  destruct (portion_len <=? 0); [contradiction |].
  rewrite in_app_iff. intros [Hin | Hin].
  - apply in_map_iff in Hin as (a' & [= -> _] & Hin). exact Hin.
  - destruct (negb _); [| contradiction].
    destruct Hin as [[= -> _] | []]. now left.
Qed.

Lemma in_victim_entries a x bites_at old_len :
  In (a, x) (victim_entries bites_at old_len) ->
  exists k, In k (keys bites_at) /\ In a (get_or Z.eqb k bites_at []).
Proof.
  unfold victim_entries. intros Hin.
  apply in_flat_map in Hin as ([i k] & Hik & Hin).
  unfold portion_of in Hin. simpl in Hin.
  apply in_portion_entries, in_sorted in Hin.
  exists k. split; [| assumption].
  apply in_enumerate in Hik as [_ Hnth]. apply nth_error_In in Hnth.
  now apply in_sorted in Hnth.
Qed.

Lemma total_for_all a awards :
  (forall a' x, In (a', x) awards -> a' = a) -> total_for a awards = total awards.
Proof.
  unfold total_for, total. induction awards as [| [a' x] l IH]; intros H; simpl.
  - reflexivity.
  - rewrite (H a' x (or_introl eq_refl)), String.eqb_refl. simpl.
    rewrite IH; [reflexivity |]. intros. eapply H. right. eassumption.
Qed.

Lemma total_for_none a awards :
  (forall x, ~ In (a, x) awards) -> total_for a awards = 0.
Proof.
  unfold total_for. induction awards as [| [a' x] l IH]; intros H; simpl.
  - reflexivity.
  - destruct (String.eqb_spec a a') as [-> | Hne].
    + exfalso. apply (H x). now left.
    + apply IH. intros y Hy. apply (H y). now right.
Qed.

Lemma total_for_flat_map_zero {A} a (f : A -> list (string * Z)) l :
  (forall x, In x l -> total_for a (f x) = 0) ->
  total_for a (flat_map f l) = 0.
Proof.
  induction l as [| x l IH]; intros Hz; simpl; [reflexivity |].
  rewrite total_for_app, Hz, IH; [reflexivity | | now left].
  intros y Hy. apply Hz. now right.
Qed.

Lemma total_for_flat_map_single {A} a (f : A -> list (string * Z)) l x0 :
  NoDup l -> In x0 l ->
  (forall x, In x l -> x <> x0 -> total_for a (f x) = 0) ->
  total_for a (flat_map f l) = total_for a (f x0).
Proof.
  induction l as [| x l IH]; intros Hnd Hin Hz; [contradiction |].
  inversion Hnd as [| ? ? Hnotin Hnd']; subst.
  simpl. rewrite total_for_app.
  destruct Hin as [-> | Hin].
  - rewrite total_for_flat_map_zero; [lia |].
    intros y Hy. apply Hz; [now right |]. intros ->. contradiction.
  - rewrite IH; try assumption.
    + rewrite Hz; [lia | now left |]. intros ->. contradiction.
    + intros y Hy Hne. apply Hz; [now right | assumption].
Qed.

Lemma nodup_keys_nodup {K V} (d : list (K * V)) : NoDup (keys d) -> NoDup d.
Proof. unfold keys. apply NoDup_map_inv. Qed.

(** ** Who joins the dead in the bite pass *)

Lemma in_pass_dead sn dead bites acc p :
  In p (pass_dead sn dead bites acc)
  <-> In p acc \/ exists b, In (p, b) bites /\ starved sn dead (p, b) = true.
Proof.
  unfold pass_dead. revert acc.
  induction bites as [| [v b] rest IH]; intros acc; simpl.
  - split; [auto | intros [H | (b & [] & _)]; assumption].
  - rewrite IH. split.
    + intros [Hacc | (b' & Hin & Hst)].
      * destruct (starved sn dead (v, b)) eqn:Hst; [| auto].
        apply (set_add_spec String.eqb String.eqb_spec) in Hacc as [-> | Hacc];
          [right; exists b; auto | auto].
      * right. exists b'. auto.
    + intros [Hacc | (b' & [[= -> ->] | Hin] & Hst)].
      * left. destruct (starved sn dead (v, b)); [| assumption].
        apply (set_add_spec String.eqb String.eqb_spec). now right.
      * left. rewrite Hst. simpl.
        apply (set_add_spec String.eqb String.eqb_spec). now left.
      * right. exists b'. auto.
Qed.

(** ** Bites, read off the world *)

Lemma bites_segment_entries w dead a v k :
  NoDup (keys (snakes (game w))) ->
  (In (v, (k, a)) (bite_entries (snakes (game w)) dead)
   <-> bites_segment w dead a v k).
Proof.
  intros Hnd. rewrite in_bite_entries. unfold bites_segment, snake_of. split.
  - intros (sa & h & rest & Hsa & Ha & Hd & Hc & Hk & Hocc).
    apply in_occ_at in Hocc as (sv & Hsv & Hav & _ & Hnth).
    exists sa, sv, h, rest.
    rewrite !(dict_get_nodup_in String.eqb String.eqb_spec _ _ _ Hnd) by eassumption.
    repeat split; try assumption; try lia.
    intros Hin. apply (mem_spec String.eqb String.eqb_spec) in Hin. congruence.
  - intros (sa & sv & h & rest & Hsa & Ha & Hd & Hc & Hsv & Hav & Hk & Hnth).
    exists sa, h, rest.
    apply (dict_get_some_in String.eqb String.eqb_spec) in Hsa, Hsv.
    repeat split; try assumption; try lia.
    + destruct (mem String.eqb a dead) eqn:Hm; [| reflexivity].
      apply (mem_spec String.eqb String.eqb_spec) in Hm. contradiction.
    + apply in_occ_at. exists sv. repeat split; try assumption. lia.
Qed.

(** C9, amended. If during the collision phase an alive snake's head lies on
    its own body at segment [j >= 1], the snake is not in the head-on dead
    set, and this self-bite is the only bite that the snake takes part in
    (no other snake bites it, and its head lies on no other segment), then
    the bite pass truncates the snake to its first [j] cells, adds (length
    before truncation minus [j]) to its own score, and marks it dead exactly
    when [j < 4]. *)
Theorem self_bite_alone w head_cells A s j :
  NoDup (keys (snakes (game w))) ->
  heads_present w ->
  head_cells_of (snakes (game w)) = Ok head_cells ->
  snake_of A w = Some s ->
  bites_segment w (head_on_dead head_cells) A A j ->
  (forall a v k, bites_segment w (head_on_dead head_cells) a v k ->
                 a = A \/ v = A -> a = A /\ v = A /\ k = j) ->
  exists w' dead' s',
    collide w = (w', Ok dead')
    /\ snake_of A w' = Some s'
    /\ cells s' = firstn (Z.to_nat j) (cells s)
    /\ score s' = score s + (len (cells s) - j)
    /\ (In A dead' <-> j < 4).
Proof.
  intros Hnd Hheads Hhc Hs Hself Honly.
  destruct (collide_run w Hnd Hheads)
    as (head_cells' & bites & sn' & Hhc' & Hb & Hrun & Hkeys & Hget).
  rewrite Hhc in Hhc'. injection Hhc' as <-.
  set (sn := snakes (game w)) in *.
  set (dead := head_on_dead head_cells) in *.
  (* the snake is alive, not dead, and its index j lies in its body *)
  assert (Hself' : bites_segment w dead A A j) by exact Hself.
  destruct Hself as (sa & sv & h & rest & Hsa & Halive & Hnotdead & Hcells
                     & Hsv & _ & Hj & Hnth).
  rewrite Hs in Hsa, Hsv.
  injection Hsa as Hsa. injection Hsv as Hsv. subst sa sv.
  assert (Hjlen : j < len (cells s)).
  { assert ((Z.to_nat j < List.length (cells s))%nat)
      by (apply nth_error_Some; congruence).
    unfold len. lia. }
  (* its entry in the recorded bites *)
  assert (Hentry : In (A, (j, A)) (bite_entries sn dead))
    by now apply (bites_segment_entries w dead A A j Hnd).
  assert (HA : exists b, In (A, b) bites).
  { assert (Hk : In A (keys bites)).
    { rewrite (bites_by_victim_of_entries sn dead bites Hb).
      apply keys_bites_in. right. apply in_map_iff. now exists (A, (j, A)). }
    apply (dict_get_in_keys String.eqb String.eqb_spec) in Hk as [b Hk].
    exists b. now apply (dict_get_some_in String.eqb String.eqb_spec). }
  destruct HA as [b HAb].
  pose proof (bites_nodup sn dead bites Hb) as Hbnd.
  assert (Hkeys_b : forall k, In k (keys b) -> k = j).
  { intros k Hk. apply (in_bite_points sn dead bites Hb A b k HAb) in Hk as [a Ha].
    apply (bites_segment_entries w dead a A k Hnd) in Ha.
    now destruct (Honly a A k Ha (or_intror eq_refl)) as (_ & _ & ->). }
  pose proof (victim_has_bite sn dead bites Hb A b HAb) as Hne.
  assert (Hcut : cut_of b = j) by (apply Hkeys_b, cut_of_in, Hne).
  assert (Hproc : processed sn dead A = true).
  { unfold processed. unfold snake_of in Hs. fold sn in Hs. rewrite Hs, Halive.
    destruct (mem String.eqb A dead) eqn:Hm; [| reflexivity].
    apply (mem_spec String.eqb String.eqb_spec) in Hm. contradiction. }
  pose proof (bites_lie_in_body sn dead bites Hnd Hb A b s HAb Hs) as Hbody.
  assert (Htr : truncated sn dead bites A s = set_cells (slice_to j (cells s)) s).
  { unfold truncated.
    rewrite (dict_get_nodup_in String.eqb String.eqb_spec A b bites Hbnd HAb).
    now rewrite Hproc, Hcut. }
  (* what the snake is awarded *)
  assert (Haward : total_for A (pass_awards sn dead bites) = len (cells s) - j).
  { unfold pass_awards.
    rewrite (total_for_flat_map_single A _ bites (A, b)
               (nodup_keys_nodup bites Hbnd) HAb).
    - simpl fst. rewrite Hproc. unfold victim_awards. simpl fst. simpl snd.
      unfold snake_of in Hs. fold sn in Hs. rewrite Hs.
      rewrite total_for_all.
      + rewrite total_victim_entries by assumption. now rewrite Hcut.
      + intros a' x Hin. apply in_victim_entries in Hin as (k & Hk & Ha').
        apply (in_attackers_at sn dead bites Hb A b k a' HAb) in Ha'.
        apply (bites_segment_entries w dead a' A k Hnd) in Ha'.
        now destruct (Honly a' A k Ha' (or_intror eq_refl)) as (-> & _).
    - intros [v b'] Hvb Hne'. simpl fst.
      destruct (processed sn dead v); [| reflexivity].
      unfold victim_awards. simpl fst. simpl snd.
      destruct (dict_get String.eqb v sn) as [sv' |]; [| reflexivity].
      apply total_for_none. intros x Hin.
      apply in_victim_entries in Hin as (k & Hk & Ha').
      apply (in_attackers_at sn dead bites Hb v b' k A Hvb) in Ha'.
      apply (bites_segment_entries w dead A v k Hnd) in Ha'.
      destruct (Honly A v k Ha' (or_introl eq_refl)) as (_ & -> & _).
      apply Hne'. f_equal.
      pose proof (dict_get_nodup_in String.eqb String.eqb_spec A b bites Hbnd HAb).
      pose proof (dict_get_nodup_in String.eqb String.eqb_spec A b' bites Hbnd Hvb).
      congruence. }
  exists (put_snakes sn' w), (pass_dead sn dead bites dead),
         (bump (len (cells s) - j) (set_cells (slice_to j (cells s)) s)).
  split; [exact Hrun |]. split; [| split; [| split]].
  - unfold snake_of in *. rewrite snakes_put_snakes, Hget. fold sn in Hs |- *.
    rewrite Hs. simpl. now rewrite Haward, Htr.
  - rewrite cells_bump. cbn [cells set_cells]. unfold slice_to.
    destruct (Z.ltb_spec j 0); [lia | reflexivity].
  - reflexivity.
  - rewrite in_pass_dead. split.
    + intros [Hin | (b' & Hin & Hst)]; [contradiction |].
      pose proof (dict_get_nodup_in String.eqb String.eqb_spec A b bites Hbnd HAb).
      pose proof (dict_get_nodup_in String.eqb String.eqb_spec A b' bites Hbnd Hin).
      assert (b' = b) by congruence. subst b'.
      unfold starved in Hst. simpl fst in Hst. simpl snd in Hst.
      unfold snake_of in Hs. fold sn in Hs. rewrite Hproc, Hs, Hcut in Hst.
      rewrite length_slice_to in Hst by lia.
      simpl in Hst. now apply Z.ltb_lt in Hst.
    + intros Hlt. right. exists b. split; [assumption |].
      unfold starved. simpl fst. simpl snd.
      unfold snake_of in Hs. fold sn in Hs. rewrite Hproc, Hs, Hcut.
      rewrite length_slice_to by lia. simpl. now apply Z.ltb_lt.
Qed.

Local Open Scope Z_scope.
Local Open Scope bool_scope.
Import Geometry Sim.

(** ** Loops over the snakes

    Each iteration of a loop over [state.snakes.items()] touches the snake it
    visits and what it records for it; with distinct keys, what the loop
    does to a snake is what its own iteration does. *)

Section LocalLoop.
Context {B V : Type}.
Variable body : string -> Snake -> B -> M World B.
Variable view : string -> B -> V.
Variable Post : string -> Snake -> Snake -> V -> V -> Prop.

Hypothesis body_local :
  forall pid s acc w w' acc',
    snake_of pid w = Some s ->
    body pid s acc w = (w', Ok acc') ->
    (forall p, p <> pid ->
       snake_of p w' = snake_of p w /\ view p acc' = view p acc)
    /\ exists s', snake_of pid w' = Some s'
                  /\ Post pid s s' (view pid acc) (view pid acc').

Lemma for_each_local ks : forall w acc w' acc',
  NoDup ks ->
  for_each ks
    (fun pid acc =>
       w <- get ;;
       match snake_of pid w with
       | Some s => body pid s acc
       | None => ret acc
       end) acc w = (w', Ok acc') ->
  (forall pid s, In pid ks -> snake_of pid w = Some s ->
     exists s', snake_of pid w' = Some s'
                /\ Post pid s s' (view pid acc) (view pid acc'))
  /\ (forall pid, ~ In pid ks ->
        snake_of pid w' = snake_of pid w /\ view pid acc' = view pid acc).
Proof.
  induction ks as [| k ks IH]; intros w acc w' acc' Hnd Hrun.
  - simpl in Hrun. injection Hrun as <- <-. split; [intros ? ? [] | auto].
  - inversion Hnd as [| ? ? Hnotin Hnd']; subst.
    simpl in Hrun. unfold bind at 1 in Hrun. unfold bind at 1 in Hrun.
    unfold get at 1 in Hrun.
    destruct (snake_of k w) as [s |] eqn:Hk.
    + destruct (body k s acc w) as [w1 [acc1 | e]] eqn:Hbody; [| discriminate].
      destruct (body_local k s acc w w1 acc1 Hk Hbody) as [Hoff (s1 & Hs1 & Hpost)].
      destruct (IH w1 acc1 w' acc' Hnd' Hrun) as [Hin Hout].
      split.
      * intros pid s0 [<- | Hpid] Hs0.
        -- destruct (Hout k Hnotin) as [Hsame Hview].
           rewrite Hk in Hs0. injection Hs0 as <-.
           exists s1. rewrite Hsame, Hview. auto.
        -- assert (Hne : pid <> k) by (intros ->; contradiction).
           destruct (Hoff pid Hne) as [Hsame Hview].
           rewrite <- Hsame in Hs0.
           destruct (Hin pid s0 Hpid Hs0) as (s' & Hs' & Hp).
           exists s'. now rewrite <- Hview.
      * intros pid Hpid. simpl in Hpid.
        assert (Hne : pid <> k) by (intros ->; tauto).
        destruct (Hoff pid Hne) as [Hsame Hview].
        destruct (Hout pid) as [Hsame' Hview']; [tauto |].
        split; congruence.
    + simpl in Hrun.
      destruct (IH w acc w' acc' Hnd' Hrun) as [Hin Hout].
      split.
      * intros pid s0 [<- | Hpid] Hs0; [congruence | auto].
      * intros pid Hpid. apply Hout. simpl in Hpid. tauto.
Qed.

Lemma for_snakes_local w acc w' acc' :
  NoDup (keys (snakes (game w))) ->
  for_snakes body acc w = (w', Ok acc') ->
  forall pid s, snake_of pid w = Some s ->
    exists s', snake_of pid w' = Some s'
               /\ Post pid s s' (view pid acc) (view pid acc').
Proof.
  intros Hnd Hrun pid s Hs. unfold for_snakes, bind in Hrun. unfold get at 1 in Hrun.
  destruct (for_each_local _ w acc w' acc' Hnd Hrun) as [Hin _].
  apply Hin; [| assumption].
  unfold snake_of in Hs. apply (dict_get_some_in String.eqb String.eqb_spec) in Hs.
  unfold keys. apply in_map_iff. now exists (pid, s).
Qed.
End LocalLoop.

(** The part of the accumulator that survives a loop. *)
Lemma for_each_acc_invariant {St A B} (Inv : B -> Prop)
    (body : A -> B -> M St B) xs :
  (forall x acc w w' acc', Inv acc -> body x acc w = (w', Ok acc') -> Inv acc') ->
  forall acc w w' acc',
    Inv acc -> for_each xs body acc w = (w', Ok acc') -> Inv acc'.
Proof.
  intros Hbody. induction xs as [| x xs IH]; intros acc w w' acc' Hinv Hrun.
  - simpl in Hrun. now injection Hrun as <- <-.
  - simpl in Hrun. unfold bind at 1 in Hrun.
    destruct (body x acc w) as [w1 [acc1 | e]] eqn:Hb; [| discriminate].
    eapply IH; [| exact Hrun]. eapply Hbody; eassumption.
Qed.

(** ** Lookups after the writes of a tick *)

Lemma snake_of_update_snake pid p f w :
  snake_of p (fst (update_snake pid f w))
  = if String.eqb p pid then option_map f (snake_of pid w) else snake_of p w.
Proof.
  unfold snake_of, update_snake, modify. simpl.
  apply (dict_get_update String.eqb String.eqb_spec).
Qed.

Lemma snake_of_assign_snake pid p s w :
  snake_of p (fst (assign_snake pid s w))
  = if String.eqb p pid then Some s else snake_of p w.
Proof.
  unfold snake_of, assign_snake, modify. simpl.
  apply (dict_get_set String.eqb String.eqb_spec).
Qed.

Lemma snake_of_with_rng {A} (m : M Rng A) p w :
  snake_of p (fst (with_rng m w)) = snake_of p w.
Proof.
  unfold with_rng. now destruct (m (rng (game w))).
Qed.

Lemma update_snake_run pid f w :
  update_snake pid f w
  = (put_snakes (dict_update String.eqb pid f (snakes (game w))) w, Ok tt).
Proof. reflexivity. Qed.

Lemma snake_of_put_update pid p f w :
  snake_of p (put_snakes (dict_update String.eqb pid f (snakes (game w))) w)
  = if String.eqb p pid then option_map f (snake_of pid w) else snake_of p w.
Proof.
  unfold snake_of. simpl. apply (dict_get_update String.eqb String.eqb_spec).
Qed.

Lemma snake_of_put p sn w : snake_of p (put_snakes sn w) = dict_get String.eqb p sn.
Proof. reflexivity. Qed.

Local Open Scope Z_scope.
Local Open Scope bool_scope.
Import Geometry Sim.

(** ** The respawn pass leaves the living alone *)

Lemma attempt_inv {St A} (P : A -> Prop) (body : M St (option A)) k : forall w w' a,
  (forall w w' a, body w = (w', Ok (Some a)) -> P a) ->
  attempt k body w = (w', Ok (Some a)) -> P a.
Proof.
  induction k as [| k IH]; intros w w' a Hbody Hrun; simpl in Hrun.
  - discriminate.
  - unfold bind in Hrun. destruct (body w) as [w1 [[a1 |] | e]] eqn:Hb.
    + unfold ret in Hrun. injection Hrun as _ <-. eapply Hbody, Hb.
    + eapply IH; eassumption.
    + discriminate.
Qed.

Lemma try_place_snake_fresh pid n occupied attempts r r' p occ :
  _try_place_snake pid n occupied attempts r = (r', Ok (Some (p, occ))) ->
  alive p = true /\ pending_growth p = 0.
Proof.
  unfold _try_place_snake. intros Hrun.
  apply (attempt_inv (fun po => alive (fst po) = true /\ pending_growth (fst po) = 0)
           _ _ _ _ (p, occ)) in Hrun; [exact Hrun |].
  clear. intros w w' [p occ] Hbody. unfold place_attempt in Hbody.
  repeat (unfold bind at 1 in Hbody;
          match type of Hbody with
          | context [randrange ?k w] => destruct (randrange k w) as [? [? | ?]]
          | context [randrange ?k ?r] => destruct (randrange k r) as [? [? | ?]]
          end; [| discriminate]).
  destruct (mem Z.eqb _ occupied); [discriminate |].
  unfold bind at 1 in Hbody. unfold lift at 1 in Hbody.
  destruct (_is_forward_clear _ _ _ _ _) as [[|] | e]; try discriminate.
  cbn [negb] in Hbody. cbv iota in Hbody.
  unfold bind at 1 in Hbody. unfold lift at 1 in Hbody.
  destruct (walk_back _ _ _ _ _ _) as [[body |] | e]; try discriminate.
  unfold ret in Hbody. injection Hbody as _ <- _. simpl. auto.
Qed.

Lemma respawn_pass_spec n now_ms w w' :
  NoDup (keys (snakes (game w))) ->
  respawn_pass n now_ms w = (w', Ok tt) ->
  forall pid s, snake_of pid w = Some s ->
    exists s', snake_of pid w' = Some s' /\ respawned s s'.
Proof.
  intros Hnd Hrun pid s Hs. unfold respawn_pass in Hrun.
  unshelve epose proof
    (for_snakes_local _ (fun _ _ => tt)
       (fun _ s s' _ _ => respawned s s')
       _ w tt w' tt Hnd Hrun pid s Hs) as (s' & Hs' & Hpost); [| eauto].
  clear. intros pid s [] w w' [] Hs Hbody. cbv beta in Hbody.
  assert (Hsame : respawned s s).
  { unfold respawned. split; [reflexivity |]. split; [auto | congruence]. }
  destruct (alive s) eqn:Ha.
  { injection Hbody as <-. split; [auto | eauto]. }
  destruct (respawn_at_ms s) as [t |].
  2:{ injection Hbody as <-. split; [auto | eauto]. }
  destruct (now_ms <? t).
  { injection Hbody as <-. split; [auto | eauto]. }
  unfold bind at 1 in Hbody. unfold get at 1 in Hbody.
  unfold bind at 1 in Hbody.
  pose proof (fun p => snake_of_with_rng
                         (_try_place_snake pid n (occupied_now (game w)) 4000) p w)
    as Hrng.
  unfold with_rng in Hbody, Hrng.
  destruct (_try_place_snake pid n (occupied_now (game w)) 4000 (rng (game w)))
    as [r1 [[[p occ] |] | e]] eqn:Hplace; simpl in Hrng; [| | discriminate].
  - pose proof (f_equal fst Hbody) as Hw'. simpl in Hw'. subst w'. split.
    + intros q Hne. split; [| reflexivity].
      unfold snake_of. simpl. rewrite (dict_get_set String.eqb String.eqb_spec).
      destruct (String.eqb_spec q pid); [contradiction | reflexivity].
    + eexists. unfold snake_of at 1. simpl.
      rewrite (dict_get_set String.eqb String.eqb_spec), String.eqb_refl.
      split; [reflexivity |].
      destruct (try_place_snake_fresh _ _ _ _ _ _ _ _ Hplace) as [Hal Hpg].
      unfold respawned. simpl. split; [reflexivity |].
      split; [congruence | auto].
  - pose proof (f_equal fst Hbody) as Hw'. simpl in Hw'. subst w'. split.
    + intros q Hne. split; [| reflexivity].
      unfold snake_of. simpl. rewrite (dict_get_update String.eqb String.eqb_spec).
      destruct (String.eqb_spec q pid); [contradiction | reflexivity].
    + eexists. unfold snake_of at 1. simpl.
      rewrite (dict_get_update String.eqb String.eqb_spec), String.eqb_refl.
      unfold snake_of in Hs. rewrite Hs. split; [reflexivity |].
      unfold respawned. simpl. split; [reflexivity |].
      split; [congruence |]. rewrite Ha. congruence.
Qed.

(** ** Planning turns the living and records a move for each *)

Lemma plan_moves_spec n inputs fbc w w' planned :
  NoDup (keys (snakes (game w))) ->
  plan_moves n inputs fbc w = (w', Ok planned) ->
  forall pid s, snake_of pid w = Some s ->
    exists s', snake_of pid w' = Some s'
      /\ (alive s = false -> s' = s)
      /\ (alive s = true ->
            cells s <> []
            /\ (exists d, s' = set_dir d s)
            /\ exists t, dict_get String.eqb pid planned = Some t).
Proof.
  intros Hnd Hrun pid s Hs. unfold plan_moves in Hrun.
  unshelve epose proof
    (for_snakes_local _ (fun p acc => dict_get String.eqb p acc)
       (fun _ s s' _ v' =>
          (alive s = false -> s' = s)
          /\ (alive s = true ->
                cells s <> []
                /\ (exists d, s' = set_dir d s) /\ exists t, v' = Some t))
       _ w [] w' planned Hnd Hrun pid s Hs) as (s' & Hs' & Hpost); [| eauto].
  clear. intros pid s acc w w' acc' Hs Hbody. cbv beta in Hbody.
  destruct (alive s) eqn:Ha; cbn [negb] in Hbody; cbv beta iota in Hbody.
  2:{ unfold ret in Hbody. injection Hbody as <- <-. split; [auto |]. exists s.
      split; [assumption |]. split; [auto | congruence]. }
  unfold bind at 1 in Hbody. unfold lift at 1 in Hbody.
  destruct (apply_command (command_of inputs pid) (dir s)) as [d | e]; [| discriminate].
  unfold bind at 1 in Hbody. rewrite update_snake_run in Hbody.
  set (w1 := put_snakes (dict_update String.eqb pid (set_dir d) (snakes (game w))) w)
    in Hbody.
  destruct (cells s) as [| head rest] eqn:Hcells; [discriminate |].
  unfold bind at 1 in Hbody. unfold lift at 1 in Hbody.
  destruct (step_cell head d n) as [[next_head new_dir] | e]; [| discriminate].
  unfold bind at 1 in Hbody. rewrite update_snake_run in Hbody.
  unfold ret in Hbody.
  assert (Hw' : w' = put_snakes
                       (dict_update String.eqb pid (set_dir new_dir)
                          (dict_update String.eqb pid (set_dir d) (snakes (game w)))) w)
    by (injection Hbody as <- _; reflexivity).
  assert (Hacc' : acc' = dict_set String.eqb pid
                           (next_head, new_dir,
                            match dict_get Z.eqb next_head fbc with
                            | Some fruit => value fruit
                            | None => 0
                            end) acc)
    by (injection Hbody as _ <-; reflexivity).
  clear Hbody w1. subst w' acc'. unfold snake_of in Hs.
  split.
  - intros q Hne. rewrite snake_of_put, !(dict_get_update String.eqb String.eqb_spec).
    destruct (String.eqb_spec q pid); [contradiction |].
    split; [reflexivity |].
    rewrite (dict_get_set String.eqb String.eqb_spec).
    destruct (String.eqb_spec q pid); [contradiction | reflexivity].
  - eexists. rewrite snake_of_put, !(dict_get_update String.eqb String.eqb_spec).
    rewrite !String.eqb_refl, Hs.
    split; [reflexivity |]. split; [congruence |]. intros _.
    split; [discriminate |]. split.
    + exists new_dir. reflexivity.
    + rewrite (dict_get_set String.eqb String.eqb_spec), String.eqb_refl. eauto.
Qed.

(** ** Move and eat *)

Lemma update_snake_inv pid f w w1 r :
  update_snake pid f w = (w1, r) ->
  r = Ok tt
  /\ forall q, snake_of q w1
               = if String.eqb q pid then option_map f (snake_of pid w)
                 else snake_of q w.
Proof.
  rewrite update_snake_run. intros [= <- <-]. split; [reflexivity |].
  intros q. apply snake_of_put_update.
Qed.

Lemma pop_fruit_inv fid w w1 r :
  pop_fruit fid w = (w1, r) ->
  (exists o, r = Ok o) /\ forall q, snake_of q w1 = snake_of q w.
Proof.
  unfold pop_fruit, bind, get.
  destruct (dict_get String.eqb fid (fruits (game w))) as [f |].
  - simpl. intros [= <- <-]. split; [eauto | reflexivity].
  - simpl. intros [= <- <-]. split; [eauto | reflexivity].
Qed.

(** The first loop of the move phase, one snake at a time: the new body is
    recorded, the cells are not yet replaced. *)
Lemma move_loop_spec planned fbc w w' new_cells :
  NoDup (keys (snakes (game w))) ->
  for_snakes
    (fun pid s new_cells_by_player =>
       if negb (alive s) then ret new_cells_by_player
       else
         match dict_get String.eqb pid planned with
         | None => raise KeyError
         | Some (next_head, _dir, eat_value) =>
             let new_body := next_head :: cells s in
             new_body <-
               (if pending_growth s >? 0
                then update_snake pid
                       (fun s => set_pending_growth (pending_growth s - 1) s) ;;;
                     ret new_body
                else ret (removelast new_body)) ;;
             (if eat_value >? 0
              then
                match dict_get Z.eqb next_head fbc with
                | None => raise KeyError
                | Some f =>
                    fruit <- pop_fruit (fruit_id f) ;;
                    match fruit with
                    | None => ret tt
                    | Some _ =>
                        update_snake pid
                          (fun s => set_score (score s + eat_value)
                                      (set_pending_growth
                                         (pending_growth s + eat_value) s))
                    end
                end
              else ret tt) ;;;
             ret (dict_set String.eqb pid new_body new_cells_by_player)
         end)
    [] w = (w', Ok new_cells) ->
  forall pid s, snake_of pid w = Some s ->
    exists s', snake_of pid w' = Some s'
      /\ (alive s = false -> s' = s /\ dict_get String.eqb pid new_cells = None)
      /\ (alive s = true ->
            exists s1, moved planned pid s s1
              /\ s' = set_cells (cells s) s1
              /\ dict_get String.eqb pid new_cells = Some (cells s1)).
Proof.
  intros Hnd Hrun pid s Hs.
  unshelve epose proof
    (for_snakes_local _ (fun p acc => dict_get String.eqb p acc)
       (fun p s s' v v' =>
          (alive s = false -> s' = s /\ v' = v)
          /\ (alive s = true ->
                exists s1, moved planned p s s1
                  /\ s' = set_cells (cells s) s1 /\ v' = Some (cells s1)))
       _ w [] w' new_cells Hnd Hrun pid s Hs) as (s' & Hs' & Hdead & Halive).
  2:{ exists s'. split; [assumption |]. split; [| assumption].
      intros Ha. destruct (Hdead Ha) as [-> ->]. auto. }
  clear. intros pid s acc w w' acc' Hs Hbody. cbv beta in Hbody.
  destruct (alive s) eqn:Ha; cbn [negb] in Hbody; cbv beta iota in Hbody.
  2:{ unfold ret in Hbody. injection Hbody as <- <-. split; [auto |]. exists s.
      split; [assumption |]. split; [auto | congruence]. }
  destruct (dict_get String.eqb pid planned) as [[[next_head d] eat_value] |] eqn:Hplan;
    [| discriminate].
  cbv zeta in Hbody. unfold bind at 1 in Hbody.
  (* the tail: kept while growth is pending, dropped otherwise *)
  set (grow := pending_growth s >? 0) in *.
  set (step1 := if grow then _ else _) in Hbody.
  destruct (step1 w) as [w1 r1] eqn:H1.
  assert (Hstep1 : r1 = Ok (moved_body next_head s)
                   /\ forall q, snake_of q w1
                        = if String.eqb q pid
                          then Some (if grow
                                     then set_pending_growth (pending_growth s - 1) s
                                     else s)
                          else snake_of q w).
  { unfold step1, moved_body in *. fold grow. destruct grow.
    - unfold bind in H1.
      destruct (update_snake pid _ w) as [w0 r0] eqn:Hu.
      apply update_snake_inv in Hu as [-> Hq]. unfold ret in H1.
      injection H1 as <- <-. split; [reflexivity |].
      intros q. rewrite Hq, Hs. reflexivity.
    - unfold ret in H1. injection H1 as <- <-. split; [reflexivity |].
      intros q. destruct (String.eqb_spec q pid) as [-> |]; [assumption | reflexivity]. }
  destruct Hstep1 as [-> Hq1]. clear H1 step1.
  unfold bind at 1 in Hbody.
  (* the fruit *)
  set (step2 := if eat_value >? 0 then _ else _) in Hbody.
  destruct (step2 w1) as [w2 r2] eqn:H2.
  destruct r2 as [[] | e]; [| discriminate].
  unfold ret in Hbody. injection Hbody as <- <-.
  assert (Hstep2 : exists eaten,
             (eaten = 0 \/ (eaten = eat_value /\ 0 < eat_value))
             /\ forall q, snake_of q w2
                  = if String.eqb q pid
                    then option_map
                           (fun s => set_score (score s + eaten)
                                       (set_pending_growth (pending_growth s + eaten) s))
                           (snake_of pid w1)
                    else snake_of q w1).
  { unfold step2 in H2. clear step2.
    assert (Hnone : (forall q, snake_of q w2 = snake_of q w1) ->
              exists eaten,
                (eaten = 0 \/ (eaten = eat_value /\ 0 < eat_value))
                /\ forall q, snake_of q w2
                     = if String.eqb q pid
                       then option_map
                              (fun s => set_score (score s + eaten)
                                          (set_pending_growth
                                             (pending_growth s + eaten) s))
                              (snake_of pid w1)
                       else snake_of q w1).
    { intros Hsame. exists 0. split; [now left |]. intros q. rewrite Hsame.
      destruct (String.eqb_spec q pid) as [-> |]; [| reflexivity].
      rewrite Hq1, String.eqb_refl. simpl. f_equal.
      destruct grow; destruct s; unfold set_score, set_pending_growth; simpl;
        f_equal; lia. }
    destruct (Z.gtb_spec eat_value 0) as [Hpos | Hle].
    - destruct (dict_get Z.eqb next_head fbc) as [f |]; [| discriminate].
      unfold bind in H2.
      destruct (pop_fruit (fruit_id f) w1) as [w0 r0] eqn:Hpop.
      apply pop_fruit_inv in Hpop as [[o ->] Hq0].
      destruct o as [fr |].
      + destruct (update_snake pid _ w0) as [w3 r3] eqn:Hu.
        apply update_snake_inv in Hu as [-> Hq3]. injection H2 as <-.
        exists eat_value. split; [right; split; [reflexivity | lia] |].
        intros q. rewrite Hq3, !Hq0. reflexivity.
      + unfold ret in H2. injection H2 as <-. apply Hnone. exact Hq0.
    - unfold ret in H2. injection H2 as <-. now apply Hnone. }
  destruct Hstep2 as (eaten & Heaten & Hq2). clear H2 step2.
  split.
  - intros q Hne. rewrite Hq2.
    destruct (String.eqb_spec q pid); [contradiction |].
    rewrite Hq1.
    destruct (String.eqb_spec q pid); [contradiction |].
    split; [reflexivity |].
    rewrite (dict_get_set String.eqb String.eqb_spec).
    destruct (String.eqb_spec q pid); [contradiction | reflexivity].
  - eexists. rewrite Hq2, String.eqb_refl, Hq1, String.eqb_refl.
    split; [reflexivity |]. split; [congruence |]. intros _.
    set (s0 := if grow then set_pending_growth (pending_growth s - 1) s else s).
    exists (set_cells (moved_body next_head s)
              (set_score (score s0 + eaten)
                 (set_pending_growth (pending_growth s0 + eaten) s0))).
    split; [| split].
    + unfold moved. split.
      * unfold s0. destruct grow; simpl; assumption.
      * exists next_head, d, eat_value, eaten.
        split; [assumption |]. split; [reflexivity |]. split; [assumption |].
        unfold s0. fold grow. destruct grow; simpl; split; reflexivity.
    + simpl. unfold s0. destruct grow; reflexivity.
    + rewrite (dict_get_set String.eqb String.eqb_spec), String.eqb_refl.
      reflexivity.
Qed.

(** The second loop: the recorded bodies replace the cells. *)
Lemma apply_cells_spec new_cells : forall w w' r,
  NoDup (keys new_cells) ->
  for_each new_cells (fun pb _ => update_snake (fst pb) (set_cells (snd pb))) tt w
  = (w', r) ->
  r = Ok tt
  /\ forall q, snake_of q w'
       = option_map (fun s => match dict_get String.eqb q new_cells with
                              | Some b => set_cells b s
                              | None => s
                              end) (snake_of q w).
Proof.
  induction new_cells as [| [p b] rest IH]; intros w w' r Hnd Hrun.
  - simpl in Hrun. injection Hrun as <- <-. split; [reflexivity |].
    intros q. simpl. now destruct (snake_of q w).
  - unfold keys in Hnd. simpl in Hnd. inversion Hnd as [| ? ? Hnotin Hnd']; subst.
    simpl in Hrun. unfold bind at 1 in Hrun. rewrite update_snake_run in Hrun.
    destruct (IH _ _ _ Hnd' Hrun) as [-> Hq]. split; [reflexivity |].
    intros q. rewrite Hq, snake_of_put_update. simpl.
    destruct (String.eqb_spec q p) as [-> | Hne].
    + assert (Hnone : dict_get String.eqb p rest = None).
      { destruct (dict_get String.eqb p rest) as [b' |] eqn:Hg; [| reflexivity].
        exfalso. apply Hnotin.
        apply (dict_get_some_in String.eqb String.eqb_spec) in Hg.
        apply in_map_iff. now exists (p, b'). }
      rewrite Hnone. now destruct (snake_of p w).
    + reflexivity.
Qed.

Lemma set_cells_back c s : set_cells (cells s) (set_cells c s) = s.
Proof. now destruct s. Qed.

Theorem move_and_eat_spec planned fbc w w' :
  NoDup (keys (snakes (game w))) ->
  move_and_eat planned fbc w = (w', Ok tt) ->
  forall pid s, snake_of pid w = Some s ->
    exists s', snake_of pid w' = Some s'
      /\ (alive s = false -> s' = s)
      /\ (alive s = true -> moved planned pid s s').
Proof.
  intros Hnd Hrun pid s Hs.
  unfold move_and_eat in Hrun. unfold bind at 1 in Hrun.
  match type of Hrun with
  | context [for_snakes ?body ?acc ?w] =>
      destruct (for_snakes body acc w) as [w1 [new_cells | e]] eqn:Hloop;
      [| discriminate]
  end.
  assert (Hnd_cells : NoDup (keys new_cells)).
  { unfold for_snakes in Hloop. unfold bind at 1 in Hloop.
    unfold get at 1 in Hloop. revert Hloop.
    apply (for_each_acc_invariant (fun acc : list (string * list Z) => NoDup (keys acc)));
      [| constructor].
    clear. intros p acc w w' acc' Hinv Hbody.
    assert (Hacc : acc' = acc \/ exists b, acc' = dict_set String.eqb p b acc).
    { cbv beta in Hbody. unfold bind at 1 in Hbody. unfold get at 1 in Hbody.
      destruct (snake_of p w) as [s |];
        [| unfold ret in Hbody; injection Hbody as _ <-; now left].
      cbv beta in Hbody.
      destruct (negb (alive s));
        [unfold ret in Hbody; injection Hbody as _ <-; now left |].
      destruct (dict_get String.eqb p planned) as [[[nh d] ev] |]; [| discriminate].
      cbv zeta in Hbody. unfold bind at 1 in Hbody.
      match type of Hbody with
      | context [(if ?c then ?a else ?b) w] => destruct ((if c then a else b) w)
          as [w1 [nb | e]]; [| discriminate]
      end.
      unfold bind at 1 in Hbody.
      match type of Hbody with
      | context [(if ?c then ?a else ?b) w1] => destruct ((if c then a else b) w1)
          as [w2 [[] | e]]; [| discriminate]
      end.
      unfold ret in Hbody. injection Hbody as _ <-. right. eauto. }
    destruct Hacc as [-> | [b ->]]; [assumption |].
    now apply (keys_set_nodup String.eqb String.eqb_spec). }
  destruct (move_loop_spec planned fbc w w1 new_cells Hnd Hloop pid s Hs)
    as (s1 & Hs1 & Hdead & Halive).
  destruct (apply_cells_spec new_cells w1 w' (Ok tt) Hnd_cells Hrun) as [_ Hq].
  rewrite Hq, Hs1. simpl. eexists. split; [reflexivity |].
  destruct (alive s) eqn:Ha.
  - split; [congruence |]. intros _.
    destruct (Halive eq_refl) as (s2 & Hmoved & -> & ->).
    now rewrite set_cells_back.
  - split; [| congruence]. intros _.
    destruct (Hdead eq_refl) as [-> ->]. reflexivity.
Qed.

Local Open Scope Z_scope.
Local Open Scope bool_scope.
Import Geometry Sim.

(** ** The players of a game stay the same *)

#[local] Instance same_keys_preorder : PreOrder same_keys.
Proof.
  split.
  - intros w. reflexivity.
  - intros a b c Hab Hbc. unfold same_keys in *. congruence.
Qed.

Lemma keys_set_present {V} k (v v0 : V) d :
  dict_get String.eqb k d = Some v0 -> keys (dict_set String.eqb k v d) = keys d.
Proof.
  unfold keys. induction d as [| [k' v'] d IH]; simpl; [discriminate |].
  destruct (String.eqb_spec k k') as [-> | Hne]; simpl; [reflexivity |].
  intros H. now rewrite IH.
Qed.

Section SameKeys.
Let ok (f : Snake -> Snake) : Prop := True.

Lemma same_keys_admits : admits_update ok.
Proof. unfold admits_update, ok. repeat split. Qed.

Lemma same_keys_update w pid f :
  same_keys w (put_snakes (dict_update String.eqb pid f (snakes (game w))) w).
Proof. unfold same_keys. simpl. apply keys_update. Qed.

Lemma same_keys_respawn w pid s p :
  snake_of pid w = Some s ->
  same_keys w (put_snakes (dict_set String.eqb pid (set_score (score s) p)
                             (snakes (game w))) w).
Proof. intros Hs. unfold same_keys. simpl. eapply keys_set_present, Hs. Qed.

Lemma tick_keys fuel inputs now_ms w :
  keys (snakes (game (fst (tick fuel inputs now_ms w)))) = keys (snakes (game w)).
Proof.
  apply (tick_preserves same_keys ok same_keys_admits); try easy.
  - intros. apply same_keys_update.
  - intros. now apply same_keys_respawn.
Qed.

Lemma respawn_pass_keys n now_ms w :
  keys (snakes (game (fst (respawn_pass n now_ms w)))) = keys (snakes (game w)).
Proof.
  apply (respawn_pass_preserves same_keys ok); try easy.
  - intros. apply same_keys_update.
  - intros. now apply same_keys_respawn.
Qed.

Lemma plan_moves_keys n inputs fbc w :
  keys (snakes (game (fst (plan_moves n inputs fbc w)))) = keys (snakes (game w)).
Proof.
  apply (plan_moves_preserves same_keys ok same_keys_admits).
  intros. apply same_keys_update.
Qed.

Lemma tick_to_move_keys inputs now_ms w :
  keys (snakes (game (fst (tick_to_move inputs now_ms w)))) = keys (snakes (game w)).
Proof.
  apply (tick_to_move_preserves same_keys ok same_keys_admits); try easy.
  - intros. apply same_keys_update.
  - intros. now apply same_keys_respawn.
Qed.
End SameKeys.

(** ** A snake through the phases up to the move *)

Lemma length_removelast_cons {A} (c : A) cs :
  List.length (removelast (c :: cs)) = List.length cs.
Proof.
  revert c. induction cs as [| c' cs IH]; intros c; [reflexivity |].
  change (removelast (c :: c' :: cs)) with (c :: removelast (c' :: cs)).
  cbn [List.length]. now rewrite IH.
Qed.

Lemma length_moved_body next_head s :
  cells s <> [] ->
  len (moved_body next_head s)
  = len (cells s) + (if pending_growth s >? 0 then 1 else 0).
Proof.
  intros Hne. unfold moved_body, len.
  destruct (pending_growth s >? 0).
  - cbn [List.length]. lia.
  - destruct (cells s) as [| c cs]; [contradiction |].
    rewrite length_removelast_cons. cbn [List.length]. lia.
Qed.

Theorem tick_to_move_spec inputs now_ms w w3 :
  NoDup (keys (snakes (game w))) ->
  tick_to_move inputs now_ms w = (w3, Ok tt) ->
  forall pid s, snake_of pid w = Some s ->
    exists s1 s3,
      respawned s s1
      /\ snake_of pid w3 = Some s3
      /\ (alive s1 = false -> s3 = s1)
      /\ (alive s1 = true -> stepped s1 s3).
Proof.
  intros Hnd Hrun pid s Hs.
  unfold tick_to_move in Hrun. unfold bind at 1 in Hrun. unfold get at 1 in Hrun.
  unfold bind at 1 in Hrun.
  pose proof (respawn_pass_keys (cube_n (settings (game w))) now_ms w) as Hk1.
  destruct (respawn_pass (cube_n (settings (game w))) now_ms w)
    as [w1 [[] | e]] eqn:H1; [| discriminate].
  simpl in Hk1.
  unfold bind at 1 in Hrun. unfold get at 1 in Hrun. unfold bind at 1 in Hrun.
  pose proof (plan_moves_keys (cube_n (settings (game w))) inputs
                (fruit_by_cell_of (fruits (game w1))) w1) as Hk2.
  destruct (plan_moves (cube_n (settings (game w))) inputs
              (fruit_by_cell_of (fruits (game w1))) w1)
    as [w2 [planned | e]] eqn:H2; [| discriminate].
  simpl in Hk2.
  assert (Hnd1 : NoDup (keys (snakes (game w1)))) by now rewrite Hk1.
  assert (Hnd2 : NoDup (keys (snakes (game w2)))) by now rewrite Hk2.
  destruct (respawn_pass_spec _ _ _ _ Hnd H1 pid s Hs) as (s1 & Hs1 & Hresp).
  destruct (plan_moves_spec _ _ _ _ _ _ Hnd1 H2 pid s1 Hs1)
    as (s2 & Hs2 & Hdead2 & Halive2).
  destruct (move_and_eat_spec _ _ _ _ Hnd2 Hrun pid s2 Hs2)
    as (s3 & Hs3 & Hdead3 & Halive3).
  exists s1, s3. split; [assumption |]. split; [assumption |].
  destruct (alive s1) eqn:Ha1.
  - split; [congruence |]. intros _.
    destruct (Halive2 eq_refl) as (Hne & [d ->] & _).
    destruct (Halive3 Ha1) as (Ha3 & nh & d' & ev & eaten & _ & Hc & He & Hpg & Hsc).
    unfold stepped. split; [assumption |]. split; [assumption |].
    exists nh, eaten. split; [destruct He as [-> | [-> ?]]; lia |].
    split; [exact Hc |]. split; assumption.
  - split; [| congruence]. intros _.
    rewrite (Hdead2 eq_refl) in *. now rewrite (Hdead3 Ha1).
Qed.

Lemma moved_body_nonempty next_head s : cells s <> [] -> moved_body next_head s <> [].
Proof.
  intros Hne Hnil. pose proof (length_moved_body next_head s Hne) as Hl.
  rewrite Hnil in Hl. unfold len in Hl. simpl in Hl.
  destruct (cells s); [contradiction |].
  destruct (pending_growth s >? 0); simpl in Hl; lia.
Qed.

(** After the move every alive snake has a head, so the collision phase
    finds what it indexes. *)
Theorem tick_to_move_heads inputs now_ms w w3 :
  NoDup (keys (snakes (game w))) ->
  tick_to_move inputs now_ms w = (w3, Ok tt) ->
  NoDup (keys (snakes (game w3))) /\ heads_present w3.
Proof.
  intros Hnd Hrun.
  pose proof (tick_to_move_keys inputs now_ms w) as Hk. rewrite Hrun in Hk.
  simpl in Hk. split; [now rewrite Hk |].
  intros pid s3 Hs3 Ha3.
  assert (Hin : In pid (keys (snakes (game w)))).
  { rewrite <- Hk. unfold snake_of in Hs3.
    apply (dict_get_some_in String.eqb String.eqb_spec) in Hs3.
    unfold keys. apply in_map_iff. now exists (pid, s3). }
  apply (dict_get_in_keys String.eqb String.eqb_spec) in Hin as [s Hs].
  destruct (tick_to_move_spec inputs now_ms w w3 Hnd Hrun pid s Hs)
    as (s1 & s3' & _ & Hs3' & Hdead & Halive).
  rewrite Hs3 in Hs3'. injection Hs3' as <-.
  destruct (alive s1) eqn:Ha1.
  - destruct (Halive eq_refl) as (_ & Hne & nh & eaten & _ & -> & _).
    now apply moved_body_nonempty.
  - rewrite (Hdead eq_refl) in Ha3. congruence.
Qed.

(** ** Taking a tick apart *)

Lemma tick_inv fuel inputs now_ms w w' :
  tick fuel inputs now_ms w = (w', Ok tt) ->
  exists w3 w5 dead,
    tick_to_move inputs now_ms w = (w3, Ok tt)
    /\ collide w3 = (w5, Ok dead)
    /\ forall pid,
         snake_of pid w'
         = match snake_of pid w5 with
           | Some s => if alive s && mem String.eqb pid dead
                       then Some (kill now_ms s) else Some s
           | None => None
           end.
Proof.
  intros Hrun. unfold tick in Hrun. unfold bind at 1 in Hrun.
  unfold tick_to_collisions in Hrun. unfold bind at 1 in Hrun.
  destruct (tick_to_move inputs now_ms w) as [w3 [[] | e]] eqn:H3; [| discriminate].
  destruct (collide w3) as [w5 [dead | e]] eqn:H5; [| discriminate].
  exists w3, w5, dead. split; [reflexivity |]. split; [exact H5 |].
  unfold bind at 1 in Hrun.
  pose proof (fun pid => finalize_deaths_spec now_ms dead w5 pid) as Hfin.
  destruct (finalize_deaths now_ms dead w5) as [w6 [[] | e]]; [| discriminate].
  simpl in Hfin. unfold bind at 1 in Hrun.
  pose proof (ensure_fruit_target_snakes fuel w6) as Hens.
  destruct (ensure_fruit_target fuel w6) as [w7 [[] | e]]; [| discriminate].
  simpl in Hens. unfold modify in Hrun. injection Hrun as <-.
  intros pid. rewrite <- Hfin. unfold snake_of. simpl. now rewrite Hens.
Qed.

Local Open Scope Z_scope.
Local Open Scope bool_scope.
Import Geometry Sim.

(** * Growth after eating *)

(** ** What the collision phase leaves alone *)

Lemma truncated_keeps sn dead bites pid s :
  alive (truncated sn dead bites pid s) = alive s
  /\ pending_growth (truncated sn dead bites pid s) = pending_growth s.
Proof.
  unfold truncated. destruct (dict_get String.eqb pid bites); [| now split].
  destruct (processed sn dead pid); now split.
Qed.

Lemma collide_keeps w w5 dead pid s :
  NoDup (keys (snakes (game w))) -> heads_present w ->
  collide w = (w5, Ok dead) ->
  snake_of pid w = Some s ->
  exists s5, snake_of pid w5 = Some s5
    /\ alive s5 = alive s /\ pending_growth s5 = pending_growth s.
Proof.
  intros Hnd Hheads Hrun Hs.
  destruct (collide_run w Hnd Hheads)
    as (head_cells & bites & sn' & _ & _ & Hrun' & _ & Hget).
  rewrite Hrun in Hrun'. injection Hrun' as -> _.
  specialize (Hget pid). unfold snake_of in Hs |- *. rewrite Hs in Hget.
  rewrite snakes_put_snakes. rewrite Hget. simpl.
  eexists. split; [reflexivity |]. unfold bump. simpl.
  apply truncated_keeps.
Qed.

(** A snake that nobody bites leaves the collision phase with the body it
    entered with. *)
Lemma collide_unbitten w w5 dead head_cells pid s :
  NoDup (keys (snakes (game w))) -> heads_present w ->
  head_cells_of (snakes (game w)) = Ok head_cells ->
  (forall a k, ~ bites_segment w (head_on_dead head_cells) a pid k) ->
  collide w = (w5, Ok dead) ->
  snake_of pid w = Some s ->
  exists s5, snake_of pid w5 = Some s5 /\ cells s5 = cells s.
Proof.
  intros Hnd Hheads Hhc Hnone Hrun Hs.
  destruct (collide_run w Hnd Hheads)
    as (head_cells' & bites & sn' & Hhc' & Hb & Hrun' & _ & Hget).
  rewrite Hhc in Hhc'. injection Hhc' as <-.
  rewrite Hrun in Hrun'. injection Hrun' as -> _.
  specialize (Hget pid). unfold snake_of in Hs |- *. rewrite Hs in Hget.
  rewrite snakes_put_snakes. rewrite Hget. simpl.
  eexists. split; [reflexivity |]. unfold bump. simpl.
  unfold truncated.
  destruct (dict_get String.eqb pid bites) as [b |] eqn:Hpb; [| reflexivity].
  exfalso.
  assert (Hk : In pid (keys bites)).
  { unfold keys. apply in_map_iff. exists (pid, b). split; [reflexivity |].
    now apply (dict_get_some_in String.eqb String.eqb_spec). }
  rewrite (bites_by_victim_of_entries _ _ bites Hb) in Hk.
  apply keys_bites_in in Hk as [[] | Hk].
  apply in_map_iff in Hk as ([v [k a]] & Hv & He). simpl in Hv. subst v.
  apply (bites_segment_entries w _ a pid k Hnd) in He.
  exact (Hnone a k He).
Qed.

(** ** One tick of a snake that is alive before and after *)

Lemma tick_survivor fuel inputs now_ms w w' pid s s' :
  NoDup (keys (snakes (game w))) ->
  tick fuel inputs now_ms w = (w', Ok tt) ->
  snake_of pid w = Some s ->
  snake_of pid w' = Some s' -> alive s' = true ->
  exists w3 w5 dead s1 s3,
    tick_to_move inputs now_ms w = (w3, Ok tt)
    /\ NoDup (keys (snakes (game w3))) /\ heads_present w3
    /\ collide w3 = (w5, Ok dead)
    /\ respawned s s1 /\ alive s1 = true
    /\ snake_of pid w3 = Some s3
    /\ stepped s1 s3
    /\ snake_of pid w5 = Some s'
    /\ pending_growth s' = pending_growth s3.
Proof.
  intros Hnd Hrun Hs Hs' Ha'.
  destruct (tick_inv _ _ _ _ _ Hrun) as (w3 & w5 & dead & H3 & H5 & Hfin).
  destruct (tick_to_move_heads _ _ _ _ Hnd H3) as [Hnd3 Hheads3].
  destruct (tick_to_move_spec _ _ _ _ Hnd H3 pid s Hs)
    as (s1 & s3 & Hresp & Hs3 & Hdead & Halive).
  destruct (collide_keeps _ _ _ pid s3 Hnd3 Hheads3 H5 Hs3)
    as (s5 & Hs5 & Ha5 & Hpg5).
  specialize (Hfin pid). rewrite Hs5, Hs' in Hfin.
  assert (Hs'5 : s' = s5).
  { destruct (alive s5 && mem String.eqb pid dead).
    - injection Hfin as ->. simpl in Ha'. discriminate.
    - now injection Hfin. }
  subst s5.
  assert (Ha1 : alive s1 = true).
  { destruct (alive s1) eqn:Ha1; [reflexivity |].
    rewrite (Hdead eq_refl) in Ha5. congruence. }
  exists w3, w5, dead, s1, s3.
  exact (conj H3 (conj Hnd3 (conj Hheads3 (conj H5 (conj Hresp (conj Ha1
           (conj Hs3 (conj (Halive Ha1) (conj Hs5 Hpg5))))))))).
Qed.

(** A tick in which an alive snake is not bitten and does not die: with
    pending growth it ends one cell longer, and spends one unit at most. *)
Lemma quiet_tick_grows fuel inputs now_ms w w' pid s s' :
  NoDup (keys (snakes (game w))) ->
  tick fuel inputs now_ms w = (w', Ok tt) ->
  ~ bitten_in_tick pid inputs now_ms w ->
  snake_of pid w = Some s -> alive s = true ->
  snake_of pid w' = Some s' -> alive s' = true ->
  0 < pending_growth s ->
  len (cells s') = len (cells s) + 1
  /\ pending_growth s - 1 <= pending_growth s'.
Proof.
  intros Hnd Hrun Hquiet Hs Ha Hs' Ha' Hpg.
  destruct (tick_survivor _ _ _ _ _ _ _ _ Hnd Hrun Hs Hs' Ha')
    as (w3 & w5 & dead & s1 & s3 & H3 & Hnd3 & Hheads3 & H5 & Hresp & _ & Hs3
        & Hstep & Hs5 & Hpg').
  destruct Hresp as (_ & Hsame & _). rewrite (Hsame Ha) in Hstep. clear Hsame s1.
  destruct (head_cells_of_returns _ (heads_present_in w3 Hnd3 Hheads3))
    as [head_cells Hhc].
  destruct (collide_unbitten w3 w5 dead head_cells pid s3 Hnd3 Hheads3 Hhc)
    as (s5 & Hs5' & Hcells); try assumption.
  { intros a k Hbite. apply Hquiet. now exists w3, head_cells, a, k. }
  rewrite Hs5 in Hs5'. injection Hs5' as <-.
  destruct Hstep as (_ & Hne & nh & eaten & Heaten & Hc & Hpg3 & _).
  rewrite Hcells, Hc, (length_moved_body nh s Hne).
  rewrite Hpg', Hpg3.
  destruct (Z.gtb_spec (pending_growth s) 0); lia.
Qed.

Lemma tick_nodup fuel inputs now_ms w w' :
  NoDup (keys (snakes (game w))) ->
  tick fuel inputs now_ms w = (w', Ok tt) ->
  NoDup (keys (snakes (game w'))).
Proof.
  intros Hnd Hrun. pose proof (tick_keys fuel inputs now_ms w) as Hk.
  rewrite Hrun in Hk. simpl in Hk. now rewrite Hk.
Qed.

Lemma quiet_ticks_grow pid n w1 w2 :
  quiet_ticks pid n w1 w2 ->
  NoDup (keys (snakes (game w1))) ->
  forall s1, snake_of pid w1 = Some s1 -> alive s1 = true ->
    Z.of_nat n <= pending_growth s1 ->
    exists s2, snake_of pid w2 = Some s2
      /\ len (cells s2) = len (cells s1) + Z.of_nat n.
Proof.
  induction 1 as [w | n fuel inputs now_ms w w1 w2 s1 Hrun Hquiet Hs1 Ha1 _ IH];
    intros Hnd s Hs Ha Hpg.
  - exists s. split; [assumption | simpl; lia].
  - destruct (quiet_tick_grows _ _ _ _ _ _ _ _ Hnd Hrun Hquiet Hs Ha Hs1 Ha1)
      as [Hlen Hpg1]; [lia |].
    destruct (IH (tick_nodup _ _ _ _ _ Hnd Hrun) s1 Hs1 Ha1) as (s2 & Hs2 & Hlen2);
      [lia |].
    exists s2. split; [assumption | lia].
Qed.

(** A snake that eats a fruit of value [k] and survives the tick ends it
    with at least [k] units of pending growth. *)
Lemma eating_tick_pending fuel inputs now_ms w w' pid k s s' :
  NoDup (keys (snakes (game w))) ->
  snake_of pid w = Some s -> 0 <= pending_growth s ->
  eats_in_tick pid k inputs now_ms w ->
  tick fuel inputs now_ms w = (w', Ok tt) ->
  snake_of pid w' = Some s' -> alive s' = true ->
  k <= pending_growth s'.
Proof.
  intros Hnd Hs Hpg (Hk & w3 & s0 & s3 & H3 & Hs0 & Hs3 & Hscore) Hrun Hs' Ha'.
  rewrite Hs in Hs0. injection Hs0 as <-.
  destruct (tick_survivor _ _ _ _ _ _ _ _ Hnd Hrun Hs Hs' Ha')
    as (w3' & w5 & dead & s1 & s3' & H3' & _ & _ & _ & Hresp & Ha1 & Hs3'
        & Hstep & _ & Hpg').
  rewrite H3 in H3'. injection H3' as <-.
  rewrite Hs3 in Hs3'. injection Hs3' as <-.
  destruct Hresp as (Hsc1 & Hsame & Hfresh).
  destruct Hstep as (Ha3 & _ & nh & eaten & _ & _ & Hpg3 & Hsc3).
  assert (Heaten : eaten = k) by lia. subst eaten.
  assert (Hpg1 : 0 <= pending_growth s1).
  { destruct (alive s) eqn:Ha.
    - now rewrite (Hsame eq_refl).
    - rewrite (Hfresh eq_refl Ha1). lia. }
  rewrite Hpg', Hpg3.
  destruct (Z.gtb_spec (pending_growth s1) 0); lia.
Qed.

(** C6 (as amended).  A snake with no negative pending growth eats a fruit
    of value [k] on a tick and is alive after it.  If over the following [k]
    ticks it is not bitten and does not die, its body is after those ticks
    exactly [k] cells longer than right after the eating tick.  Eating again
    in between does not change this. *)
Theorem growth_after_eating fuel inputs now_ms pid k w0 w1 w2 s0 s1 :
  NoDup (keys (snakes (game w0))) ->
  snake_of pid w0 = Some s0 -> 0 <= pending_growth s0 ->
  eats_in_tick pid k inputs now_ms w0 ->
  tick fuel inputs now_ms w0 = (w1, Ok tt) ->
  snake_of pid w1 = Some s1 -> alive s1 = true ->
  quiet_ticks pid (Z.to_nat k) w1 w2 ->
  exists s2, snake_of pid w2 = Some s2 /\ len (cells s2) = len (cells s1) + k.
Proof.
  intros Hnd Hs0 Hpg0 Heats Hrun Hs1 Ha1 Hquiet.
  pose proof (eating_tick_pending _ _ _ _ _ _ _ _ _ Hnd Hs0 Hpg0 Heats Hrun Hs1 Ha1)
    as Hpg1.
  assert (Hk : 0 < k) by apply Heats.
  destruct (quiet_ticks_grow pid _ w1 w2 Hquiet (tick_nodup _ _ _ _ _ Hnd Hrun)
              s1 Hs1 Ha1) as (s2 & Hs2 & Hlen); [lia |].
  exists s2. split; [assumption | lia].
Qed.

(** ** Reading bites off a concrete world *)

Lemma not_bitten_check pid inputs now_ms w w3 head_cells :
  NoDup (keys (snakes (game w))) ->
  tick_to_move inputs now_ms w = (w3, Ok tt) ->
  head_cells_of (snakes (game w3)) = Ok head_cells ->
  existsb (fun e => String.eqb pid (fst e))
          (bite_entries (snakes (game w3)) (head_on_dead head_cells)) = false ->
  ~ bitten_in_tick pid inputs now_ms w.
Proof.
  intros Hnd H3 Hhc Hnone (w3' & hc' & a & k & H3' & Hhc' & Hbite).
  rewrite H3 in H3'. injection H3' as <-.
  rewrite Hhc in Hhc'. injection Hhc' as <-.
  destruct (tick_to_move_heads _ _ _ _ Hnd H3) as [Hnd3 _].
  apply (bites_segment_entries w3 _ a pid k Hnd3) in Hbite.
  assert (Hex : existsb (fun e => String.eqb pid (fst e))
                  (bite_entries (snakes (game w3)) (head_on_dead head_cells)) = true).
  { apply existsb_exists. exists (pid, (k, a)). split; [assumption |].
    simpl. apply String.eqb_refl. }
  congruence.
Qed.

Lemma nodup_one (a : string) : NoDup [a].
Proof. constructor; [intros [] | constructor]. Qed.

Lemma nodup_two (a b : string) : String.eqb a b = false -> NoDup [a; b].
Proof.
  intros Hab. constructor; [| apply nodup_one].
  intros [-> | []]. rewrite String.eqb_refl in Hab. discriminate.
Qed.

Lemma idle_calm pid n :
  forall now_ms w,
    NoDup (keys (snakes (game w))) ->
    Scenes.calm pid n now_ms w = true ->
    quiet_ticks pid n w (Scenes.idle n now_ms w).
Proof.
  induction n as [| n IH]; intros now_ms w Hnd Hcalm.
  - apply quiet_done.
  - cbn [Scenes.calm] in Hcalm. cbn [Scenes.idle].
    destruct (tick_to_move [] now_ms w) as [w3 [[] | e]] eqn:H3; [| discriminate].
    destruct (head_cells_of (snakes (game w3))) as [head_cells | e] eqn:Hhc;
      [| discriminate].
    apply andb_prop in Hcalm as [Hnone Hcalm].
    apply negb_true_iff in Hnone.
    destruct (snd (tick 4 [] now_ms w)) as [[] | e] eqn:Hrun; [| discriminate].
    destruct (snake_of pid (Scenes.after 4 [] now_ms w)) as [s1 |] eqn:Hs1;
      [| discriminate].
    apply andb_prop in Hcalm as [Ha1 Hcalm].
    assert (Hrun' : tick 4 [] now_ms w = (Scenes.after 4 [] now_ms w, Ok tt)).
    { unfold Scenes.after. destruct (tick 4 [] now_ms w) as [w' r]. simpl in *.
      now subst r. }
    apply (quiet_step pid n 4%nat [] now_ms w (Scenes.after 4 [] now_ms w) _ s1);
      try assumption.
    + now apply (not_bitten_check pid [] now_ms w w3 head_cells Hnd).
    + apply IH; [| assumption]. exact (tick_nodup _ _ _ _ _ Hnd Hrun').
Qed.

Local Open Scope Z_scope.
Local Open Scope bool_scope.
Import Geometry Sim.

Lemma growth_after_eating_witness :
  exists s2,
    snake_of "A" (Scenes.idle 3 1083 (Scenes.after 4 [] 1000 Demo.world0)) = Some s2
    /\ len (cells s2) = len (cells Scenes.fedA) + 3.
Proof.
  apply (growth_after_eating 4%nat [] 1000 "A"%string 3 Demo.world0
           (Scenes.after 4 [] 1000 Demo.world0) (Scenes.idle 3 1083 (Scenes.after 4 [] 1000 Demo.world0))
           Demo.snakeA Scenes.fedA).
  - apply nodup_one.
  - reflexivity.
  - simpl. lia.
  - split; [lia |].
    exists (fst (tick_to_move [] 1000 Demo.world0)), Demo.snakeA,
           (set_score 3 Scenes.fedA).
    repeat split; vm_compute; reflexivity.
  - vm_compute. reflexivity.
  - vm_compute. reflexivity.
  - reflexivity.
  - change (Z.to_nat 3) with 3%nat.
    apply (idle_calm "A" 3 1083 (Scenes.after 4 [] 1000 Demo.world0)).
    + vm_compute. apply nodup_one.
    + vm_compute. reflexivity.
Defined.

(** A eats the apple (value 3) on the first tick and is 8 cells long after
    it.  On the next tick B runs into segment 5 of A.  A neither eats again
    (its score stays 3) nor dies, and after the three ticks that follow the
    eating tick it is 7 cells long, not 11. *)
Lemma bitten_after_eating :
  eats_in_tick "A" 3 [] 1000 Scenes.world_cross
  /\ Scenes.runs 4 1000 Scenes.world_cross = true
  /\ map (fun n => Scenes.shown "A" (Scenes.idle n 1000 Scenes.world_cross))
         [1; 2; 3; 4]%nat
     = [Some (true, 3, 8); Some (true, 3, 5); Some (true, 3, 6); Some (true, 3, 7)]
  /\ map (fun n => Scenes.shown "B" (Scenes.idle n 1000 Scenes.world_cross))
         [1; 2; 3; 4]%nat
     = [Some (true, 0, 4); Some (true, 4, 4); Some (true, 4, 4); Some (true, 4, 4)].
Proof.
  split.
  - split; [lia |].
    exists (fst (tick_to_move [] 1000 Scenes.world_cross)), Scenes.longA,
           (mkSnake "A" true 0 [275; 283; 291; 299; 307; 315; 316; 317] 3 3 None).
    repeat split; vm_compute; reflexivity.
  - vm_compute. auto.
Qed.

Local Open Scope Z_scope.
Local Open Scope bool_scope.
Import Geometry Sim.

(** * Commands *)

(** What the planning loop does for an alive snake, step by step: the command
    is applied to the direction, the head is projected one step in the new
    direction, and the transported direction is stored. *)
Lemma plan_moves_exact n inputs fbc w w' planned :
  NoDup (keys (snakes (game w))) ->
  plan_moves n inputs fbc w = (w', Ok planned) ->
  forall pid s, snake_of pid w = Some s -> alive s = true ->
    exists d head rest next_head new_dir,
      apply_command (command_of inputs pid) (dir s) = Ok d
      /\ cells s = head :: rest
      /\ step_cell head d n = Ok (next_head, new_dir)
      /\ snake_of pid w' = Some (set_dir new_dir s)
      /\ dict_get String.eqb pid planned
         = Some (next_head, new_dir,
                 match dict_get Z.eqb next_head fbc with
                 | Some fruit => value fruit
                 | None => 0
                 end).
Proof.
  intros Hnd Hrun pid s Hs Halive. unfold plan_moves in Hrun.
  unshelve epose proof
    (for_snakes_local _ (fun p acc => dict_get String.eqb p acc)
       (fun p s s' _ v' =>
          alive s = true ->
          exists d head rest next_head new_dir,
            apply_command (command_of inputs p) (dir s) = Ok d
            /\ cells s = head :: rest
            /\ step_cell head d n = Ok (next_head, new_dir)
            /\ s' = set_dir new_dir s
            /\ v' = Some (next_head, new_dir,
                          match dict_get Z.eqb next_head fbc with
                          | Some fruit => value fruit
                          | None => 0
                          end))
       _ w [] w' planned Hnd Hrun pid s Hs) as (s' & Hs' & Hpost).
  - clear. intros pid s acc w w' acc' Hs Hbody. cbv beta in Hbody.
    destruct (alive s) eqn:Ha; cbn [negb] in Hbody; cbv beta iota in Hbody.
    2:{ unfold ret in Hbody. injection Hbody as <- <-. split; [auto |]. exists s.
        split; [assumption | congruence]. }
    unfold bind at 1 in Hbody. unfold lift at 1 in Hbody.
    destruct (apply_command (command_of inputs pid) (dir s)) as [d | e] eqn:Hcmd;
      [| discriminate].
    unfold bind at 1 in Hbody. rewrite update_snake_run in Hbody.
    set (w1 := put_snakes (dict_update String.eqb pid (set_dir d) (snakes (game w))) w)
      in Hbody.
    destruct (cells s) as [| head rest] eqn:Hcells; [discriminate |].
    unfold bind at 1 in Hbody. unfold lift at 1 in Hbody.
    destruct (step_cell head d n) as [[next_head new_dir] | e] eqn:Hstep;
      [| discriminate].
    unfold bind at 1 in Hbody. rewrite update_snake_run in Hbody.
    unfold ret in Hbody.
    assert (Hw' : w' = put_snakes
                         (dict_update String.eqb pid (set_dir new_dir)
                            (dict_update String.eqb pid (set_dir d) (snakes (game w)))) w)
      by (injection Hbody as <- _; reflexivity).
    assert (Hacc' : acc' = dict_set String.eqb pid
                             (next_head, new_dir,
                              match dict_get Z.eqb next_head fbc with
                              | Some fruit => value fruit
                              | None => 0
                              end) acc)
      by (injection Hbody as _ <-; reflexivity).
    clear Hbody w1. subst w' acc'. unfold snake_of in Hs.
    split.
    + intros q Hne. rewrite snake_of_put, !(dict_get_update String.eqb String.eqb_spec).
      destruct (String.eqb_spec q pid); [contradiction |].
      split; [reflexivity |].
      rewrite (dict_get_set String.eqb String.eqb_spec).
      destruct (String.eqb_spec q pid); [contradiction | reflexivity].
    + eexists. rewrite snake_of_put, !(dict_get_update String.eqb String.eqb_spec).
      rewrite !String.eqb_refl, Hs.
      split; [reflexivity |]. intros _.
      exists d, head, rest, next_head, new_dir.
      repeat split; try assumption.
      rewrite (dict_get_set String.eqb String.eqb_spec), String.eqb_refl. reflexivity.
  - destruct (Hpost Halive) as (d & head & rest & nh & nd & H1 & H2 & H3 & -> & H5).
    exists d, head, rest, nh, nd. repeat split; assumption.
Qed.

(** A tick that returns has run its phases up to the move. *)
Lemma tick_to_move_inv inputs now_ms w w3 :
  tick_to_move inputs now_ms w = (w3, Ok tt) ->
  exists w1 w2 planned,
    respawn_pass (cube_n (settings (game w))) now_ms w = (w1, Ok tt)
    /\ plan_moves (cube_n (settings (game w))) inputs
                  (fruit_by_cell_of (fruits (game w1))) w1 = (w2, Ok planned)
    /\ move_and_eat planned (fruit_by_cell_of (fruits (game w1))) w2 = (w3, Ok tt).
Proof.
  intros Hrun.
  unfold tick_to_move in Hrun. unfold bind at 1 in Hrun. unfold get at 1 in Hrun.
  unfold bind at 1 in Hrun.
  destruct (respawn_pass (cube_n (settings (game w))) now_ms w)
    as [w1 [[] | e]] eqn:H1; [| discriminate].
  unfold bind at 1 in Hrun. unfold get at 1 in Hrun. unfold bind at 1 in Hrun.
  destruct (plan_moves (cube_n (settings (game w))) inputs
              (fruit_by_cell_of (fruits (game w1))) w1)
    as [w2 [planned | e]] eqn:H2; [| discriminate].
  exists w1, w2, planned. auto.
Qed.

Lemma apply_command_int t s_dir : apply_command (PyInt t) s_dir = Raise TypeError.
Proof. reflexivity. Qed.

Lemma command_of_int inputs pid t :
  dict_get String.eqb pid inputs = Some (PyInt t) -> t <> 0 ->
  command_of inputs pid = PyInt t.
Proof.
  intros Hget Ht. unfold command_of. rewrite Hget. simpl.
  destruct (Z.eqb_spec t 0); [contradiction | reflexivity].
Qed.

(** When the command of a player is a non-zero integer and the player's
    snake is alive, [tick] does not return: the call raises. *)
Theorem tick_raw_turn_raises fuel inputs now_ms w pid s t :
  NoDup (keys (snakes (game w))) ->
  snake_of pid w = Some s -> alive s = true ->
  dict_get String.eqb pid inputs = Some (PyInt t) -> t <> 0 ->
  exists e, snd (tick fuel inputs now_ms w) = Raise e.
Proof.
  intros Hnd Hs Ha Hget Ht.
  destruct (tick fuel inputs now_ms w) as [w' [[] | e]] eqn:Hrun;
    [| exists e; reflexivity].
  exfalso.
  destruct (tick_inv _ _ _ _ _ Hrun) as (w3 & _ & _ & H3 & _).
  destruct (tick_to_move_inv _ _ _ _ H3) as (w1 & w2 & planned & H1 & H2 & _).
  destruct (respawn_pass_spec _ _ _ _ Hnd H1 pid s Hs) as (s1 & Hs1 & _ & Hsame & _).
  rewrite (Hsame Ha) in Hs1.
  assert (Hnd1 : NoDup (keys (snakes (game w1)))).
  { pose proof (respawn_pass_keys (cube_n (settings (game w))) now_ms w) as Hk.
    rewrite H1 in Hk. simpl in Hk. now rewrite Hk. }
  destruct (plan_moves_exact _ _ _ _ _ _ Hnd1 H2 pid s Hs1 Ha)
    as (d & _ & _ & _ & _ & Hcmd & _).
  rewrite (command_of_int inputs pid t Hget Ht) in Hcmd. discriminate.
Qed.

Local Open Scope string_scope.
Local Open Scope Z_scope.
Local Open Scope bool_scope.
Import Geometry Sim.

(** Heads, checked on a concrete world. *)
Lemma heads_present_check w :
  forallb (fun ps => negb (alive (snd ps))
                     || negb (match cells (snd ps) with [] => true | _ => false end))
          (snakes (game w)) = true ->
  heads_present w.
Proof.
  intros Hall pid s Hs Ha Hnil. unfold snake_of in Hs.
  apply (dict_get_some_in String.eqb String.eqb_spec) in Hs.
  rewrite forallb_forall in Hall. specialize (Hall (pid, s) Hs). simpl in Hall.
  rewrite Ha, Hnil in Hall. discriminate.
Qed.

Lemma self_bite_alone_witness :
  exists w' dead' s',
    collide Scenes.world_coiled = (w', Ok dead')
    /\ snake_of "A" w' = Some s'
    /\ cells s' = firstn (Z.to_nat 4) (cells Scenes.coiledA)
    /\ score s' = score Scenes.coiledA + (len (cells Scenes.coiledA) - 4)
    /\ (In "A" dead' <-> 4 < 4).
Proof.
  apply (self_bite_alone Scenes.world_coiled [(291, ["A"])] "A" Scenes.coiledA 4).
  - apply nodup_one.
  - apply heads_present_check. reflexivity.
  - reflexivity.
  - reflexivity.
  - exists Scenes.coiledA, Scenes.coiledA, 291, [283; 282; 290; 291; 292; 293].
    repeat split; try reflexivity; try lia.
    intros [].
  - intros a v k Hb _.
    apply (bites_segment_entries Scenes.world_coiled _ a v k (nodup_one "A")) in Hb.
    vm_compute in Hb. destruct Hb as [Hb | []].
    injection Hb as <- <- <-. repeat split.
Defined.

(** A turns into its own segment 4 while B runs into segment 2 of A.  After
    the move the head of A (cell 291) is cell 4 of its body and nobody is
    dead head-on.  The bite pass leaves A 2 cells, not its first 4, and marks
    it dead; A is awarded the 3 cells from its own bite on, B the 2 before. *)
Lemma self_bite_with_other_attacker :
  let r := tick_to_move [] 1000 Scenes.world_coil in
  let c := collide (fst r) in
  snd r = Ok tt
  /\ option_map cells (snake_of "A" (fst r)) = Some [291; 283; 282; 290; 291; 292; 293]
  /\ head_cells_of (snakes (game (fst r))) = Ok [(291, ["A"]); (282, ["B"])]
  /\ head_on_dead [(291, ["A"]); (282, ["B"])] = []
  /\ snd c = Ok ["A"]
  /\ option_map cells (snake_of "A" (fst c)) = Some [291; 283]
  /\ option_map score (snake_of "A" (fst c)) = Some 3
  /\ option_map score (snake_of "B" (fst c)) = Some 2.
Proof. vm_compute. repeat split. Qed.

Local Close Scope string_scope.

Local Open Scope string_scope.
Local Open Scope Z_scope.
Local Open Scope bool_scope.
Import Geometry Sim.

(** * The server around the simulation *)

(** ** From an [input] message to the tick *)

Lemma dict_get_map_values {V W : Type} (f : V -> W) pid (ps : list (string * V)) :
  dict_get String.eqb pid (map (fun pp => (fst pp, f (snd pp))) ps)
  = option_map f (dict_get String.eqb pid ps).
Proof.
  induction ps as [| [k v] ps IH]; simpl; [reflexivity |].
  destruct (String.eqb pid k); [reflexivity | exact IH].
Qed.

Lemma store_input_accepts int_of_str pid r p T t :
  dict_get String.eqb pid (Rooms.players r) = Some p ->
  t = -1 \/ t = 0 \/ t = 1 ->
  Net.store_input int_of_str pid r
    (JObj [("tick"%string, JInt T); ("turn"%string, JInt t)])
  = Ok (Rooms.set_players
          (dict_update String.eqb pid
             (fun p => Rooms.set_input_by_tick
                         (dict_set Z.eqb T t (Rooms.input_by_tick p)) p)
             (Rooms.players r)) r).
Proof.
  intros Hp Ht. unfold Net.store_input, Net.field. simpl.
  rewrite Hp. destruct Ht as [-> | [-> | ->]]; reflexivity.
Qed.

Lemma take_inputs_stored pid p T t ps :
  dict_get String.eqb pid ps = Some p ->
  dict_get String.eqb pid
    (fst (Rooms.take_inputs T
            (dict_update String.eqb pid
               (fun p => Rooms.set_input_by_tick
                           (dict_set Z.eqb T t (Rooms.input_by_tick p)) p) ps)))
  = Some (PyInt t).
Proof.
  intros Hp. unfold Rooms.take_inputs. cbn [fst].
  rewrite (dict_get_map_values (fun p => fst (Rooms.pop_input T p))).
  rewrite (dict_get_update_same String.eqb String.eqb_spec), Hp. simpl.
  unfold Rooms.pop_input. simpl.
  rewrite (dict_get_set Z.eqb Z.eqb_spec), Z.eqb_refl. reflexivity.
Qed.

(** C1.  An accepted item [{tick: T, turn: t}] with [t] 1 or -1 is stored as
    the integer [t]; when the driver pops it at tick [T] for a player whose
    snake is alive, [tick] raises instead of rotating the snake, and the
    driver's pass ends with that exception. *)
Theorem stored_turn_breaks_tick int_of_str fuel now d pid p g s t :
  Rooms.game (Rooms.room d) = Some g ->
  Rooms.phase (Rooms.room d) = "running"%string ->
  now < Sim.ends_at_ms g ->
  dict_get String.eqb pid (Rooms.players (Rooms.room d)) = Some p ->
  NoDup (keys (Sim.snakes g)) ->
  dict_get String.eqb pid (Sim.snakes g) = Some s -> Sim.alive s = true ->
  t = 1 \/ t = -1 ->
  exists r1 e,
    Net.store_input int_of_str pid (Rooms.room d)
      (JObj [("tick"%string, JInt (Sim.tick_no g)); ("turn"%string, JInt t)]) = Ok r1
    /\ snd (Rooms.locked_step fuel now
              (Rooms.mkDriver r1 (Rooms.token_hex d) (Rooms.tokens_drawn d)))
       = Raise e.
Proof.
  intros Hg Hph Hnow Hp Hnd Hs Ha Ht.
  pose proof (store_input_accepts int_of_str pid (Rooms.room d) p (Sim.tick_no g) t Hp)
    as Hstore.
  rewrite Hstore by lia. clear Hstore.
  set (ps1 := dict_update String.eqb pid
                (fun p => Rooms.set_input_by_tick
                            (dict_set Z.eqb (Sim.tick_no g) t (Rooms.input_by_tick p)) p)
                (Rooms.players (Rooms.room d))).
  destruct (tick_raw_turn_raises fuel (fst (Rooms.take_inputs (Sim.tick_no g) ps1)) now
              (Sim.mkWorld g (Rooms.token_hex d) (Rooms.tokens_drawn d)) pid s t)
    as [e He]; try assumption.
  - exact (take_inputs_stored pid p (Sim.tick_no g) t _ Hp).
  - lia.
  - eexists. exists e. split; [reflexivity |].
    unfold Rooms.locked_step.
    cbn [Rooms.room Rooms.game Rooms.phase Rooms.players Rooms.set_players
         Rooms.token_hex Rooms.tokens_drawn].
    rewrite Hg, Hph. rewrite String.eqb_refl. cbn [negb].
    destruct (Z.leb_spec (Sim.ends_at_ms g - now) 0) as [Hle | _]; [lia |].
    fold ps1.
    destruct (Rooms.take_inputs (Sim.tick_no g) ps1) as [inputs ps] eqn:Htake.
    cbn [fst] in He.
    destruct (Sim.tick fuel inputs now
                (Sim.mkWorld g (Rooms.token_hex d) (Rooms.tokens_drawn d)))
      as [w res].
    cbn [snd] in He. subst res. reflexivity.
Qed.

Lemma stored_turn_breaks_tick_witness :
  exists r1 e,
    Net.store_input RoomScenes.no_int "A" RoomScenes.running_room
      (JObj [("tick"%string, JInt (tick_no Demo.game0)); ("turn"%string, JInt 1)]) = Ok r1
    /\ snd (Rooms.locked_step 4 1000 (Rooms.mkDriver r1 Demo.tokens 0)) = Raise e.
Proof.
  apply (stored_turn_breaks_tick RoomScenes.no_int 4 1000
           (Rooms.mkDriver RoomScenes.running_room Demo.tokens 0)
           "A" RoomScenes.playerA Demo.game0 Demo.snakeA 1).
  - reflexivity.
  - reflexivity.
  - reflexivity.
  - reflexivity.
  - apply nodup_one.
  - reflexivity.
  - reflexivity.
  - left. reflexivity.
Defined.

(** The run of the scenario: the stored turn makes [tick] raise [TypeError],
    and the snake of A still heads North (direction 0) on its old cells. *)
Example stored_turn_scenario :
  let r1 := match Net.store_input RoomScenes.no_int "A" RoomScenes.running_room
                    RoomScenes.turn_right_now with
            | Ok r => r
            | Raise _ => RoomScenes.running_room
            end in
  let out := Rooms.locked_step 4 1000 (Rooms.mkDriver r1 Demo.tokens 0) in
  option_map Rooms.input_by_tick (dict_get String.eqb "A" (Rooms.players r1))
  = Some [(0, 1)]
  /\ snd out = Raise TypeError
  /\ option_map (fun g => map (fun ps => (dir (snd ps), cells (snd ps))) (snakes g))
                (Rooms.game (Rooms.room (fst out)))
     = Some [(0, [283; 291; 299; 307])].
Proof. vm_compute. repeat split. Qed.

(** ** Joining *)







Local Close Scope string_scope.

Local Open Scope string_scope.
Local Open Scope Z_scope.
Local Open Scope bool_scope.
Import Geometry Sim.

(** * More of the simulation *)

(** ** The tick counter *)

#[local] Instance same_tick_no_preorder : PreOrder same_tick_no.
Proof.
  split.
  - intros w. reflexivity.
  - intros a b c Hab Hbc. unfold same_tick_no in *. congruence.
Qed.

Lemma phases_keep_tick_no fuel inputs now_ms :
  preserves same_tick_no
    (dead <- tick_to_collisions inputs now_ms ;;
     finalize_deaths now_ms dead ;;;
     ensure_fruit_target fuel).
Proof.
  assert (Hok : admits_update (fun _ : Snake -> Snake => True))
    by (unfold admits_update; repeat split).
  apply preserves_bind.
  - apply (tick_to_collisions_preserves same_tick_no (fun _ => True)); easy.
  - intros dead. apply preserves_bind.
    + apply (finalize_deaths_preserves same_tick_no (fun _ => True)); easy.
    + intros _. apply (ensure_fruit_target_preserves same_tick_no); easy.
Qed.

Lemma tick_no_after fuel inputs now_ms w :
  let out := tick fuel inputs now_ms w in
  tick_no (game (fst out))
  = match snd out with
    | Ok _ => tick_no (game w) + 1
    | Raise _ => tick_no (game w)
    end.
Proof.
  cbv zeta. unfold tick.
  pose proof (phases_keep_tick_no fuel inputs now_ms w) as Hkeep.
  unfold same_tick_no in Hkeep.
  assert (Hsplit :
    (dead <- tick_to_collisions inputs now_ms ;;
     finalize_deaths now_ms dead ;;;
     ensure_fruit_target fuel ;;;
     modify (fun w => set_game (set_tick_no (tick_no (game w) + 1) (game w)) w)) w
    = ((dead <- tick_to_collisions inputs now_ms ;;
        finalize_deaths now_ms dead ;;;
        ensure_fruit_target fuel) ;;;
       modify (fun w => set_game (set_tick_no (tick_no (game w) + 1) (game w)) w)) w).
  { unfold bind.
    destruct (tick_to_collisions inputs now_ms w) as [w1 [dead | e]]; [| reflexivity].
    destruct (finalize_deaths now_ms dead w1) as [w2 [[] | e]]; reflexivity. }
  rewrite Hsplit. clear Hsplit.
  set (inner := (dead <- tick_to_collisions inputs now_ms ;;
                 finalize_deaths now_ms dead ;;;
                 ensure_fruit_target fuel)) in *.
  unfold bind.
  destruct (inner w) as [w3 [[] | e]]; simpl in *.
  - now rewrite Hkeep.
  - exact Hkeep.
Qed.

(** X6. A call of [tick] that returns has advanced the tick counter by exactly
    one; a call that raises has left it as it was. *)
Theorem tick_counts_one fuel inputs now_ms w :
  let out := tick fuel inputs now_ms w in
  tick_no (game (fst out))
  = match snd out with
    | Ok _ => tick_no (game w) + 1
    | Raise _ => tick_no (game w)
    end.
Proof. apply tick_no_after. Qed.

(** ** The players of a game *)

(** X7. A call of [tick] neither adds nor removes a player, nor changes the
    order of [state.snakes], whether it returns or raises. *)
Theorem tick_keeps_players fuel inputs now_ms w :
  keys (snakes (game (fst (tick fuel inputs now_ms w)))) = keys (snakes (game w)).
Proof. apply tick_keys. Qed.

(** ** Occupancy *)

(** X8. [_occupied_cells] lists under a cell exactly the pairs [(pid, idx)] such
    that [pid] is alive and cell [idx] of its body is that cell; the cells of
    dead snakes are not listed. *)
Theorem occupied_cells_spec sn c pid idx :
  In (pid, idx) (get_or Z.eqb c (_occupied_cells sn) [])
  <-> exists s, In (pid, s) sn /\ alive s = true /\ 0 <= idx
                /\ nth_error (cells s) (Z.to_nat idx) = Some c.
Proof. rewrite occ_get. apply in_occ_at. Qed.

(** ** Where a tick can raise *)

(** X9. When the phases of a tick up to the move return, collision resolution
    and death finalization return as well: nothing in them can raise. *)
Theorem collisions_never_raise inputs now_ms w w3 :
  NoDup (keys (snakes (game w))) ->
  tick_to_move inputs now_ms w = (w3, Ok tt) ->
  exists w5 dead w6,
    tick_to_collisions inputs now_ms w = (w5, Ok dead)
    /\ finalize_deaths now_ms dead w5 = (w6, Ok tt).
Proof.
  intros Hnd H3.
  destruct (tick_to_move_heads _ _ _ _ Hnd H3) as [Hnd3 Hheads3].
  destruct (collide_run w3 Hnd3 Hheads3) as (hc & bites & sn' & _ & _ & Hrun & _).
  pose proof (finalize_deaths_returns now_ms
                (pass_dead (snakes (game w3)) (head_on_dead hc) bites (head_on_dead hc))
                (put_snakes sn' w3)) as Hfin.
  destruct (finalize_deaths now_ms
              (pass_dead (snakes (game w3)) (head_on_dead hc) bites (head_on_dead hc))
              (put_snakes sn' w3)) as [w6 r6] eqn:H6.
  simpl in Hfin. subst r6.
  exists (put_snakes sn' w3),
    (pass_dead (snakes (game w3)) (head_on_dead hc) bites (head_on_dead hc)), w6.
  split; [| exact H6].
  unfold tick_to_collisions, bind. now rewrite H3.
Qed.

Lemma collisions_never_raise_witness :
  exists w5 dead w6,
    tick_to_collisions [] 1000 Scenes.world_coil = (w5, Ok dead)
    /\ finalize_deaths 1000 dead w5 = (w6, Ok tt).
Proof.
  apply (collisions_never_raise [] 1000 Scenes.world_coil
           (fst (tick_to_move [] 1000 Scenes.world_coil))).
  - apply nodup_two. reflexivity.
  - vm_compute. reflexivity.
Defined.

(** ** Pending growth *)

(** X10. A snake that is alive after a tick has no negative pending growth,
    provided it had none before. *)
Theorem pending_growth_not_negative fuel inputs now_ms w w' pid s s' :
  NoDup (keys (snakes (game w))) ->
  tick fuel inputs now_ms w = (w', Ok tt) ->
  snake_of pid w = Some s -> 0 <= pending_growth s ->
  snake_of pid w' = Some s' -> alive s' = true ->
  0 <= pending_growth s'.
Proof.
  intros Hnd Hrun Hs Hpg Hs' Ha'.
  destruct (tick_survivor _ _ _ _ _ _ _ _ Hnd Hrun Hs Hs' Ha')
    as (w3 & w5 & dead & s1 & s3 & _ & _ & _ & _ & Hresp & Ha1 & _ & Hstep & _ & Hpg').
  destruct Hresp as (_ & Hsame & Hfresh).
  destruct Hstep as (_ & _ & nh & eaten & Heaten & _ & Hpg3 & _).
  assert (Hpg1 : 0 <= pending_growth s1).
  { destruct (alive s) eqn:Ha.
    - now rewrite (Hsame eq_refl).
    - rewrite (Hfresh eq_refl Ha1). lia. }
  rewrite Hpg', Hpg3.
  destruct (Z.gtb_spec (pending_growth s1) 0); lia.
Qed.

Lemma pending_growth_not_negative_witness :
  0 <= pending_growth Scenes.fedA.
Proof.
  apply (pending_growth_not_negative 4 [] 1000 Demo.world0
           (Scenes.after 4 [] 1000 Demo.world0) "A" Demo.snakeA Scenes.fedA).
  - apply nodup_one.
  - vm_compute. reflexivity.
  - reflexivity.
  - simpl. lia.
  - vm_compute. reflexivity.
  - reflexivity.
Defined.

(** ** Turning by command *)

Lemma head_of_moved_body next_head s :
  cells s <> [] -> exists tail, moved_body next_head s = next_head :: tail.
Proof.
  intros Hne. unfold moved_body. destruct (pending_growth s >? 0); [eauto |].
  destruct (cells s) as [| c cs]; [contradiction |].
  change (removelast (next_head :: c :: cs)) with (next_head :: removelast (c :: cs)).
  eauto.
Qed.

(** X11. When the command of an alive snake is the dict [{"turn": t}] with [t] in
    -1, 0, 1 and the phases up to the move return, the new head of the snake
    is the cell one step from its old head in the direction
    [(dir + t) mod 4]. *)
Theorem turn_command_steers inputs now_ms w w3 pid s head rest t :
  NoDup (keys (snakes (game w))) ->
  tick_to_move inputs now_ms w = (w3, Ok tt) ->
  snake_of pid w = Some s -> alive s = true -> cells s = head :: rest ->
  dict_get String.eqb pid inputs = Some (PyDict [("turn", t)]) ->
  -1 <= t <= 1 ->
  exists s3 next_head new_dir tail,
    snake_of pid w3 = Some s3
    /\ step_cell head ((dir s + t) mod 4) (cube_n (settings (game w)))
       = Ok (next_head, new_dir)
    /\ cells s3 = next_head :: tail.
Proof.
  intros Hnd H3 Hs Ha Hcells Hcmd Ht.
  destruct (tick_to_move_inv _ _ _ _ H3) as (w1 & w2 & planned & H1 & H2 & Hmove).
  destruct (respawn_pass_spec _ _ _ _ Hnd H1 pid s Hs) as (s1 & Hs1 & _ & Hsame & _).
  rewrite (Hsame Ha) in Hs1. clear s1 Hsame.
  assert (Hnd1 : NoDup (keys (snakes (game w1)))).
  { pose proof (respawn_pass_keys (cube_n (settings (game w))) now_ms w) as Hk.
    rewrite H1 in Hk. simpl in Hk. now rewrite Hk. }
  assert (Hnd2 : NoDup (keys (snakes (game w2)))).
  { pose proof (plan_moves_keys (cube_n (settings (game w))) inputs
                  (fruit_by_cell_of (fruits (game w1))) w1) as Hk.
    rewrite H2 in Hk. simpl in Hk. now rewrite Hk. }
  destruct (plan_moves_exact _ _ _ _ _ _ Hnd1 H2 pid s Hs1 Ha)
    as (d & head' & rest' & nh & nd & Hd & Hc & Hstep & Hs2 & Hplanned).
  rewrite Hcells in Hc. injection Hc as <- <-.
  assert (Hdir : d = (dir s + t) mod 4).
  { unfold command_of in Hd. rewrite Hcmd in Hd. simpl in Hd.
    unfold turn in Hd.
    assert (Et : t = -1 \/ t = 0 \/ t = 1) by lia.
    destruct Et as [-> | [-> | ->]]; simpl in Hd; now injection Hd. }
  subst d.
  destruct (move_and_eat_spec _ _ _ _ Hnd2 Hmove pid _ Hs2) as (s3 & Hs3 & _ & Hmoved).
  destruct (Hmoved Ha) as (_ & nh' & d' & ev & eaten & Hp' & Hc3 & _).
  rewrite Hplanned in Hp'. injection Hp' as <- _ _.
  destruct (head_of_moved_body nh (set_dir nd s)) as [tail Htail].
  { simpl. rewrite Hcells. discriminate. }
  exists s3, nh, nd, tail. split; [assumption |]. split; [assumption |].
  now rewrite Hc3.
Qed.

Lemma turn_command_steers_witness :
  exists s3 next_head new_dir tail,
    snake_of "A" (fst (tick_to_move [("A", PyDict [("turn", 1)])] 1000 Demo.world0))
    = Some s3
    /\ step_cell 283 ((dir Demo.snakeA + 1) mod 4) (cube_n (settings (game Demo.world0)))
       = Ok (next_head, new_dir)
    /\ cells s3 = next_head :: tail.
Proof.
  apply (turn_command_steers [("A", PyDict [("turn", 1)])] 1000 Demo.world0
           (fst (tick_to_move [("A", PyDict [("turn", 1)])] 1000 Demo.world0))
           "A" Demo.snakeA 283 [291; 299; 307] 1).
  - apply nodup_one.
  - vm_compute. reflexivity.
  - reflexivity.
  - reflexivity.
  - reflexivity.
  - reflexivity.
  - lia.
Defined.

Local Close Scope string_scope.

Local Open Scope Z_scope.
Local Open Scope bool_scope.
Import Geometry Sim.

(** * Placement and respawn *)

Lemma walk_back_spec steps : forall cell back_dir n occupied body body',
  walk_back steps cell back_dir n occupied body = Ok (Some body') ->
  exists ext,
    body' = body ++ ext
    /\ List.length ext = steps
    /\ forall c, In c ext -> mem Z.eqb c occupied = false.
Proof.
  induction steps as [| k IH]; intros cell back_dir n occupied body body' Hrun;
    simpl in Hrun.
  - injection Hrun as <-. exists []. rewrite app_nil_r. repeat split.
    intros c [].
  - destruct (step_cell cell back_dir n) as [[cell' dir'] | e]; [| discriminate].
    destruct (mem Z.eqb cell' occupied) eqn:Hocc; [discriminate |].
    destruct (IH _ _ _ _ _ _ Hrun) as (ext & -> & Hlen & Hfree).
    exists (cell' :: ext). rewrite <- app_assoc. simpl.
    repeat split; [congruence |].
    intros c [<- | Hin]; auto.
Qed.

Lemma randrange_range k r r' x :
  randrange k r = (r', Ok x) -> 0 <= x < k.
Proof.
  unfold randrange. destruct (Z.leb_spec k 0) as [| Hk]; [discriminate |].
  unfold bind, next_draw, ret. intros [= _ <-]. apply Z.mod_pos_bound. lia.
Qed.

Lemma place_attempt_spec pid n occupied r r' p occ :
  place_attempt pid n occupied r = (r', Ok (Some (p, occ))) ->
  player_id p = pid /\ alive p = true /\ 0 <= dir p <= 3
  /\ pending_growth p = 0 /\ score p = 0 /\ respawn_at_ms p = None
  /\ len (cells p) = 4
  /\ (forall c, In c (cells p) -> mem Z.eqb c occupied = false)
  /\ occ = occupied ++ cells p.
Proof.
  unfold place_attempt. intros Hbody.
  unfold bind at 1 in Hbody.
  destruct (randrange 6 r) as [r1 [face | e]]; [| discriminate].
  unfold bind at 1 in Hbody.
  destruct (randrange n r1) as [r2 [u | e]]; [| discriminate].
  unfold bind at 1 in Hbody.
  destruct (randrange n r2) as [r3 [v | e]]; [| discriminate].
  unfold bind at 1 in Hbody.
  destruct (randrange 4 r3) as [r4 [direction | e]] eqn:Hdir; [| discriminate].
  apply randrange_range in Hdir.
  destruct (mem Z.eqb (encode_cell face u v n) occupied) eqn:Hhead; [discriminate |].
  unfold bind at 1 in Hbody. unfold lift at 1 in Hbody.
  destruct (_is_forward_clear _ _ _ _ _) as [[|] | e]; try discriminate.
  cbn [negb] in Hbody. cbv iota in Hbody.
  unfold bind at 1 in Hbody. unfold lift at 1 in Hbody.
  destruct (walk_back _ _ _ _ _ _) as [[body |] | e] eqn:Hwalk; try discriminate.
  unfold ret in Hbody. injection Hbody as _ <- <-. simpl.
  destruct (walk_back_spec _ _ _ _ _ _ _ Hwalk) as (ext & -> & Hlen & Hfree).
  repeat split; try lia.
  - unfold len. rewrite length_app. simpl. lia.
  - intros c [<- | Hin]; auto.
Qed.

Lemma try_place_snake_placed pid n occupied attempts r r' p occ :
  _try_place_snake pid n occupied attempts r = (r', Ok (Some (p, occ))) ->
  player_id p = pid /\ alive p = true /\ 0 <= dir p <= 3
  /\ pending_growth p = 0 /\ score p = 0 /\ respawn_at_ms p = None
  /\ len (cells p) = 4
  /\ (forall c, In c (cells p) -> mem Z.eqb c occupied = false)
  /\ occ = occupied ++ cells p.
Proof.
  unfold _try_place_snake. intros Hrun.
  apply (attempt_inv
           (fun po => player_id (fst po) = pid /\ alive (fst po) = true
                      /\ 0 <= dir (fst po) <= 3
                      /\ pending_growth (fst po) = 0 /\ score (fst po) = 0
                      /\ respawn_at_ms (fst po) = None
                      /\ len (cells (fst po)) = 4
                      /\ (forall c, In c (cells (fst po)) -> mem Z.eqb c occupied = false)
                      /\ snd po = occupied ++ cells (fst po))
           _ _ _ _ (p, occ)) in Hrun; [exact Hrun |].
  intros w w' [p' occ'] Hbody. simpl. eapply place_attempt_spec, Hbody.
Qed.

(** X12. A snake that [_try_place_snake] returns carries the given id, is alive,
    heads in one of the four directions, has no pending growth, no score and
    no respawn time, and has exactly 4 cells, none of which was occupied;
    its cells are added to the occupied set. *)
Theorem try_place_snake_spec pid n occupied attempts r r' p occ :
  _try_place_snake pid n occupied attempts r = (r', Ok (Some (p, occ))) ->
  player_id p = pid /\ alive p = true /\ 0 <= dir p <= 3
  /\ pending_growth p = 0 /\ score p = 0 /\ respawn_at_ms p = None
  /\ len (cells p) = 4
  /\ (forall c, In c (cells p) -> mem Z.eqb c occupied = false)
  /\ occ = occupied ++ cells p.
Proof. apply try_place_snake_placed. Qed.

(** No attempt left: nothing is placed and the random source is untouched. *)
Lemma try_place_snake_none pid n occupied r :
  _try_place_snake pid n occupied 0 r = (r, Ok None).
Proof. reflexivity. Qed.

Lemma try_place_snake_spec_witness :
  player_id Scenes.placedA = "A"%string /\ alive Scenes.placedA = true
  /\ 0 <= dir Scenes.placedA <= 3
  /\ pending_growth Scenes.placedA = 0 /\ score Scenes.placedA = 0
  /\ respawn_at_ms Scenes.placedA = None
  /\ len (cells Scenes.placedA) = 4
  /\ (forall c, In c (cells Scenes.placedA) -> mem Z.eqb c [] = false)
  /\ [202; 210; 218; 226] = [] ++ cells Scenes.placedA.
Proof.
  apply (try_place_snake_spec "A"%string 8 [] 5 Demo.rng0 (mkRng (draws Demo.rng0) 4)).
  reflexivity.
Defined.

(** ** Fruits *)

Lemma pick_fruit_kind_spec fruits_on_board r r' kv :
  _pick_fruit_kind fruits_on_board r = (r', Ok kv) ->
  In kv [(berry, 2); (apple, 3); (banana, 5); (watermelon, 10)].
Proof.
  unfold _pick_fruit_kind. unfold bind at 1.
  destruct (choices_index _ r) as [r1 [i | e]]; [| discriminate].
  unfold ret. intros [= _ <-]. simpl.
  destruct i as [| [| [| [| i]]]]; simpl; auto.
  destruct i; simpl; auto.
Qed.

Lemma with_rng_fruits {A} (m : M Rng A) w :
  fruits (game (fst (with_rng m w))) = fruits (game w).
Proof. unfold with_rng. now destruct (m (rng (game w))). Qed.

(** What one round of the spawn loop does to the fruits: nothing, or one
    assignment [fruits[fid] = fruit]. *)
Lemma spawn_attempt_spec n occupied w w' r :
  spawn_attempt n occupied w = (w', r) ->
  match r with
  | Ok (Some f) =>
      mem Z.eqb (fruit_cell f) occupied = false
      /\ In (kind f, value f) [(berry, 2); (apple, 3); (banana, 5); (watermelon, 10)]
      /\ fruits (game w') = dict_set String.eqb (fruit_id f) f (fruits (game w))
  | _ => fruits (game w') = fruits (game w)
  end.
Proof.
  unfold spawn_attempt. intros Hrun.
  unfold bind at 1 in Hrun.
  pose proof (with_rng_fruits (randrange 6) w) as F1.
  destruct (with_rng (randrange 6) w) as [w1 [face | e]]; simpl in F1;
    [| injection Hrun as <- <-; exact F1].
  unfold bind at 1 in Hrun.
  pose proof (with_rng_fruits (randrange n) w1) as F2.
  destruct (with_rng (randrange n) w1) as [w2 [u | e]]; simpl in F2;
    [| injection Hrun as <- <-; congruence].
  unfold bind at 1 in Hrun.
  pose proof (with_rng_fruits (randrange n) w2) as F3.
  destruct (with_rng (randrange n) w2) as [w3 [v | e]]; simpl in F3;
    [| injection Hrun as <- <-; congruence].
  destruct (mem Z.eqb (encode_cell face u v n) occupied) eqn:Hocc.
  { unfold ret in Hrun. injection Hrun as <- <-. congruence. }
  unfold bind at 1 in Hrun. unfold get at 1 in Hrun.
  unfold bind at 1 in Hrun.
  pose proof (with_rng_fruits (_pick_fruit_kind (fruits (game w3))) w3) as F4.
  unfold with_rng in Hrun, F4.
  destruct (_pick_fruit_kind (fruits (game w3)) (rng (game w3))) as [r4 [kv | e]] eqn:Hpick;
    simpl in F4; [| injection Hrun as <- <-; simpl; congruence].
  apply pick_fruit_kind_spec in Hpick.
  unfold bind, new_fruit_id, modify, ret in Hrun. simpl in Hrun.
  injection Hrun as <- <-. simpl.
  split; [assumption |]. split; [now destruct kv |]. congruence.
Qed.

Lemma spawn_fruit_spec attempts : forall n occupied w w' r,
  _spawn_fruit n occupied attempts w = (w', r) ->
  match r with
  | Ok (Some f) =>
      mem Z.eqb (fruit_cell f) occupied = false
      /\ In (kind f, value f) [(berry, 2); (apple, 3); (banana, 5); (watermelon, 10)]
      /\ fruits (game w') = dict_set String.eqb (fruit_id f) f (fruits (game w))
  | _ => fruits (game w') = fruits (game w)
  end.
Proof.
  unfold _spawn_fruit.
  induction attempts as [| k IH]; intros n occupied w w' r Hrun; simpl in Hrun.
  - unfold ret in Hrun. now injection Hrun as <- <-.
  - unfold bind at 1 in Hrun.
    pose proof (spawn_attempt_spec n occupied w) as Hone.
    destruct (spawn_attempt n occupied w) as [w1 [[f |] | e]].
    + specialize (Hone _ _ eq_refl). unfold ret in Hrun. now injection Hrun as <- <-.
    + specialize (Hone _ _ eq_refl). simpl in Hone.
      specialize (IH _ _ _ _ _ Hrun). rewrite Hone in IH. exact IH.
    + specialize (Hone _ _ eq_refl). now injection Hrun as <- <-.
Qed.

(** X13. A fruit that [_spawn_fruit] returns lies on a cell that was not
    occupied, has the value of its kind (berry 2, apple 3, banana 5,
    watermelon 10), and is stored in [fruits] under its id. *)
Theorem spawn_fruit_valid n occupied attempts w w' f :
  _spawn_fruit n occupied attempts w = (w', Ok (Some f)) ->
  mem Z.eqb (fruit_cell f) occupied = false
  /\ In (kind f, value f) [(berry, 2); (apple, 3); (banana, 5); (watermelon, 10)]
  /\ dict_get String.eqb (fruit_id f) (fruits (game w')) = Some f.
Proof.
  intros Hrun. pose proof (spawn_fruit_spec _ _ _ _ _ _ Hrun) as (Hocc & Hkind & Hfr).
  split; [assumption |]. split; [assumption |].
  rewrite Hfr, (dict_get_set String.eqb String.eqb_spec), String.eqb_refl.
  reflexivity.
Qed.

Lemma spawn_fruit_valid_witness :
  mem Z.eqb (fruit_cell (mkFruit "a" 202 berry 2)) [275] = false
  /\ In (kind (mkFruit "a" 202 berry 2), value (mkFruit "a" 202 berry 2))
        [(berry, 2); (apple, 3); (banana, 5); (watermelon, 10)]
  /\ dict_get String.eqb (fruit_id (mkFruit "a" 202 berry 2))
       (fruits (game (fst (_spawn_fruit 8 [275] 5 Demo.world0))))
     = Some (mkFruit "a" 202 berry 2).
Proof.
  apply (spawn_fruit_valid 8 [275] 5 Demo.world0).
  vm_compute. reflexivity.
Defined.

Lemma len_dict_set {V} fid (f : V) (d : list (string * V)) :
  len d <= len (dict_set String.eqb fid f d) <= len d + 1.
Proof.
  unfold len. induction d as [| [k v] d IH]; simpl; [lia |].
  destruct (String.eqb fid k); simpl; lia.
Qed.

#[local] Existing Instance same_frame_preorder.

Lemma spawn_fruit_settings n occupied attempts w :
  settings (game (fst (_spawn_fruit n occupied attempts w))) = settings (game w).
Proof.
  assert (Hok : admits_update (fun _ : Snake -> Snake => True))
    by (unfold admits_update; repeat split).
  unfold _spawn_fruit.
  assert (H : preserves same_frame (attempt attempts (spawn_attempt n occupied))).
  { apply preserves_attempt.
    apply (spawn_attempt_preserves same_frame); easy. }
  apply (H w).
Qed.

Lemma ensure_loop_count fuel : forall n occupied w w',
  ensure_loop fuel n occupied w = (w', Ok tt) ->
  len (fruits (game w)) <= len (fruits (game w'))
  /\ len (fruits (game w'))
     <= Z.max (len (fruits (game w))) (fruit_target (settings (game w))).
Proof.
  induction fuel as [| k IH]; intros n occupied w w' Hrun; simpl in Hrun;
    unfold bind at 1 in Hrun; unfold get at 1 in Hrun;
    destruct (Z.ltb_spec (len (fruits (game w))) (fruit_target (settings (game w))))
      as [Hlt | Hge]; cbn [negb] in Hrun.
  - discriminate.
  - unfold ret in Hrun. injection Hrun as <-. lia.
  - unfold bind at 1 in Hrun.
    pose proof (spawn_fruit_spec 2000 n occupied w) as Hspawn.
    pose proof (spawn_fruit_settings n occupied 2000 w) as Hset.
    destruct (_spawn_fruit n occupied 2000 w) as [w1 [[f |] | e]]; [| | discriminate].
    + destruct (Hspawn _ _ eq_refl) as (_ & _ & Hfr). simpl in Hset.
      destruct (IH _ _ _ _ Hrun) as [Hlo Hhi].
      rewrite Hset, Hfr in *.
      pose proof (len_dict_set (fruit_id f) f (fruits (game w))). lia.
    + specialize (Hspawn _ _ eq_refl). simpl in Hspawn.
      unfold ret in Hrun. injection Hrun as <-. rewrite Hspawn. lia.
  - unfold ret in Hrun. injection Hrun as <-. lia.
Qed.

(** X14. [ensure_fruit_target], when it returns, has not reduced the number of
    fruits and has not taken it above the target (nor above what it was, if
    it was above the target already). *)
Theorem ensure_fruit_target_count fuel w w' :
  ensure_fruit_target fuel w = (w', Ok tt) ->
  len (fruits (game w)) <= len (fruits (game w'))
  /\ len (fruits (game w'))
     <= Z.max (len (fruits (game w))) (fruit_target (settings (game w))).
Proof. unfold ensure_fruit_target, bind, get. apply ensure_loop_count. Qed.

Lemma ensure_fruit_target_count_witness :
  len (fruits (game Scenes.world_hungry))
  <= len (fruits (game (fst (ensure_fruit_target 4 Scenes.world_hungry))))
  /\ len (fruits (game (fst (ensure_fruit_target 4 Scenes.world_hungry))))
     <= Z.max (len (fruits (game Scenes.world_hungry)))
              (fruit_target (settings (game Scenes.world_hungry))).
Proof.
  apply (ensure_fruit_target_count 4 Scenes.world_hungry).
  vm_compute. reflexivity.
Defined.

Local Open Scope Z_scope.
Local Open Scope bool_scope.
Import Geometry Sim.

(** * Lives of a snake *)

(** ** Respawn *)

Lemma respawn_pass_outcome n now_ms w w' pid s :
  NoDup (keys (snakes (game w))) ->
  respawn_pass n now_ms w = (w', Ok tt) ->
  snake_of pid w = Some s ->
  exists s', snake_of pid w' = Some s' /\ respawn_outcome now_ms s s'.
Proof.
  intros Hnd Hrun Hs. unfold respawn_pass in Hrun.
  unshelve epose proof
    (for_snakes_local _ (fun _ _ => tt)
       (fun _ s s' _ _ => respawn_outcome now_ms s s')
       _ w tt w' tt Hnd Hrun pid s Hs) as (s' & Hs' & Hpost); [| eauto].
  clear. intros pid s [] w w' [] Hs Hbody. cbv beta in Hbody.
  unfold respawn_outcome.
  destruct (alive s) eqn:Ha.
  { injection Hbody as <-. split; [auto | eauto]. }
  destruct (respawn_at_ms s) as [t |] eqn:Ht.
  2:{ injection Hbody as <-. split; [auto | eauto]. }
  destruct (now_ms <? t).
  { injection Hbody as <-. split; [auto | eauto]. }
  unfold bind at 1 in Hbody. unfold get at 1 in Hbody.
  unfold bind at 1 in Hbody.
  unfold with_rng in Hbody.
  destruct (_try_place_snake pid n (occupied_now (game w)) 4000 (rng (game w)))
    as [r1 [[[p occ] |] | e]] eqn:Hplace; [| | discriminate].
  - pose proof (f_equal fst Hbody) as Hw'. simpl in Hw'. subst w'. split.
    + intros q Hne. split; [| reflexivity].
      unfold snake_of. simpl. rewrite (dict_get_set String.eqb String.eqb_spec).
      destruct (String.eqb_spec q pid); [contradiction | reflexivity].
    + eexists. unfold snake_of at 1. simpl.
      rewrite (dict_get_set String.eqb String.eqb_spec), String.eqb_refl.
      split; [reflexivity |]. right.
      destruct (try_place_snake_placed _ _ _ _ _ _ _ _ Hplace)
        as (_ & Hal & Hdir & Hpg & _ & Hre & Hlen & _).
      simpl. repeat split; try assumption; lia.
  - pose proof (f_equal fst Hbody) as Hw'. simpl in Hw'. subst w'. split.
    + intros q Hne. split; [| reflexivity].
      unfold snake_of. simpl. rewrite (dict_get_update String.eqb String.eqb_spec).
      destruct (String.eqb_spec q pid); [contradiction | reflexivity].
    + eexists. unfold snake_of at 1. simpl.
      rewrite (dict_get_update String.eqb String.eqb_spec), String.eqb_refl.
      unfold snake_of in Hs. rewrite Hs. split; [reflexivity |]. now left.
Qed.



(** ** Who is awarded in the bite pass *)

Lemma awarded_is_attacker w dead bites a x :
  NoDup (keys (snakes (game w))) ->
  bites_by_victim_of (snakes (game w)) dead (_occupied_cells (snakes (game w)))
  = Ok bites ->
  In (a, x) (pass_awards (snakes (game w)) dead bites) ->
  exists v k, bites_segment w dead a v k.
Proof.
  intros Hnd Hb Hin. unfold pass_awards in Hin.
  apply in_flat_map in Hin as ([v b] & Hvb & Hin). simpl in Hin.
  destruct (processed (snakes (game w)) dead v); [| contradiction].
  unfold victim_awards in Hin. simpl in Hin.
  destruct (dict_get String.eqb v (snakes (game w))) as [sv |]; [| contradiction].
  apply in_victim_entries in Hin as (k & _ & Ha).
  apply (in_attackers_at _ dead bites Hb v b k a Hvb) in Ha.
  apply (bites_segment_entries w dead a v k Hnd) in Ha.
  eauto.
Qed.

Lemma awarded_is_alive w dead bites a x :
  NoDup (keys (snakes (game w))) ->
  bites_by_victim_of (snakes (game w)) dead (_occupied_cells (snakes (game w)))
  = Ok bites ->
  In (a, x) (pass_awards (snakes (game w)) dead bites) ->
  exists sa, snake_of a w = Some sa /\ alive sa = true.
Proof.
  intros Hnd Hb Hin.
  destruct (awarded_is_attacker w dead bites a x Hnd Hb Hin)
    as (v & k & sa & _ & _ & _ & Hsa & Halive & _).
  eauto.
Qed.

(** ** A dead snake waits *)

(** X16. A dead snake whose respawn time has not come (or that has none) is
    exactly the same snake after a tick that returns. *)
Theorem dead_snake_waits fuel inputs now_ms w w' pid s :
  NoDup (keys (snakes (game w))) ->
  tick fuel inputs now_ms w = (w', Ok tt) ->
  snake_of pid w = Some s -> waiting now_ms s ->
  snake_of pid w' = Some s.
Proof.
  intros Hnd Hrun Hs [Hdead Hwait].
  destruct (tick_inv _ _ _ _ _ Hrun) as (w3 & w5 & dead & H3 & H5 & Hfin).
  destruct (tick_to_move_heads _ _ _ _ Hnd H3) as [Hnd3 Hheads3].
  destruct (tick_to_move_inv _ _ _ _ H3) as (w1 & w2 & planned & H1 & H2 & Hmove).
  assert (Hnd1 : NoDup (keys (snakes (game w1)))).
  { pose proof (respawn_pass_keys (cube_n (settings (game w))) now_ms w) as Hk.
    rewrite H1 in Hk. simpl in Hk. now rewrite Hk. }
  assert (Hnd2 : NoDup (keys (snakes (game w2)))).
  { pose proof (plan_moves_keys (cube_n (settings (game w))) inputs
                  (fruit_by_cell_of (fruits (game w1))) w1) as Hk.
    rewrite H2 in Hk. simpl in Hk. now rewrite Hk. }
  (* respawn *)
  destruct (respawn_pass_outcome _ _ _ _ pid s Hnd H1 Hs) as (s1 & Hs1 & Hout).
  assert (E1 : s1 = s).
  { unfold respawn_outcome in Hout. rewrite Hdead in Hout.
    destruct (respawn_at_ms s) as [t |]; [| assumption].
    destruct (Z.ltb_spec now_ms t); [assumption | lia]. }
  subst s1.
  (* plan and move *)
  destruct (plan_moves_spec _ _ _ _ _ _ Hnd1 H2 pid s Hs1) as (s2 & Hs2 & Hsame2 & _).
  rewrite (Hsame2 Hdead) in Hs2. clear s2 Hsame2.
  destruct (move_and_eat_spec _ _ _ _ Hnd2 Hmove pid s Hs2) as (s3 & Hs3 & Hsame3 & _).
  rewrite (Hsame3 Hdead) in Hs3. clear s3 Hsame3.
  (* collisions *)
  destruct (collide_run w3 Hnd3 Hheads3)
    as (hc & bites & sn' & _ & Hb & Hrun5 & _ & Hget).
  rewrite H5 in Hrun5. injection Hrun5 as -> ->.
  specialize (Hget pid). unfold snake_of in Hs3. rewrite Hs3 in Hget. simpl in Hget.
  assert (Htr : truncated (snakes (game w3)) (head_on_dead hc) bites pid s = s).
  { unfold truncated. destruct (dict_get String.eqb pid bites); [| reflexivity].
    unfold processed. now rewrite Hs3, Hdead. }
  assert (Haw : total_for pid (pass_awards (snakes (game w3)) (head_on_dead hc) bites) = 0).
  { apply total_for_none. intros x Hin.
    destruct (awarded_is_alive w3 _ bites pid x Hnd3 Hb Hin) as (sa & Hsa & Hal).
    unfold snake_of in Hsa. congruence. }
  rewrite Htr, Haw, bump_0 in Hget.
  (* finalization *)
  rewrite (Hfin pid). unfold snake_of. rewrite snakes_put_snakes, Hget.
  now rewrite Hdead.
Qed.

Lemma dead_snake_waits_witness :
  snake_of "A" (fst (tick 5 [] 2083 (fst (tick 5 [] 2000 Demo.world_head_on))))
  = Some (mkSnake "A" false 0 [] 0 0 (Some 5000)).
Proof.
  apply (dead_snake_waits 5 [] 2083 (fst (tick 5 [] 2000 Demo.world_head_on))).
  - vm_compute. apply nodup_two. reflexivity.
  - vm_compute. reflexivity.
  - vm_compute. reflexivity.
  - split; [reflexivity | simpl; lia].
Defined.

(** ** No alive snake is shorter than 4 cells *)

(** X17. If every alive snake has at least 4 cells before a tick, every snake
    that is alive after the tick has at least 4 cells: a respawned snake has
    4, a move does not shorten a snake, and a snake that a bite leaves with
    fewer than 4 cells is dead by the end of the tick. *)
Theorem alive_snakes_keep_four fuel inputs now_ms w w' pid s' :
  NoDup (keys (snakes (game w))) ->
  (forall p s, snake_of p w = Some s -> alive s = true -> 4 <= len (cells s)) ->
  tick fuel inputs now_ms w = (w', Ok tt) ->
  snake_of pid w' = Some s' -> alive s' = true ->
  4 <= len (cells s').
Proof.
  intros Hnd Hfour Hrun Hs' Ha'.
  assert (Hin : exists s, snake_of pid w = Some s).
  { pose proof (tick_keys fuel inputs now_ms w) as Hk. rewrite Hrun in Hk.
    simpl in Hk. apply (dict_get_in_keys String.eqb String.eqb_spec).
    rewrite <- Hk. unfold snake_of in Hs'.
    apply (dict_get_some_in String.eqb String.eqb_spec) in Hs'.
    unfold keys. apply in_map_iff. now exists (pid, s'). }
  destruct Hin as [s Hs].
  destruct (tick_inv _ _ _ _ _ Hrun) as (w3 & w5 & dead & H3 & H5 & Hfin).
  destruct (tick_to_move_heads _ _ _ _ Hnd H3) as [Hnd3 Hheads3].
  destruct (tick_to_move_inv _ _ _ _ H3) as (w1 & w2 & planned & H1 & H2 & Hmove).
  assert (Hnd1 : NoDup (keys (snakes (game w1)))).
  { pose proof (respawn_pass_keys (cube_n (settings (game w))) now_ms w) as Hk.
    rewrite H1 in Hk. simpl in Hk. now rewrite Hk. }
  assert (Hnd2 : NoDup (keys (snakes (game w2)))).
  { pose proof (plan_moves_keys (cube_n (settings (game w))) inputs
                  (fruit_by_cell_of (fruits (game w1))) w1) as Hk.
    rewrite H2 in Hk. simpl in Hk. now rewrite Hk. }
  destruct (respawn_pass_outcome _ _ _ _ pid s Hnd H1 Hs) as (s1 & Hs1 & Hout).
  destruct (plan_moves_spec _ _ _ _ _ _ Hnd1 H2 pid s1 Hs1)
    as (s2 & Hs2 & Hdead2 & Halive2).
  destruct (move_and_eat_spec _ _ _ _ Hnd2 Hmove pid s2 Hs2)
    as (s3 & Hs3 & Hdead3 & Halive3).
  (* the collision phase *)
  destruct (collide_run w3 Hnd3 Hheads3)
    as (hc & bites & sn' & _ & Hb & Hrun5 & _ & Hget).
  rewrite H5 in Hrun5. injection Hrun5 as -> ->.
  specialize (Hget pid). pose proof Hs3 as Hs3'. unfold snake_of in Hs3'.
  rewrite Hs3' in Hget. simpl in Hget.
  specialize (Hfin pid). unfold snake_of in Hfin at 2.
  rewrite snakes_put_snakes, Hget in Hfin.
  set (dead0 := head_on_dead hc) in *.
  set (sn3 := snakes (game w3)) in *.
  set (s5 := bump (total_for pid (pass_awards sn3 dead0 bites))
                  (truncated sn3 dead0 bites pid s3)) in *.
  assert (Hkept : s' = s5 /\ mem String.eqb pid (pass_dead sn3 dead0 bites dead0) = false).
  { rewrite Hs' in Hfin.
    destruct (alive s5) eqn:Ha5; simpl in Hfin.
    - destruct (mem String.eqb pid (pass_dead sn3 dead0 bites dead0)).
      + injection Hfin as ->. discriminate.
      + injection Hfin as ->. auto.
    - injection Hfin as ->. congruence. }
  destruct Hkept as [-> Hnotdead].
  assert (Ha3 : alive s3 = true).
  { unfold s5 in Ha'. unfold bump in Ha'. simpl in Ha'.
    now rewrite (proj1 (truncated_keeps sn3 dead0 bites pid s3)) in Ha'. }
  (* the snake was alive when it moved, and had 4 cells *)
  assert (Ha2 : alive s2 = true).
  { destruct (alive s2) eqn:Ha2; [reflexivity |].
    rewrite (Hdead3 eq_refl) in Ha3. congruence. }
  assert (Ha1 : alive s1 = true).
  { destruct (alive s1) eqn:Ha1; [reflexivity |].
    rewrite (Hdead2 eq_refl) in Ha2. congruence. }
  assert (Hlen1 : 4 <= len (cells s1)).
  { unfold respawn_outcome in Hout. destruct (alive s) eqn:Ha.
    - subst s1. now apply (Hfour pid s).
    - destruct (respawn_at_ms s) as [t |]; [| congruence].
      destruct (now_ms <? t); [congruence |].
      destruct Hout as [-> | (_ & Hlen & _)]; [simpl in Ha1; congruence | lia]. }
  destruct (Halive2 Ha1) as (Hne1 & [d ->] & _).
  destruct (Halive3 Ha2) as (_ & nh & d' & ev & eaten & _ & Hc3 & _).
  assert (Hlen3 : 4 <= len (cells s3)).
  { rewrite Hc3, length_moved_body by exact Hne1. simpl.
    destruct (pending_growth s1 >? 0); lia. }
  (* bitten or not, it keeps 4 cells or is dead *)
  unfold s5. rewrite cells_bump. unfold truncated.
  destruct (dict_get String.eqb pid bites) as [b |] eqn:Hpb; [| exact Hlen3].
  destruct (processed sn3 dead0 pid) eqn:Hproc; [| exact Hlen3].
  simpl.
  destruct (Z.ltb_spec (len (slice_to (cut_of b) (cells s3))) 4) as [Hshort | Hok];
    [| exact Hok].
  exfalso.
  assert (Hdead : In pid (pass_dead sn3 dead0 bites dead0)).
  { apply in_pass_dead. right. exists b. split.
    - now apply (dict_get_some_in String.eqb String.eqb_spec).
    - unfold starved. simpl. rewrite Hproc. fold sn3 in Hs3'. rewrite Hs3'.
      simpl. now apply Z.ltb_lt. }
  apply (mem_spec String.eqb String.eqb_spec) in Hdead. congruence.
Qed.

Lemma four_cells_check w :
  forallb (fun ps => negb (alive (snd ps)) || (4 <=? len (cells (snd ps))))
          (snakes (game w)) = true ->
  forall p s, snake_of p w = Some s -> alive s = true -> 4 <= len (cells s).
Proof.
  intros Hall p s Hs Ha. unfold snake_of in Hs.
  apply (dict_get_some_in String.eqb String.eqb_spec) in Hs.
  rewrite forallb_forall in Hall. specialize (Hall (p, s) Hs). simpl in Hall.
  rewrite Ha in Hall. simpl in Hall. now apply Z.leb_le.
Qed.

Lemma alive_snakes_keep_four_witness :
  4 <= len [267; 275; 283; 291; 299].
Proof.
  apply (alive_snakes_keep_four 4 [] 1083
           (Scenes.after 4 [] 1000 Scenes.world_cross)
           (Scenes.after 4 [] 1083 (Scenes.after 4 [] 1000 Scenes.world_cross))
           "A"%string
           (mkSnake "A" true 0 [267; 275; 283; 291; 299] 2 3 None)).
  - vm_compute. apply nodup_two. reflexivity.
  - apply four_cells_check. vm_compute. reflexivity.
  - vm_compute. reflexivity.
  - vm_compute. reflexivity.
  - reflexivity.
Defined.

(** ** Head-on collisions *)

Lemma head_cells_fold sn : forall acc hc,
  fold_res
    (fun head_cells ps =>
       let '(pid, s) := ps in
       if alive s
       then match cells s with
            | [] => Raise IndexError
            | head :: _ => Ok (dd_append Z.eqb head pid head_cells)
            end
       else Ok head_cells)
    sn acc = Ok hc ->
  hc = fold_left (group_step Z.eqb) (head_entries sn) acc.
Proof.
  induction sn as [| [pid s] sn IH]; intros acc hc Hrun; simpl in Hrun.
  - now injection Hrun as <-.
  - unfold head_entries. simpl. fold (head_entries sn).
    destruct (alive s).
    + destruct (cells s) as [| head rest]; [discriminate |].
      simpl. now apply IH.
    + simpl. now apply IH.
Qed.

Lemma head_cells_of_group sn hc :
  head_cells_of sn = Ok hc -> hc = fold_left (group_step Z.eqb) (head_entries sn) [].
Proof. apply head_cells_fold. Qed.

Lemma in_update_heads heads : forall dead p,
  In p (fold_left (fun dead h => set_add String.eqb h dead) heads dead)
  <-> In p dead \/ In p heads.
Proof.
  induction heads as [| h heads IH]; intros dead p; simpl.
  - tauto.
  - rewrite IH, (set_add_spec String.eqb String.eqb_spec). intuition.
Qed.

Lemma in_head_on_fold (hc : list (Z * list string)) : forall dead p,
  In p (fold_left
          (fun dead ch =>
             if len (snd ch) >=? 2
             then fold_left (fun dead h => set_add String.eqb h dead) (snd ch) dead
             else dead)
          hc dead)
  <-> In p dead \/ exists c heads, In (c, heads) hc /\ 2 <= len heads /\ In p heads.
Proof.
  induction hc as [| [c heads] hc IH]; intros dead p; simpl.
  - split; [auto | intros [H | (c & heads & [] & _)]; exact H].
  - rewrite IH. destruct (Z.geb_spec (len heads) 2) as [Hge | Hlt].
    + rewrite in_update_heads. split.
      * intros [[H | H] | (c' & heads' & Hin & Hlen & Hp)]; [auto | |].
        -- right. exists c, heads. auto.
        -- right. exists c', heads'. auto.
      * intros [H | (c' & heads' & [Heq | Hin] & Hlen & Hp)]; [auto | |].
        -- injection Heq as <- <-. auto.
        -- right. exists c', heads'. auto.
    + split.
      * intros [H | (c' & heads' & Hin & Hlen & Hp)]; [auto |].
        right. exists c', heads'. auto.
      * intros [H | (c' & heads' & [Heq | Hin] & Hlen & Hp)]; [auto | |].
        -- injection Heq as <- <-. lia.
        -- right. exists c', heads'. auto.
Qed.

Lemma two_in_list (a b : string) l : a <> b -> In a l -> In b l -> 2 <= len l.
Proof.
  intros Hne Ha Hb. unfold len.
  destruct l as [| x [| y l]]; simpl in *.
  - contradiction.
  - destruct Ha as [<- | []], Hb as [<- | []]. contradiction.
  - lia.
Qed.

(** A snake is in the head-on dead set exactly when it is alive and its
    head is on the same cell as the head of another alive snake. *)
Lemma in_head_on_dead sn hc p :
  NoDup (keys sn) ->
  head_cells_of sn = Ok hc ->
  (In p (head_on_dead hc)
   <-> exists c, In (c, p) (head_entries sn)
                 /\ 2 <= len (picked Z.eqb c (head_entries sn))).
Proof.
  intros Hnd Hhc. apply head_cells_of_group in Hhc. unfold head_on_dead.
  rewrite in_head_on_fold.
  assert (Hkeys : NoDup (keys hc)).
  { subst hc. apply (keys_group_nodup Z.eqb Z.eqb_spec). constructor. }
  assert (Hgroup : forall c heads, In (c, heads) hc ->
                     heads = picked Z.eqb c (head_entries sn)).
  { intros c heads Hin.
    pose proof (dict_get_nodup_in Z.eqb Z.eqb_spec c heads hc Hkeys Hin) as Hget.
    apply (get_or_of_get Z.eqb c heads []) in Hget. rewrite <- Hget.
    subst hc. now rewrite (get_or_group Z.eqb Z.eqb_spec). }
  split.
  - intros [[] | (c & heads & Hin & Hlen & Hp)].
    rewrite (Hgroup c heads Hin) in Hlen, Hp.
    exists c. split; [| assumption].
    now apply (in_picked Z.eqb Z.eqb_spec) in Hp.
  - intros (c & Hin & Hlen). right.
    exists c, (picked Z.eqb c (head_entries sn)).
    split; [| split; [assumption | now apply (in_picked Z.eqb Z.eqb_spec)]].
    assert (Hk : In c (keys hc)).
    { subst hc. apply (keys_group_in Z.eqb Z.eqb_spec). right.
      apply in_map_iff. now exists (c, p). }
    apply (dict_get_in_keys Z.eqb Z.eqb_spec) in Hk as [heads Hget].
    apply (dict_get_some_in Z.eqb Z.eqb_spec) in Hget.
    now rewrite <- (Hgroup c heads Hget).
Qed.

Lemma in_head_entries sn c p :
  In (c, p) (head_entries sn)
  <-> exists s rest, In (p, s) sn /\ alive s = true /\ cells s = c :: rest.
Proof.
  unfold head_entries. rewrite in_flat_map. split.
  - intros ([q s] & Hin & He). simpl in He.
    destruct (alive s) eqn:Ha; [| contradiction].
    destruct (cells s) as [| head rest] eqn:Hc; [contradiction |].
    destruct He as [[= <- <-] | []]. eauto.
  - intros (s & rest & Hin & Ha & Hc). exists (p, s). split; [assumption |].
    simpl. rewrite Ha, Hc. now left.
Qed.

(** X18. When after the move the heads of two alive snakes are on the same cell,
    neither bites or is bitten, and both are finalized as dead by the end of
    the tick: not alive, no cells, no pending growth, respawn time
    [now_ms + 3000], score unchanged. *)
Theorem head_on_kills_both fuel inputs now_ms w w3 w' a b sa sb c ra rb :
  NoDup (keys (snakes (game w))) ->
  tick_to_move inputs now_ms w = (w3, Ok tt) ->
  tick fuel inputs now_ms w = (w', Ok tt) ->
  a <> b ->
  snake_of a w3 = Some sa -> alive sa = true -> cells sa = c :: ra ->
  snake_of b w3 = Some sb -> alive sb = true -> cells sb = c :: rb ->
  snake_of a w' = Some (kill now_ms sa) /\ snake_of b w' = Some (kill now_ms sb).
Proof.
  intros Hnd H3 Hrun Hab Hsa Haa Hca Hsb Hab' Hcb.
  destruct (tick_inv _ _ _ _ _ Hrun) as (w3' & w5 & dead & H3' & H5 & Hfin).
  rewrite H3 in H3'. injection H3' as <-.
  destruct (tick_to_move_heads _ _ _ _ Hnd H3) as [Hnd3 Hheads3].
  destruct (collide_run w3 Hnd3 Hheads3)
    as (hc & bites & sn' & Hhc & Hb & Hrun5 & _ & Hget).
  rewrite H5 in Hrun5. injection Hrun5 as -> ->.
  assert (Hentries : In (c, a) (head_entries (snakes (game w3)))
                     /\ In (c, b) (head_entries (snakes (game w3)))).
  { split; apply in_head_entries.
    - exists sa, ra. split; [| auto].
      now apply (dict_get_some_in String.eqb String.eqb_spec).
    - exists sb, rb. split; [| auto].
      now apply (dict_get_some_in String.eqb String.eqb_spec). }
  destruct Hentries as [Hea Heb].
  assert (Hlen : 2 <= len (picked Z.eqb c (head_entries (snakes (game w3))))).
  { apply (two_in_list a b); [assumption | |];
      now apply (in_picked Z.eqb Z.eqb_spec). }
  assert (Hone : forall p sp, snake_of p w3 = Some sp -> alive sp = true ->
            In (c, p) (head_entries (snakes (game w3))) ->
            snake_of p w' = Some (kill now_ms sp)).
  { intros p sp Hsp Hap Hp.
    assert (Hin0 : In p (head_on_dead hc)).
    { apply (in_head_on_dead _ hc p Hnd3 Hhc). eauto. }
    assert (Hm0 : mem String.eqb p (head_on_dead hc) = true)
      by now apply (mem_spec String.eqb String.eqb_spec).
    assert (Hm : mem String.eqb p
                   (pass_dead (snakes (game w3)) (head_on_dead hc) bites (head_on_dead hc))
                 = true).
    { apply (mem_spec String.eqb String.eqb_spec). apply in_pass_dead. now left. }
    assert (Htr : truncated (snakes (game w3)) (head_on_dead hc) bites p sp = sp).
    { unfold truncated. destruct (dict_get String.eqb p bites); [| reflexivity].
      unfold processed. unfold snake_of in Hsp. now rewrite Hsp, Hap, Hm0. }
    assert (Haw : total_for p (pass_awards (snakes (game w3)) (head_on_dead hc) bites) = 0).
    { apply total_for_none. intros x Hin.
      destruct (awarded_is_attacker w3 _ bites p x Hnd3 Hb Hin)
        as (v & k & sp' & _ & _ & _ & _ & _ & Hnot & _).
      contradiction. }
    rewrite (Hfin p). unfold snake_of at 1. rewrite snakes_put_snakes, (Hget p).
    unfold snake_of in Hsp. rewrite Hsp. simpl.
    rewrite Htr, Haw, bump_0, Hap, Hm. reflexivity. }
  split; [exact (Hone a sa Hsa Haa Hea) | exact (Hone b sb Hsb Hab' Heb)].
Qed.

Lemma head_on_kills_both_witness :
  snake_of "A" (fst (tick 5 [] 2000 Demo.world_head_on))
  = Some (kill 2000 (mkSnake "A" true 0 [275; 283; 291; 299] 0 0 None))
  /\ snake_of "B" (fst (tick 5 [] 2000 Demo.world_head_on))
     = Some (kill 2000 (mkSnake "B" true 2 [275; 267; 266; 265] 0 0 None)).
Proof.
  apply (head_on_kills_both 5 [] 2000 Demo.world_head_on
           (fst (tick_to_move [] 2000 Demo.world_head_on))
           (fst (tick 5 [] 2000 Demo.world_head_on))
           "A"%string "B"%string
           (mkSnake "A" true 0 [275; 283; 291; 299] 0 0 None)
           (mkSnake "B" true 2 [275; 267; 266; 265] 0 0 None)
           275 [283; 291; 299] [267; 266; 265]).
  - apply nodup_two. reflexivity.
  - vm_compute. reflexivity.
  - vm_compute. reflexivity.
  - discriminate.
  - vm_compute. reflexivity.
  - reflexivity.
  - reflexivity.
  - vm_compute. reflexivity.
  - reflexivity.
  - reflexivity.
Defined.

Local Open Scope Z_scope.
Local Open Scope bool_scope.

(** * Rooms *)

(** ** Colours *)

Lemma first_not_in_some taken cs c :
  Rooms.first_not_in taken cs = Some c -> In c cs /\ ~ In c taken.
Proof.
  induction cs as [| x cs IH]; simpl; [discriminate |].
  destruct (mem Z.eqb x taken) eqn:Hm.
  - intros H. destruct (IH H). auto.
  - intros [= <-]. split; [now left |].
    intros Hin. apply (mem_spec Z.eqb Z.eqb_spec) in Hin. congruence.
Qed.

Lemma first_not_in_none taken cs :
  Rooms.first_not_in taken cs = None -> incl cs taken.
Proof.
  induction cs as [| x cs IH]; simpl; intros H c Hc; [contradiction |].
  destruct (mem Z.eqb x taken) eqn:Hm; [| discriminate].
  destruct Hc as [<- | Hc]; [now apply (mem_spec Z.eqb Z.eqb_spec) | now apply IH].
Qed.

Lemma palette_nodup : NoDup Rooms._palette.
Proof.
  unfold Rooms._palette.
  repeat (constructor; [simpl; intuition discriminate |]). constructor.
Qed.

Lemma first_free_color_fresh r :
  len (Rooms.players r) < 8 ->
  In (Rooms._first_free_color r) Rooms._palette
  /\ ~ In (Rooms._first_free_color r) (colors_of r).
Proof.
  intros Hlen. unfold Rooms._first_free_color. fold (colors_of r).
  destruct (Rooms.first_not_in (colors_of r) Rooms._palette) as [c |] eqn:Hfree.
  - now apply first_not_in_some.
  - exfalso. apply first_not_in_none in Hfree.
    pose proof (NoDup_incl_length palette_nodup Hfree) as Hle.
    unfold colors_of in Hle. rewrite length_map in Hle.
    unfold len in Hlen. simpl in Hle. lia.
Qed.

(** X19. In a room of fewer than 8 players [_first_free_color] returns a colour
    of the palette that no player of the room has. *)
Theorem first_free_color_is_free r :
  len (Rooms.players r) < 8 ->
  In (Rooms._first_free_color r) Rooms._palette
  /\ ~ In (Rooms._first_free_color r) (colors_of r).
Proof. apply first_free_color_fresh. Qed.

Lemma first_free_color_is_free_witness :
  In (Rooms._first_free_color RoomScenes.running_room) Rooms._palette
  /\ ~ In (Rooms._first_free_color RoomScenes.running_room)
          (colors_of RoomScenes.running_room).
Proof.
  apply (first_free_color_is_free RoomScenes.running_room). reflexivity.
Defined.

(** With 8 players or more the first colour of the palette is handed out
    again. *)
Lemma first_free_color_full :
  Rooms._first_free_color RoomScenes.full_room = 0xDB2777.
Proof. reflexivity. Qed.

(** ** Joining *)

Lemma keys_dict_set_in {V} k k' (v : V) d :
  In k' (keys (dict_set String.eqb k v d)) <-> k' = k \/ In k' (keys d).
Proof. apply (keys_set_in String.eqb String.eqb_spec). Qed.

Section DictRemove.
Context {V : Type}.

Lemma keys_remove_incl k (d : list (string * V)) :
  incl (keys (dict_remove String.eqb k d)) (keys d).
Proof.
  unfold keys. induction d as [| [k0 v0] d IH]; simpl; [easy |].
  destruct (String.eqb k k0); simpl.
  - apply incl_tl, incl_refl.
  - apply incl_cons; [now left | apply incl_tl, IH].
Qed.

Lemma keys_remove_nodup k (d : list (string * V)) :
  NoDup (keys d) -> NoDup (keys (dict_remove String.eqb k d)).
Proof.
  unfold keys. induction d as [| [k0 v0] d IH]; simpl; intros Hnd; [constructor |].
  inversion Hnd as [| ? ? Hk0 Hnd']; subst.
  destruct (String.eqb k k0); simpl; [assumption |].
  constructor; [| auto].
  intros Hin. apply Hk0. now apply (keys_remove_incl k d).
Qed.

Lemma dict_get_remove k k' (d : list (string * V)) :
  NoDup (keys d) ->
  dict_get String.eqb k' (dict_remove String.eqb k d)
  = if String.eqb k' k then None else dict_get String.eqb k' d.
Proof.
  unfold keys. induction d as [| [k0 v0] d IH]; simpl; intros Hnd.
  - now destruct (String.eqb k' k).
  - inversion Hnd as [| ? ? Hk0 Hnd']; subst.
    destruct (String.eqb_spec k k0) as [-> | Hne]; simpl.
    + destruct (String.eqb_spec k' k0) as [-> | Hne']; [| reflexivity].
      destruct (dict_get String.eqb k0 d) as [v |] eqn:Hget; [| reflexivity].
      exfalso. apply Hk0.
      apply (dict_get_some_in String.eqb String.eqb_spec) in Hget.
      apply in_map_iff. now exists (k0, v).
    + destruct (String.eqb_spec k' k0) as [-> | Hne'].
      * destruct (String.eqb_spec k0 k); [congruence | reflexivity].
      * now apply IH.
Qed.

Lemma len_remove k (d : list (string * V)) :
  len (dict_remove String.eqb k d) <= len d.
Proof.
  unfold len. induction d as [| [k0 v0] d IH]; simpl; [lia |].
  destruct (String.eqb k k0); simpl; lia.
Qed.

Lemma map_remove_nodup {W} (f : string * V -> W) k (d : list (string * V)) :
  NoDup (map f d) -> NoDup (map f (dict_remove String.eqb k d)).
Proof.
  induction d as [| [k0 v0] d IH]; simpl; intros Hnd; [constructor |].
  inversion Hnd as [| ? ? Hx Hnd']; subst.
  destruct (String.eqb k k0); simpl; [assumption |].
  constructor; [| auto].
  intros Hin. apply Hx. clear -Hin.
  induction d as [| [k1 v1] d IH]; simpl in *; [contradiction |].
  destruct (String.eqb k k1); simpl in *; tauto.
Qed.

End DictRemove.

Lemma in_map_dict_set {V W} (g : V -> W) pid p (ps : list (string * V)) x :
  In x (map (fun pp => g (snd pp)) (dict_set String.eqb pid p ps)) ->
  x = g p \/ In x (map (fun pp => g (snd pp)) ps).
Proof.
  induction ps as [| [k q] ps IH]; simpl.
  - intros [<- | []]. now left.
  - destruct (String.eqb pid k); simpl.
    + intros [<- | Hin]; auto.
    + intros [<- | Hin]; [auto |]. destruct (IH Hin); auto.
Qed.

Lemma colors_after_set pid p ps :
  NoDup (map (fun pp => Rooms.color (snd pp)) ps) ->
  ~ In (Rooms.color p) (map (fun pp => Rooms.color (snd pp)) ps) ->
  NoDup (map (fun pp => Rooms.color (snd pp)) (dict_set String.eqb pid p ps)).
Proof.
  induction ps as [| [k q] ps IH]; simpl; intros Hnd Hfree.
  - constructor; [intros [] | constructor].
  - inversion Hnd as [| ? ? Hq Hnd']; subst.
    destruct (String.eqb pid k); simpl.
    + constructor; [tauto | assumption].
    + constructor.
      * intros Hin. apply in_map_dict_set in Hin as [Heq | Hin]; [| contradiction].
        apply Hfree. now left.
      * apply IH; [assumption | tauto].
Qed.

Lemma bind_ok_inv {St A B} (m : M St A) (k : A -> M St B) s s' b :
  bind m k s = (s', Ok b) ->
  exists s1 a, m s = (s1, Ok a) /\ k a s1 = (s', Ok b).
Proof.
  unfold bind. destruct (m s) as [s1 [a | e]]; [eauto | discriminate].
Qed.

Lemma new_room_ok rid : room_ok (Rooms.new_room rid).
Proof.
  unfold room_ok, host_ok, colors_of, len. simpl.
  repeat split; try constructor; lia.
Qed.

Lemma add_player_ok pid name ws room :
  room_ok room -> len (Rooms.players room) < 8 ->
  let player := Rooms.mkPlayerConn pid name ws false (Rooms._first_free_color room)
                                   [] (-1) in
  let room1 := Rooms.set_players
                 (dict_set String.eqb pid player (Rooms.players room)) room in
  let room2 := match Rooms.host_id room1 with
               | None => Rooms.set_host_id (Some pid) room1
               | Some _ => room1
               end in
  room_ok room2
  /\ Rooms.room_id room2 = Rooms.room_id room
  /\ Rooms.phase room2 = Rooms.phase room
  /\ dict_get String.eqb pid (Rooms.players room2) = Some player.
Proof.
  intros (Hkeys & Hhost & Hcol & Hlen) Hroom. cbv zeta.
  set (player := Rooms.mkPlayerConn pid name ws false (Rooms._first_free_color room)
                                    [] (-1)).
  assert (Hplayers : forall r2,
            Rooms.players r2 = dict_set String.eqb pid player (Rooms.players room) ->
            NoDup (keys (Rooms.players r2)) /\ NoDup (colors_of r2)
            /\ len (Rooms.players r2) <= 8
            /\ dict_get String.eqb pid (Rooms.players r2) = Some player).
  { intros r2 Hr2. unfold colors_of. rewrite Hr2. split; [| split; [| split]].
    - now apply (keys_set_nodup String.eqb String.eqb_spec).
    - apply colors_after_set; [exact Hcol |].
      exact (proj2 (first_free_color_fresh room Hroom)).
    - pose proof (len_dict_set pid player (Rooms.players room)). lia.
    - now rewrite (dict_get_set String.eqb String.eqb_spec), String.eqb_refl. }
  unfold host_ok in Hhost.
  destruct (Rooms.host_id room) as [h |] eqn:Hh; simpl; rewrite Hh; simpl.
  - destruct (Hplayers (Rooms.set_players
                          (dict_set String.eqb pid player (Rooms.players room)) room)
                eq_refl) as (H1 & H2 & H3 & H4).
    repeat split; try assumption.
    unfold host_ok. simpl. rewrite Hh.
    apply keys_dict_set_in. now right.
  - destruct (Hplayers (Rooms.set_host_id (Some pid)
                          (Rooms.set_players
                             (dict_set String.eqb pid player (Rooms.players room)) room))
                eq_refl) as (H1 & H2 & H3 & H4).
    repeat split; try assumption.
    unfold host_ok. simpl. apply keys_dict_set_in. now left.
Qed.

Lemma rooms_ok_set rid room m :
  rooms_ok m -> Rooms.room_id room = rid -> room_ok room ->
  rooms_ok (Rooms.set_rooms (dict_set String.eqb rid room (Rooms.rooms m)) m).
Proof.
  intros [Hnd Hall] Hid Hok. split; simpl.
  - now apply (keys_set_nodup String.eqb String.eqb_spec).
  - intros rid' r. rewrite (dict_get_set String.eqb String.eqb_spec).
    destruct (String.eqb_spec rid' rid) as [-> | Hne].
    + intros [= <-]. auto.
    + apply Hall.
Qed.

(** X20. What a successful join leaves behind.  The new player has the next id
    of the id source, the given name and connection, is not ready, has no
    inputs and no acknowledged tick; the returned room is in the lobby, is
    registered under its id and holds the player; the joiner is reported as
    host exactly when it is the room's host; and every room of the manager is
    well-formed: at most 8 players, the host among them, no colour given
    twice. *)
Theorem join_accepts room_id name ws m m' room' player is_host :
  rooms_ok m ->
  Rooms.join room_id name ws m = (m', Ok (room', player, is_host)) ->
  player = Rooms.mkPlayerConn (Rooms.player_ids m (Rooms.player_ids_drawn m))
                              name ws false (Rooms.color player) [] (-1)
  /\ Rooms.phase room' = "lobby"%string
  /\ dict_get String.eqb (Rooms.room_id room') (Rooms.rooms m') = Some room'
  /\ dict_get String.eqb (Rooms.player_id player) (Rooms.players room') = Some player
  /\ is_host = Rooms.opt_eqb (Rooms.host_id room') (Rooms.player_id player)
  /\ rooms_ok m'.
Proof.
  intros Hok Hrun. unfold Rooms.join in Hrun.
  (* the room id *)
  apply bind_ok_inv in Hrun as (m1 & rid & Hpick & Hrun).
  assert (Hm1 : Rooms.rooms m1 = Rooms.rooms m
                /\ Rooms.player_ids m1 = Rooms.player_ids m
                /\ Rooms.player_ids_drawn m1 = Rooms.player_ids_drawn m).
  { destruct room_id as [r |]; [destruct (Rooms.str_truthy r) |];
      unfold ret, Rooms.new_room_id in Hpick; injection Hpick as <- _; auto. }
  destruct Hm1 as (Hrooms1 & Hids1 & Hdrawn1).
  assert (Hok1 : rooms_ok m1) by (unfold rooms_ok; now rewrite Hrooms1).
  clear Hpick Hok Hrooms1.
  (* the room *)
  apply bind_ok_inv in Hrun as (m1' & mm & Hget & Hrun).
  unfold get in Hget. injection Hget as <- <-.
  apply bind_ok_inv in Hrun as (m2 & room & Hroom & Hrun).
  assert (Hm2 : rooms_ok m2 /\ Rooms.room_id room = rid /\ room_ok room
                /\ Rooms.player_ids m2 = Rooms.player_ids m1
                /\ Rooms.player_ids_drawn m2 = Rooms.player_ids_drawn m1).
  { destruct (dict_get String.eqb rid (Rooms.rooms m1)) as [room0 |] eqn:Hget.
    - unfold ret in Hroom. injection Hroom as <- <-.
      destruct (proj2 Hok1 rid room0 Hget). auto.
    - unfold bind, modify, ret in Hroom. injection Hroom as <- <-.
      split; [| repeat split; apply new_room_ok].
      apply rooms_ok_set; [assumption | reflexivity | apply new_room_ok]. }
  destruct Hm2 as (Hok2 & Hid & Hrok & Hids2 & Hdrawn2). clear Hroom.
  (* the checks *)
  destruct (String.eqb_spec (Rooms.phase room) "lobby") as [Hphase | _];
    [| discriminate].
  cbn [negb] in Hrun.
  destruct (Z.geb_spec (len (Rooms.players room)) 8) as [| Hlen]; [discriminate |].
  (* the player *)
  apply bind_ok_inv in Hrun as (m3 & pid & Hpid & Hrun).
  unfold Rooms.new_player_id in Hpid. injection Hpid as <- <-.
  unfold bind, modify, ret in Hrun.
  pose proof (add_player_ok (Rooms.player_ids m2 (Rooms.player_ids_drawn m2))
                name ws room Hrok Hlen) as Hadd.
  cbv zeta in Hadd. destruct Hadd as (Hrok2 & Hid2 & Hphase2 & Hget2).
  assert (Epid : Rooms.player_ids m2 (Rooms.player_ids_drawn m2)
                 = Rooms.player_ids m (Rooms.player_ids_drawn m)) by congruence.
  injection Hrun as <- <- <- <-.
  split; [simpl; now rewrite Epid |].
  split; [etransitivity; [exact Hphase2 | exact Hphase] |].
  split.
  { cbn [Rooms.rooms Rooms.set_rooms].
    rewrite (dict_get_set String.eqb String.eqb_spec).
    match goal with
    | |- (if String.eqb ?x rid then _ else _) = _ =>
        assert (Ex : x = rid) by (etransitivity; [exact Hid2 | exact Hid]);
        rewrite Ex, String.eqb_refl
    end.
    reflexivity. }
  split; [exact Hget2 |]. split; [reflexivity |].
  apply (rooms_ok_set rid _
           (Rooms.mkManager (Rooms.rooms m2) (Rooms.room_ids m2) (Rooms.room_ids_drawn m2)
                            (Rooms.player_ids m2) (S (Rooms.player_ids_drawn m2)))).
  - exact Hok2.
  - etransitivity; [exact Hid2 | exact Hid].
  - exact Hrok2.
Qed.

Lemma rooms_ok_empty : rooms_ok RoomScenes.manager_empty.
Proof. split; [constructor | intros rid r; discriminate]. Qed.

Lemma join_accepts_witness :
  RoomScenes.bob
  = Rooms.mkPlayerConn
      (Rooms.player_ids RoomScenes.manager_empty
         (Rooms.player_ids_drawn RoomScenes.manager_empty))
      "Bob"%string 7 false (Rooms.color RoomScenes.bob) [] (-1)
  /\ Rooms.phase RoomScenes.room_bob = "lobby"%string
  /\ dict_get String.eqb (Rooms.room_id RoomScenes.room_bob)
       (Rooms.rooms RoomScenes.manager_bob) = Some RoomScenes.room_bob
  /\ dict_get String.eqb (Rooms.player_id RoomScenes.bob)
       (Rooms.players RoomScenes.room_bob) = Some RoomScenes.bob
  /\ true = Rooms.opt_eqb (Rooms.host_id RoomScenes.room_bob)
                          (Rooms.player_id RoomScenes.bob)
  /\ rooms_ok RoomScenes.manager_bob.
Proof.
  apply (join_accepts None "Bob"%string 7 RoomScenes.manager_empty).
  - exact rooms_ok_empty.
  - reflexivity.
Defined.

(** ** Leaving *)

Lemma drop_player_players pid r :
  Rooms.players (Rooms.drop_player pid r)
  = dict_remove String.eqb pid (Rooms.players r).
Proof.
  unfold Rooms.drop_player. cbv zeta.
  destruct (Rooms.opt_eqb _ pid); reflexivity.
Qed.

Lemma drop_player_room_id pid r :
  Rooms.room_id (Rooms.drop_player pid r) = Rooms.room_id r.
Proof.
  unfold Rooms.drop_player. cbv zeta.
  destruct (Rooms.opt_eqb _ pid); reflexivity.
Qed.

Lemma first_key_ok (ps : list (string * Rooms.PlayerConn)) :
  match Rooms.first_key ps with
  | None => ps = []
  | Some h => In h (keys ps)
  end.
Proof. destruct ps as [| [k p] ps]; simpl; auto. Qed.

Lemma in_keys_remove {V} k k' (d : list (string * V)) :
  k' <> k -> In k' (keys d) -> In k' (keys (dict_remove String.eqb k d)).
Proof.
  unfold keys. induction d as [| [k0 v0] d IH]; simpl; intros Hne Hin; [assumption |].
  destruct (String.eqb_spec k k0) as [-> | Hne0]; simpl.
  - destruct Hin as [<- | Hin]; [contradiction | assumption].
  - destruct Hin as [<- | Hin]; [now left | right; auto].
Qed.

Lemma drop_player_host_ok pid r :
  host_ok r -> host_ok (Rooms.drop_player pid r).
Proof.
  unfold host_ok, Rooms.drop_player. cbv zeta. simpl.
  destruct (Rooms.host_id r) as [h |] eqn:Hh; simpl.
  - destruct (String.eqb_spec h pid) as [-> | Hne]; simpl.
    + intros _. apply first_key_ok.
    + rewrite Hh. now apply in_keys_remove.
  - rewrite Hh. intros Hp. now rewrite Hp.
Qed.

Lemma drop_player_ok pid r : room_ok r -> room_ok (Rooms.drop_player pid r).
Proof.
  intros (Hkeys & Hhost & Hcol & Hlen). unfold room_ok, colors_of.
  rewrite drop_player_players.
  split; [now apply keys_remove_nodup |].
  split; [now apply drop_player_host_ok |].
  split; [now apply map_remove_nodup |].
  pose proof (len_remove pid (Rooms.players r)). lia.
Qed.

(** X21. [leave] keeps every room of the manager well-formed; the room that was
    left no longer holds the player, and it is deleted from the manager
    exactly when it has no player left. *)
Theorem leave_keeps_rooms_ok rid pid m :
  rooms_ok m ->
  rooms_ok (Rooms.leave rid pid m)
  /\ match dict_get String.eqb rid (Rooms.rooms m) with
     | None => Rooms.leave rid pid m = m
     | Some room =>
         match dict_remove String.eqb pid (Rooms.players room) with
         | [] => dict_get String.eqb rid (Rooms.rooms (Rooms.leave rid pid m)) = None
         | rest =>
             exists room',
               dict_get String.eqb rid (Rooms.rooms (Rooms.leave rid pid m)) = Some room'
               /\ Rooms.players room' = rest
               /\ dict_get String.eqb pid (Rooms.players room') = None
         end
     end.
Proof.
  intros Hok. pose proof Hok as [Hnd Hall]. unfold Rooms.leave.
  destruct (dict_get String.eqb rid (Rooms.rooms m)) as [room |] eqn:Hget;
    [| split; [assumption | reflexivity]].
  destruct (Hall rid room Hget) as [Hid Hrok].
  pose proof (drop_player_ok pid room Hrok) as Hrok1.
  pose proof (drop_player_players pid room) as Hpl.
  pose proof (drop_player_room_id pid room) as Hid1.
  destruct (Rooms.players (Rooms.drop_player pid room)) as [| pp rest] eqn:Hps;
    rewrite <- Hpl.
  - split.
    + split; simpl.
      * now apply keys_remove_nodup.
      * intros rid' r. rewrite (dict_get_remove _ _ _ Hnd).
        destruct (String.eqb rid' (Rooms.room_id (Rooms.drop_player pid room)));
          [discriminate | apply Hall].
    + simpl. rewrite (dict_get_remove _ _ _ Hnd), Hid1, Hid, String.eqb_refl.
      reflexivity.
  - split.
    + apply rooms_ok_set; [assumption | congruence | assumption].
    + exists (Rooms.drop_player pid room). simpl.
      rewrite (dict_get_set String.eqb String.eqb_spec), String.eqb_refl.
      split; [reflexivity |]. split; [assumption |].
      rewrite Hps, Hpl. destruct Hrok as [Hkeys _].
      now rewrite (dict_get_remove _ _ _ Hkeys), String.eqb_refl.
Qed.

Lemma rooms_ok_bob : rooms_ok RoomScenes.manager_bob.
Proof.
  split; [apply nodup_one |].
  intros rid r. unfold RoomScenes.manager_bob. cbn [Rooms.rooms dict_get].
  destruct (String.eqb_spec rid (RoomScenes.room_names 0)) as [-> | _];
    [| discriminate].
  intros [= <-]. split; [reflexivity |].
  unfold room_ok, host_ok, colors_of, len. simpl.
  repeat split; try apply nodup_one; try lia.
  - now left.
  - constructor; [intros [] | constructor].
Qed.

Lemma leave_keeps_rooms_ok_witness :
  rooms_ok (Rooms.leave "ABCDEF"%string "p-uuid"%string RoomScenes.manager_bob)
  /\ dict_get String.eqb "ABCDEF"%string
       (Rooms.rooms (Rooms.leave "ABCDEF"%string "p-uuid"%string RoomScenes.manager_bob)) = None.
Proof.
  apply (leave_keeps_rooms_ok "ABCDEF"%string "p-uuid"%string RoomScenes.manager_bob).
  exact rooms_ok_bob.
Defined.

(** ** Broadcast *)

Lemma fold_drop_players stale : forall r,
  Rooms.players (fold_left (fun r pid => Rooms.drop_player pid r) stale r)
  = fold_left (fun ps pid => dict_remove String.eqb pid ps) stale (Rooms.players r).
Proof.
  induction stale as [| pid stale IH]; intros r; simpl; [reflexivity |].
  now rewrite IH, drop_player_players.
Qed.

Lemma fold_drop_host_ok stale : forall r,
  host_ok r -> host_ok (fold_left (fun r pid => Rooms.drop_player pid r) stale r).
Proof.
  induction stale as [| pid stale IH]; intros r Hok; simpl; [assumption |].
  apply IH. now apply drop_player_host_ok.
Qed.

Lemma fold_remove_cons {V} ks : forall k (v : V) (d : list (string * V)),
  ~ In k ks ->
  fold_left (fun ps pid => dict_remove String.eqb pid ps) ks ((k, v) :: d)
  = (k, v) :: fold_left (fun ps pid => dict_remove String.eqb pid ps) ks d.
Proof.
  induction ks as [| k0 ks IH]; intros k v d Hk; simpl; [reflexivity |].
  destruct (String.eqb_spec k0 k) as [-> | Hne]; [exfalso; apply Hk; now left |].
  apply IH. intros Hin. apply Hk. now right.
Qed.

Lemma fold_remove_filter {V} (keep : V -> bool) (d : list (string * V)) :
  NoDup (keys d) ->
  fold_left (fun ps pid => dict_remove String.eqb pid ps)
            (map fst (filter (fun pp => negb (keep (snd pp))) d)) d
  = filter (fun pp => keep (snd pp)) d.
Proof.
  unfold keys. induction d as [| [k v] d IH]; simpl; intros Hnd; [reflexivity |].
  inversion Hnd as [| ? ? Hk Hnd']; subst.
  destruct (keep v); simpl.
  - rewrite fold_remove_cons; [now rewrite IH |].
    intros Hin. apply Hk. apply in_map_iff in Hin as ([k' v'] & <- & Hin).
    apply filter_In in Hin as [Hin _]. apply in_map_iff. now exists (k', v').
  - rewrite String.eqb_refl. now apply IH.
Qed.

(** X22. After a broadcast the room holds exactly the players whose connection
    took the message, in their old order; those are the connections
    reported as reached; and the host is still one of the players. *)
Theorem broadcast_drops_stale send_ok r :
  NoDup (keys (Rooms.players r)) -> host_ok r ->
  let out := Rooms.broadcast send_ok r in
  Rooms.players (fst out)
  = filter (fun pp => send_ok (Rooms.ws (snd pp))) (Rooms.players r)
  /\ snd out = map (fun pp => Rooms.ws (snd pp)) (Rooms.players (fst out))
  /\ host_ok (fst out).
Proof.
  intros Hnd Hhost. cbv zeta. unfold Rooms.broadcast. cbv zeta. cbn [fst snd].
  assert (Hstale :
    map fst (filter (fun c : string * nat => negb (send_ok (snd c)))
               (map (fun pp => (fst pp, Rooms.ws (snd pp))) (Rooms.players r)))
    = map fst (filter (fun pp => negb (send_ok (Rooms.ws (snd pp)))) (Rooms.players r))).
  { clear. induction (Rooms.players r) as [| [k p] ps IH]; simpl; [reflexivity |].
    destruct (send_ok (Rooms.ws p)); simpl; now rewrite IH. }
  assert (Hreached :
    map snd (filter (fun c : string * nat => send_ok (snd c))
               (map (fun pp => (fst pp, Rooms.ws (snd pp))) (Rooms.players r)))
    = map (fun pp => Rooms.ws (snd pp))
          (filter (fun pp => send_ok (Rooms.ws (snd pp))) (Rooms.players r))).
  { clear. induction (Rooms.players r) as [| [k p] ps IH]; simpl; [reflexivity |].
    destruct (send_ok (Rooms.ws p)); simpl; now rewrite IH. }
  rewrite Hstale, Hreached, fold_drop_players.
  rewrite (fold_remove_filter (fun p => send_ok (Rooms.ws p)) _ Hnd).
  split; [reflexivity |]. split; [reflexivity |].
  now apply fold_drop_host_ok.
Qed.

Lemma broadcast_drops_stale_witness :
  let out := Rooms.broadcast RoomScenes.send_ok_from_4 RoomScenes.full_room in
  Rooms.players (fst out)
  = filter (fun pp => RoomScenes.send_ok_from_4 (Rooms.ws (snd pp)))
           (Rooms.players RoomScenes.full_room)
  /\ snd out = map (fun pp => Rooms.ws (snd pp)) (Rooms.players (fst out))
  /\ host_ok (fst out).
Proof.
  apply (broadcast_drops_stale RoomScenes.send_ok_from_4 RoomScenes.full_room).
  - vm_compute. repeat (constructor; [simpl; intuition discriminate |]). constructor.
  - unfold host_ok. simpl. now left.
Defined.

(** Four of the eight guests are gone, the host among them: the first
    remaining guest is the host. *)
Example broadcast_scenario :
  let out := Rooms.broadcast RoomScenes.send_ok_from_4 RoomScenes.full_room in
  keys (Rooms.players (fst out)) = map RoomScenes.uuids [4; 5; 6; 7]%nat
  /\ snd out = [4; 5; 6; 7]%nat
  /\ Rooms.host_id (fst out) = Some (RoomScenes.uuids 4).
Proof. vm_compute. repeat split. Qed.

(** ** Settings *)

(** X23. Whatever fields the payload of a [set_settings] message carries and
    whoever sends it, the
    settings of a room stay within their bounds: cube size 8..80, round
    length 30..1800 seconds, tick rate 5..30.  Only the host can change
    them, and only in the lobby. *)
Theorem set_settings_keeps_bounds int_of_str payload pid r :
  settings_ok (Rooms.settings r) ->
  settings_ok (Rooms.settings (Net.on_set_settings int_of_str payload pid r))
  /\ (Rooms.host_id r <> Some pid \/ Rooms.phase r <> "lobby"%string ->
      Net.on_set_settings int_of_str payload pid r = r).
Proof.
  intros (Hc & Hr & Ht). unfold Net.on_set_settings. split.
  - destruct (negb (String.eqb (Rooms.phase r) "lobby"));
      [unfold settings_ok; auto |].
    destruct (negb (Rooms.opt_eqb (Rooms.host_id r) pid));
      [unfold settings_ok; auto |].
    cbv zeta.
    destruct (Net._as_int int_of_str (Net.field "cubeN" payload)) as [a |];
      destruct (Net._as_int int_of_str (Net.field "roundSeconds" payload)) as [b |];
      destruct (Net._as_int int_of_str (Net.field "tickRate" payload)) as [c |];
      unfold settings_ok, Net.clamp;
      cbn [Rooms.settings Rooms.set_settings Rooms.cube_n Rooms.round_seconds
           Rooms.tick_rate];
      lia.
  - intros [Hhost | Hphase].
    + destruct (negb (String.eqb (Rooms.phase r) "lobby")); [reflexivity |].
      assert (Hne : Rooms.opt_eqb (Rooms.host_id r) pid = false).
      { unfold Rooms.opt_eqb. destruct (Rooms.host_id r) as [h |]; [| reflexivity].
        destruct (String.eqb_spec h pid); [congruence | reflexivity]. }
      now rewrite Hne.
    + destruct (String.eqb_spec (Rooms.phase r) "lobby"); [contradiction | reflexivity].
Qed.

Lemma set_settings_keeps_bounds_witness :
  settings_ok (Rooms.settings
                 (Net.on_set_settings RoomScenes.no_int
                    [("cubeN"%string, JInt 500); ("tickRate"%string, JInt 1)]
                    "p-uuid"%string RoomScenes.room_bob))
  /\ (Rooms.host_id RoomScenes.room_bob <> Some "p-uuid"%string
      \/ Rooms.phase RoomScenes.room_bob <> "lobby"%string ->
      Net.on_set_settings RoomScenes.no_int
        [("cubeN"%string, JInt 500); ("tickRate"%string, JInt 1)]
        "p-uuid"%string RoomScenes.room_bob
      = RoomScenes.room_bob).
Proof.
  apply (set_settings_keeps_bounds RoomScenes.no_int
           [("cubeN"%string, JInt 500); ("tickRate"%string, JInt 1)]
           "p-uuid"%string RoomScenes.room_bob).
  unfold settings_ok. simpl. lia.
Defined.

(** The host asks for a cube of 500 and a tick rate of 1: it gets 80 and 5. *)
Example set_settings_scenario :
  Rooms.settings
    (Net.on_set_settings RoomScenes.no_int
       [("cubeN"%string, JInt 500); ("tickRate"%string, JInt 1)]
       "p-uuid"%string RoomScenes.room_bob)
  = Rooms.mkRoomSettings 80 180 5.
Proof. reflexivity. Qed.

(** ** Inputs *)

#[local] Instance input_step_preorder pid : PreOrder (input_step pid).
Proof.
  split.
  - intros r. unfold input_step.
    split; [auto |]. split; [reflexivity |]. split; [reflexivity |].
    split; [| repeat split].
    intros p0 Hp. exists (Rooms.input_by_tick p0). rewrite Hp. now destruct p0.
  - intros a b c (T1 & K1 & O1 & S1 & P1 & G1 & H1 & E1)
                 (T2 & K2 & O2 & S2 & P2 & G2 & H2 & E2).
    unfold input_step.
    split; [auto |]. split; [congruence |].
    split; [intros q Hq; rewrite (O2 q Hq); now apply O1 |].
    split; [| repeat split; congruence].
    intros p0 Hp. destruct (S1 p0 Hp) as [i Hi]. destruct (S2 _ Hi) as [j Hj].
    exists j. rewrite Hj. reflexivity.
Qed.

Lemma in_dict_update {V} pid (f : V -> V) (ps : list (string * V)) q p' :
  In (q, p') (dict_update String.eqb pid f ps) ->
  In (q, p') ps \/ exists p, In (q, p) ps /\ p' = f p.
Proof.
  induction ps as [| [k v] ps IH]; simpl; [tauto |].
  destruct (String.eqb pid k); simpl.
  - intros [[= <- <-] | Hin]; [right; eauto | auto].
  - intros [Heq | Hin]; [auto |].
    destruct (IH Hin) as [H | (p & H & ->)]; [auto | right; eauto].
Qed.

Lemma in_dict_set_z {V} k (v : V) (d : list (Z * V)) t x :
  In (t, x) (dict_set Z.eqb k v d) -> (t, x) = (k, v) \/ In (t, x) d.
Proof.
  induction d as [| [k0 v0] d IH]; simpl.
  - intros [H | []]. now left.
  - destruct (Z.eqb_spec k k0) as [-> | Hne]; simpl.
    + intros [[= <- <-] | Hin]; auto.
    + intros [H | Hin]; [auto |]. destruct (IH Hin); auto.
Qed.

Lemma store_input_step int_of_str pid r item r' :
  Net.store_input int_of_str pid r item = Ok r' -> input_step pid r r'.
Proof.
  unfold Net.store_input. intros Hrun.
  assert (Hsame : input_step pid r r) by reflexivity.
  destruct item as [| | | | | fields]; try (injection Hrun as <-; exact Hsame).
  destruct (Net._as_int int_of_str (Net.field "tick" fields)) as [tick |];
    [| injection Hrun as <-; exact Hsame].
  destruct (Net._as_int int_of_str (Net.field "turn" fields)) as [tv |];
    [| injection Hrun as <-; exact Hsame].
  destruct (mem Z.eqb tv [-1; 0; 1]) eqn:Hmem; cbn [negb] in Hrun;
    [| injection Hrun as <-; exact Hsame].
  destruct (dict_get String.eqb pid (Rooms.players r)) as [p0 |] eqn:Hp0;
    [| discriminate].
  injection Hrun as <-. clear Hsame.
  assert (Htv : -1 <= tv <= 1).
  { apply (mem_spec Z.eqb Z.eqb_spec) in Hmem. simpl in Hmem. lia. }
  unfold input_step. simpl.
  split; [| split; [| split; [| split; [| repeat split]]]].
  - intros Hok q p' t v Hin Htv'.
    apply in_dict_update in Hin as [Hin | (p & Hin & ->)].
    + eapply Hok; eassumption.
    + simpl in Htv'. apply in_dict_set_z in Htv' as [[= -> ->] | Hold];
        [exact Htv | eapply Hok; eassumption].
  - apply keys_update.
  - intros q Hq. now apply (dict_get_update_other String.eqb String.eqb_spec).
  - intros p Hp. rewrite (dict_get_update_same String.eqb String.eqb_spec), Hp0.
    rewrite Hp0 in Hp. injection Hp as <-. simpl. eexists. reflexivity.
Qed.

Lemma on_input_step int_of_str payload pid r :
  input_step pid r (fst (Net.on_input int_of_str payload pid r)).
Proof.
  unfold Net.on_input.
  destruct (Net.field "inputs" payload) as [| | | | items |]; try reflexivity.
  apply (preserves_for_each (R := input_step pid)). intros item [].
  apply preserves_get_bind. intros r0. unfold bind, lift.
  destruct (Net.store_input int_of_str pid r0 item) as [r1 |] eqn:Hstore;
    simpl; [| reflexivity].
  now apply (store_input_step int_of_str pid r0 item).
Qed.

(** X24. Whatever fields the payload of an [input] message carries, only turns
    of -1, 0 and 1 are ever
    stored; the message changes nothing of the room but the stored inputs of
    its sender. *)
Theorem input_keeps_turns int_of_str payload pid r :
  let r' := fst (Net.on_input int_of_str payload pid r) in
  (turns_ok r -> turns_ok r')
  /\ keys (Rooms.players r') = keys (Rooms.players r)
  /\ (forall q, q <> pid ->
        dict_get String.eqb q (Rooms.players r')
        = dict_get String.eqb q (Rooms.players r))
  /\ (forall p, dict_get String.eqb pid (Rooms.players r) = Some p ->
        exists i, dict_get String.eqb pid (Rooms.players r')
                  = Some (Rooms.set_input_by_tick i p))
  /\ Rooms.phase r' = Rooms.phase r /\ Rooms.game r' = Rooms.game r
  /\ Rooms.host_id r' = Rooms.host_id r /\ Rooms.settings r' = Rooms.settings r.
Proof. apply on_input_step. Qed.

(** Of the items [{tick: 3, turn: -1}], [{tick: 4, turn: 2}], [7] and
    [{tick: 5}] only the first is stored. *)
Example input_scenario :
  option_map Rooms.input_by_tick
    (dict_get String.eqb "p-uuid"%string
       (Rooms.players
          (fst (Net.on_input RoomScenes.no_int
                  [("inputs"%string,
                    JList [JObj [("tick"%string, JInt 3); ("turn"%string, JInt (-1))];
                           JObj [("tick"%string, JInt 4); ("turn"%string, JInt 2)];
                           JInt 7;
                           JObj [("tick"%string, JInt 5)]])]
                  "p-uuid"%string RoomScenes.room_bob))))
  = Some [(3, -1)].
Proof. reflexivity. Qed.

(** ** The tick driver *)

Lemma in_take_inputs t ps pid p :
  In (pid, p) (snd (Rooms.take_inputs t ps)) -> Rooms.last_ack_tick p = t.
Proof.
  unfold Rooms.take_inputs. cbn [snd]. intros Hin.
  apply in_map_iff in Hin as ([k q] & [= _ <-] & _). reflexivity.
Qed.

Lemma keys_take_inputs t ps : keys (snd (Rooms.take_inputs t ps)) = keys ps.
Proof.
  unfold Rooms.take_inputs, keys. cbn [snd]. rewrite map_map. reflexivity.
Qed.

(** X25. A pass of the tick driver that broadcasts a [state] message has run
    exactly one tick: the tick counter of the game is one higher, the
    players are the same, every player's acknowledged tick is the tick that
    was run, and the message reports the game as the tick left it. *)
Theorem locked_step_acks fuel now d d' g reply :
  Rooms.game (Rooms.room d) = Some g ->
  Rooms.phase (Rooms.room d) = "running"%string ->
  now < Sim.ends_at_ms g ->
  Rooms.locked_step fuel now d = (d', Ok (Some reply)) ->
  exists g',
    Rooms.game (Rooms.room d') = Some g'
    /\ Sim.tick_no g' = Sim.tick_no g + 1
    /\ keys (Rooms.players (Rooms.room d')) = keys (Rooms.players (Rooms.room d))
    /\ (forall pid p, In (pid, p) (Rooms.players (Rooms.room d')) ->
          Rooms.last_ack_tick p = Sim.tick_no g)
    /\ reply = Rooms.state_msg now (Sim.ends_at_ms g - now) g'
                 (Rooms.players (Rooms.room d')).
Proof.
  intros Hg Hph Hnow Hrun. unfold Rooms.locked_step in Hrun.
  rewrite Hg, Hph, String.eqb_refl in Hrun. cbn [negb] in Hrun.
  destruct (Z.leb_spec (Sim.ends_at_ms g - now) 0) as [| _]; [lia |].
  pose proof (in_take_inputs (Sim.tick_no g) (Rooms.players (Rooms.room d))) as Hack.
  pose proof (keys_take_inputs (Sim.tick_no g) (Rooms.players (Rooms.room d))) as Hkeys.
  destruct (Rooms.take_inputs (Sim.tick_no g) (Rooms.players (Rooms.room d)))
    as [inputs ps].
  cbn [snd] in Hack, Hkeys.
  pose proof (tick_no_after fuel inputs now
                (Sim.mkWorld g (Rooms.token_hex d) (Rooms.tokens_drawn d))) as Hno.
  cbv zeta in Hno.
  destruct (Sim.tick fuel inputs now
              (Sim.mkWorld g (Rooms.token_hex d) (Rooms.tokens_drawn d)))
    as [w [[] | e]]; [| discriminate].
  cbn [fst snd] in Hno. injection Hrun as <- <-.
  exists (Sim.game w). simpl. repeat split; auto.
Qed.

Lemma locked_step_acks_witness :
  exists g',
    Rooms.game (Rooms.room (fst (Rooms.locked_step 4 1000
                                   (Rooms.mkDriver RoomScenes.running_room Demo.tokens 0))))
    = Some g'
    /\ Sim.tick_no g' = Sim.tick_no Demo.game0 + 1
    /\ keys (Rooms.players
               (Rooms.room (fst (Rooms.locked_step 4 1000
                                   (Rooms.mkDriver RoomScenes.running_room Demo.tokens 0)))))
       = keys (Rooms.players
                 (Rooms.room (Rooms.mkDriver RoomScenes.running_room Demo.tokens 0)))
    /\ (forall pid p,
          In (pid, p)
             (Rooms.players
                (Rooms.room (fst (Rooms.locked_step 4 1000
                                    (Rooms.mkDriver RoomScenes.running_room Demo.tokens 0)))))
          -> Rooms.last_ack_tick p = Sim.tick_no Demo.game0)
    /\ Rooms.state_msg 1000 180000
         (Sim.game (fst (Sim.tick 4 [("A"%string, Sim.PyDict [])] 1000 Demo.world0)))
         [("A"%string, Rooms.set_last_ack_tick 0 RoomScenes.playerA)]
       = Rooms.state_msg 1000 (Sim.ends_at_ms Demo.game0 - 1000) g'
           (Rooms.players
              (Rooms.room (fst (Rooms.locked_step 4 1000
                                  (Rooms.mkDriver RoomScenes.running_room Demo.tokens 0))))).
Proof.
  apply (locked_step_acks 4 1000
           (Rooms.mkDriver RoomScenes.running_room Demo.tokens 0)
           (fst (Rooms.locked_step 4 1000
                   (Rooms.mkDriver RoomScenes.running_room Demo.tokens 0)))
           Demo.game0).
  - reflexivity.
  - reflexivity.
  - reflexivity.
  - vm_compute. reflexivity.
Defined.
